(** * Roadmap merge and auto-schedule: a shallow embedding of the server routes

    The development follows the server's route file: the merge-preview
    handler ([POST /api/v1/roadmap/merge/preview]), the merge handler
    ([POST /api/v1/roadmap/merge]), the helper [generateAutoSchedule], and
    the in-memory storage class they talk to.

    Conventions of the embedding.
    - A JavaScript [number] that holds a duration in seconds or a time value
      in milliseconds is a [Z]; the daily study budget, which is fractional,
      is a [Q].  The result of a division is a [JS.number], which adds
      [Infinity], [-Infinity] and [NaN] to the rationals.  Sums of integers
      are exact, as they are in binary64 below 2^53; a product or quotient
      that need not be an integer is rounded to binary64 by [JS.binary64]
      (round to nearest, ties to even, with gradual underflow; overflow to
      [Infinity] is left out, so magnitudes are taken below 2^1024).
    - A [Date] is its time value; local time goes through the host's
      [LocalTZA], which may change with the instant (daylight saving).  A
      clock reading ([new Date()], [Date.now()]) is a parameter, one for
      each time the code reads the clock.
    - Arrays are lists; [Map<string, _>] is a [gmap string _]; the calendar,
      a plain object whose keys are enumerated in insertion order, is an
      association list.
    - [while] loops are iterated by a fuel-bounded combinator; each use comes
      with a lemma showing that the fuel given suffices for the loop to run
      to its exit condition. *)

From Stdlib Require Import ZArith QArith Qround Qpower Qreduction Lqa List Bool Lia String.
From stdpp Require Import base gmap strings pretty.
Import ListNotations.

Local Open Scope string_scope.
Local Open Scope list_scope.
Local Open Scope Z_scope.

(** ** JavaScript primitives used by the routes *)

Module JS.

(** A [number] as produced by [/]: a rational, an infinity, or [NaN]. *)
Inductive number : Type :=
| Finite (q : Q)
| PosInfinity
| NegInfinity
| NaN.

Definition ofZ (z : Z) : number := Finite (inject_Z z).

Definition sgn (x : number) : Z :=
  match x with
  | Finite q => Z.sgn (Qnum q)
  | PosInfinity => 1
  | NegInfinity => -1
  | NaN => 0
  end.

(** The integer nearest to [q], a tie going to the even one. *)
Definition round_half_even (q : Q) : Z :=
  let f := Qfloor q in
  match Qcompare (q - inject_Z f) (1 # 2) with
  | Lt => f
  | Gt => f + 1
  | Eq => if Z.even f then f else f + 1
  end.

(** The exponent [e] with [2 ^ e <= q < 2 ^ (e + 1)], for positive [q]. *)
Definition ilog2 (q : Q) : Z :=
  let e := Z.log2 (Qnum q) - Z.log2 (Zpos (Qden q)) in
  if Qle_bool (2 ^ e) q then e else e - 1.

(** The binary64 number nearest to a positive [q]: a multiple of the unit
    in the last of 53 significant bits, and of [2 ^ -1074] at least. *)
Definition binary64_pos (q : Q) : Q :=
  let p := Z.max (ilog2 q - 52) (-1074) in
  (inject_Z (round_half_even (q / 2 ^ p)) * 2 ^ p)%Q.

(** The binary64 number nearest to [q]: what an arithmetic operation whose
    exact result is [q] returns. *)
Definition binary64 (q : Q) : Q :=
  let r := Qred q in
  match Qcompare r 0 with
  | Eq => 0%Q
  | Gt => binary64_pos r
  | Lt => (- binary64_pos (- r))%Q
  end.

(** [a / b] on two finite integers. *)
Definition div (a b : Z) : number :=
  if b =? 0 then
    (if a =? 0 then NaN else if 0 <? a then PosInfinity else NegInfinity)
  else Finite (binary64 (inject_Z a / inject_Z b)%Q).

(** [x * y]. *)
Definition mul (x y : number) : number :=
  match x, y with
  | NaN, _ | _, NaN => NaN
  | Finite a, Finite b => Finite (binary64 (a * b)%Q)
  | _, _ =>
      if sgn x * sgn y =? 0 then NaN
      else if 0 <? sgn x * sgn y then PosInfinity else NegInfinity
  end.

(** [Math.round(x)]: the integer nearest to [x], halves going up. *)
Definition Math_round (x : number) : number :=
  match x with
  | Finite q => ofZ (Qfloor (q + (1 # 2))%Q)
  | other => other
  end.

(** [x || 0] on a number: [0] and [NaN] are falsy. *)
Definition or_zero (x : number) : number :=
  match x with
  | Finite q => if Qeq_bool q 0 then ofZ 0 else x
  | NaN => ofZ 0
  | other => other
  end.

(** [arr.findIndex(p)]: index of the first element satisfying [p], or -1. *)
Fixpoint findIndex_from {A : Type} (p : A -> bool) (arr : list A) (i : Z) : Z :=
  match arr with
  | [] => -1
  | x :: rest => if p x then i else findIndex_from p rest (i + 1)
  end.

Definition findIndex {A : Type} (p : A -> bool) (arr : list A) : Z :=
  findIndex_from p arr 0.

(** [arr.filter((x, index) => p(x, index))]. *)
Fixpoint filter_from {A : Type} (p : A -> Z -> bool) (arr : list A) (i : Z) : list A :=
  match arr with
  | [] => []
  | x :: rest =>
      if p x i then x :: filter_from p rest (i + 1) else filter_from p rest (i + 1)
  end.

Definition filter_indexed {A : Type} (p : A -> Z -> bool) (arr : list A) : list A :=
  filter_from p arr 0.

(** [arr.join(sep)] on strings. *)
Fixpoint join (sep : string) (arr : list string) : string :=
  match arr with
  | [] => ""
  | [x] => x
  | x :: rest => x +:+ sep +:+ join sep rest
  end.

(** [arr.sort(cmp)]: the sort is stable (ECMAScript 2019 and later); it is
    rendered as a stable insertion sort driven by the comparator. *)
Fixpoint sort_insert {A : Type} (cmp : A -> A -> Z) (x : A) (sorted : list A) : list A :=
  match sorted with
  | [] => [x]
  | y :: rest =>
      if 0 <? cmp x y then y :: sort_insert cmp x rest else x :: y :: rest
  end.

Fixpoint sort {A : Type} (cmp : A -> A -> Z) (arr : list A) : list A :=
  match arr with
  | [] => []
  | x :: rest => sort_insert cmp x (sort cmp rest)
  end.

(** [while (cond) body], iterated at most [fuel] times. *)
Fixpoint while {S : Type} (fuel : nat) (cond : S -> bool) (body : S -> S) (s : S) : S :=
  match fuel with
  | O => s
  | Datatypes.S fuel' => if cond s then while fuel' cond body (body s) else s
  end.

End JS.

(** ** Shared schema *)

Module VideoModule.
Record t : Type := mk {
  id : string;
  title : string;
  duration : Z;
  isCore : bool;
  description : option string
}.
End VideoModule.

Module RoadmapBranch.
Record t : Type := mk {
  id : string;
  title : string;
  description : option string;
  videos : list VideoModule.t;
  estimatedDuration : Z
}.
End RoadmapBranch.

Module Roadmap.
Record t : Type := mk {
  id : string;
  title : string;
  description : option string;
  estimatedDuration : Z;
  branches : list RoadmapBranch.t;
  userId : string;
  createdAt : Z;
  updatedAt : Z
}.
End Roadmap.

(** An entry of a calendar day: the video's fields, the title of the branch
  it came from and the display time. *)
Module CalendarEvent.
Record t : Type := mk {
  id : string;
  title : string;
  duration : Z;
  isCore : bool;
  description : option string;
  branch_title : string;
  scheduled_time : string
}.
End CalendarEvent.

(** [Record<string, CalendarEvent[]>]: date keys in insertion order.  A date
  key ["YYYY-MM-DD"] is represented by the number of the UTC day it names
  (days since 1970-01-01). *)
Definition Calendar : Type := list (Z * list CalendarEvent.t).

Module MergedRoadmap.
Record t : Type := mk {
  id : string;
  title : string;
  description : string;
  estimatedDuration : Z;
  branches : list RoadmapBranch.t;
  mergedFrom : list string;
  calendar : option Calendar;
  userId : string;
  createdAt : Z
}.
End MergedRoadmap.

(** ** Merge preview *)

Module Preview.
Record t : Type := mk {
  id : string;
  title : string;
  description : string;
  estimatedDuration : Z;
  branches : list RoadmapBranch.t
}.
End Preview.

Module Statistics.
Record t : Type := mk {
  original_roadmaps : nat;
  original_duration : Z;
  final_duration : Z;
  duration_saved : Z;
  original_branches : nat;
  final_branches : nat;
  efficiency_gain : JS.number
}.
End Statistics.

Section MergePreview.

Variable validRoadmaps : list Roadmap.t.

Definition mergedTitle : string :=
  "Merged: " +:+ JS.join " + " (List.map Roadmap.title validRoadmaps).

Definition totalDuration : Z :=
  fold_left (fun sum r => sum + Roadmap.estimatedDuration r) validRoadmaps 0.

Definition allBranches : list RoadmapBranch.t :=
  flat_map Roadmap.branches validRoadmaps.

(** Simple deduplication by title. *)
Definition uniqueBranches : list RoadmapBranch.t :=
  JS.filter_indexed
    (fun branch index =>
       JS.findIndex
         (fun b => String.eqb (RoadmapBranch.title b) (RoadmapBranch.title branch))
         allBranches
       =? index)
    allBranches.

Definition optimizedDuration : Z :=
  fold_left (fun sum b => sum + RoadmapBranch.estimatedDuration b) uniqueBranches 0.

Definition durationSaved : Z := totalDuration - optimizedDuration.

Definition preview : Preview.t :=
  {| Preview.id := "preview";
     Preview.title := mergedTitle;
     Preview.description :=
       "Intelligent merge of " +:+ pretty (List.length validRoadmaps)
       +:+ " learning tracks";
     Preview.estimatedDuration := optimizedDuration;
     Preview.branches := uniqueBranches |}.

Definition statistics : Statistics.t :=
  {| Statistics.original_roadmaps := List.length validRoadmaps;
     Statistics.original_duration := totalDuration;
     Statistics.final_duration := optimizedDuration;
     Statistics.duration_saved := durationSaved;
     Statistics.original_branches := List.length allBranches;
     Statistics.final_branches := List.length uniqueBranches;
     Statistics.efficiency_gain :=
       JS.or_zero
         (JS.Math_round
            (JS.mul (JS.div durationSaved totalDuration) (JS.ofZ 100))) |}.

End MergePreview.

(** ** Dates

    A [Date] object is its time value: milliseconds since the epoch, UTC.
    The host fixes two things.  [now host] is the instant returned by the
    [new Date()] with which the scheduler starts; every round works on a
    copy of that date.  [LocalTZA host t isUTC] is the offset of local time
    in milliseconds, as in ECMAScript: at the UTC instant [t] when [isUTC]
    holds, at the local time [t] otherwise; it changes where the zone
    changes its clocks. *)

Record Host : Type := mkHost {
  now : Z;
  LocalTZA : Z -> bool -> Z
}.

Module Date.

Definition msPerDay : Z := 86400000.

(** Day number of a time value. *)
Definition Day (t : Z) : Z := t / msPerDay.

(** Week day of a day number: 0 is Sunday, 6 is Saturday; day 0 was a
    Thursday. *)
Definition WeekDay (day : Z) : Z := (day + 4) mod 7.

(** Local time of a UTC instant. *)
Definition LocalTime (host : Host) (t : Z) : Z := t + LocalTZA host t true.

(** UTC instant of a local time. *)
Definition UTC (host : Host) (t : Z) : Z := t - LocalTZA host t false.

(** [d.getDay()]: week day in the host's local time. *)
Definition getDay (host : Host) (d : Z) : Z := WeekDay (Day (LocalTime host d)).

(** [d.setDate(d.getDate() + n)]: the local date moves [n] days on, the local
    time of day stays, and the result is turned back into a UTC instant. *)
Definition setDate_plus (host : Host) (d : Z) (n : Z) : Z :=
  UTC host (LocalTime host d + n * msPerDay).

(** [d.toISOString().split("T")[0]]: the UTC calendar date of [d], as its
    day number. *)
Definition toISODate (d : Z) : Z := Day d.

End Date.

(** Whether a date key names a Saturday or a Sunday. *)
Definition is_weekend (dateKey : Z) : bool :=
  (Date.WeekDay dateKey =? 0) || (Date.WeekDay dateKey =? 6).

(** ** Auto scheduling *)

(** [{ ...video, branch_title }] *)
Module TaggedVideo.
Record t : Type := mk {
  id : string;
  title : string;
  duration : Z;
  isCore : bool;
  description : option string;
  branch_title : string
}.
End TaggedVideo.

Definition tagVideo (branch : RoadmapBranch.t) (video : VideoModule.t) : TaggedVideo.t :=
  {| TaggedVideo.id := VideoModule.id video;
     TaggedVideo.title := VideoModule.title video;
     TaggedVideo.duration := VideoModule.duration video;
     TaggedVideo.isCore := VideoModule.isCore video;
     TaggedVideo.description := VideoModule.description video;
     TaggedVideo.branch_title := RoadmapBranch.title branch |}.

(** [{ ...video, scheduled_time: "09:00" }] *)
Definition stampVideo (video : TaggedVideo.t) : CalendarEvent.t :=
  {| CalendarEvent.id := TaggedVideo.id video;
     CalendarEvent.title := TaggedVideo.title video;
     CalendarEvent.duration := TaggedVideo.duration video;
     CalendarEvent.isCore := TaggedVideo.isCore video;
     CalendarEvent.description := TaggedVideo.description video;
     CalendarEvent.branch_title := TaggedVideo.branch_title video;
     CalendarEvent.scheduled_time := "09:00" |}.

(** [calendar[dateStr] = dailyVideos]: an existing key keeps its place, a new
    key goes last. *)
Fixpoint calendar_set (calendar : Calendar) (dateStr : Z)
    (dailyVideos : list CalendarEvent.t) : Calendar :=
  match calendar with
  | [] => [(dateStr, dailyVideos)]
  | (k, v) :: rest =>
      if k =? dateStr then (k, dailyVideos) :: rest
      else (k, v) :: calendar_set rest dateStr dailyVideos
  end.

Definition Qlt_bool (x y : Q) : bool := negb (Qle_bool y x).

(** Get all videos from all branches. *)
Definition flattenVideos (roadmap : Preview.t) : list TaggedVideo.t :=
  flat_map (fun branch => List.map (tagVideo branch) (RoadmapBranch.videos branch))
           (Preview.branches roadmap).

Definition coreFirst (a b : TaggedVideo.t) : Z :=
  (if TaggedVideo.isCore b then 1 else 0) - (if TaggedVideo.isCore a then 1 else 0).

(** Sort core videos first. *)
Definition sortedVideos (roadmap : Preview.t) : list TaggedVideo.t :=
  JS.sort coreFirst (flattenVideos roadmap).

(** State of the inner loop; [broke] records that [break] was executed. *)
Record DayState : Type := mkDay {
  dailyVideos : list CalendarEvent.t;
  dailyDuration : Z;
  dayVideoIndex : nat;
  broke : bool
}.

(** State of the outer loop. *)
Record ScheduleState : Type := mkSchedule {
  calendar : Calendar;
  videoIndex : nat;
  dayOffset : Z
}.

Section AutoSchedule.

Variable host : Host.
Variable allVideos : list TaggedVideo.t.
Variable dailySeconds : Q.

Definition day_cond (s : DayState) : bool :=
  negb (broke s)
  && (dayVideoIndex s <? List.length allVideos)%nat
  && Qlt_bool (inject_Z (dailyDuration s)) dailySeconds.

Definition day_body (s : DayState) : DayState :=
  match nth_error allVideos (dayVideoIndex s) with
  | Some video =>
      if Qle_bool (inject_Z (dailyDuration s + TaggedVideo.duration video)) dailySeconds
      then {| dailyVideos := dailyVideos s ++ [stampVideo video];
              dailyDuration := dailyDuration s + TaggedVideo.duration video;
              dayVideoIndex := S (dayVideoIndex s);
              broke := false |}
      else {| dailyVideos := dailyVideos s;
              dailyDuration := dailyDuration s;
              dayVideoIndex := dayVideoIndex s;
              broke := true |}
  | None => s
  end.

(** The inner [while]: fill one day starting at [videoIndex]. *)
Definition fillDay (videoIndex : nat) : DayState :=
  JS.while (S (List.length allVideos)) day_cond day_body
    {| dailyVideos := []; dailyDuration := 0;
       dayVideoIndex := videoIndex; broke := false |}.

Definition schedule_cond (s : ScheduleState) : bool :=
  (videoIndex s <? List.length allVideos)%nat && (dayOffset s <? 30).

Definition schedule_body (s : ScheduleState) : ScheduleState :=
  let scheduleDate := Date.setDate_plus host (now host) (dayOffset s) in
  (* Skip weekends *)
  if (Date.getDay host scheduleDate =? 0) || (Date.getDay host scheduleDate =? 6)
  then {| calendar := calendar s;
          videoIndex := videoIndex s;
          dayOffset := dayOffset s + 1 |}
  else
    let dateStr := Date.toISODate scheduleDate in
    let day := fillDay (videoIndex s) in
    {| calendar :=
         if (0 <? List.length (dailyVideos day))%nat
         then calendar_set (calendar s) dateStr (dailyVideos day)
         else calendar s;
       videoIndex := dayVideoIndex day;
       dayOffset := dayOffset s + 1 |}.

(** The outer [while], from an empty calendar. *)
Definition scheduleLoop : ScheduleState :=
  JS.while 30 schedule_cond schedule_body
    {| calendar := []; videoIndex := O; dayOffset := 0 |}.

End AutoSchedule.

(** [dailyHours * 3600], as the multiplication computes it. *)
Definition dailySecondsOf (dailyHours : Q) : Q := JS.binary64 (dailyHours * 3600)%Q.

(** Final state of the loops of [generateAutoSchedule]. *)
Definition scheduleRun (host : Host) (roadmap : Preview.t) (dailyHours : Q) : ScheduleState :=
  scheduleLoop host (sortedVideos roadmap) (dailySecondsOf dailyHours).

(** Helper function for auto scheduling. *)
Definition generateAutoSchedule (host : Host) (roadmap : Preview.t) (dailyHours : Q) : Calendar :=
  calendar (scheduleRun host roadmap dailyHours).

(** ** In-memory storage *)

Record MemStorage : Type := mkStorage {
  roadmaps : gmap string Roadmap.t;
  mergedRoadmaps : gmap string MergedRoadmap.t
}.

Definition getRoadmap (storage : MemStorage) (id : string) : option Roadmap.t :=
  roadmaps storage !! id.

(** [createMergedRoadmap]: the id comes from the clock reading [time]
    ([Date.now()]), the creation time from a second reading, [createdAt]
    ([new Date()]). *)
Definition createMergedRoadmap (storage : MemStorage) (time createdAt : Z)
    (title description : string) (estimatedDuration : Z)
    (branches : list RoadmapBranch.t) (mergedFrom : list string)
    (calendar : option Calendar) (userId : string) : MemStorage * MergedRoadmap.t :=
  let roadmap :=
    {| MergedRoadmap.id := "merged_" +:+ pretty time;
       MergedRoadmap.title := title;
       MergedRoadmap.description := description;
       MergedRoadmap.estimatedDuration := estimatedDuration;
       MergedRoadmap.branches := branches;
       MergedRoadmap.mergedFrom := mergedFrom;
       MergedRoadmap.calendar := calendar;
       MergedRoadmap.userId := userId;
       MergedRoadmap.createdAt := createdAt |} in
  ({| roadmaps := roadmaps storage;
      mergedRoadmaps := <[MergedRoadmap.id roadmap := roadmap]> (mergedRoadmaps storage) |},
   roadmap).

(** ** Route handlers *)

(** What [c.json(body)] and [c.json(body, status)] answer. *)
Record Response (B : Type) : Type := mkResponse {
  status : Z;
  body : B
}.
Arguments mkResponse {B} _ _.
Arguments status {B} _.
Arguments body {B} _.

Definition json {B : Type} (b : B) : Response B := mkResponse 200 b.

(** A client error is a status in the 4xx range. *)
Definition is_client_error {B : Type} (r : Response B) : bool :=
  (400 <=? status r) && (status r <? 500).

(** [roadmaps.filter(Boolean)] *)
Fixpoint filter_Boolean {A : Type} (arr : list (option A)) : list A :=
  match arr with
  | [] => []
  | Some x :: rest => x :: filter_Boolean rest
  | None :: rest => filter_Boolean rest
  end.

Record PreviewBody : Type := mkPreviewBody {
  body_preview : Preview.t;
  body_statistics : Statistics.t
}.

(** [POST /api/v1/roadmap/merge/preview] *)
Definition previewHandler (storage : MemStorage) (roadmap_ids : list string)
    : Response PreviewBody :=
  let roadmaps := List.map (getRoadmap storage) roadmap_ids in
  let validRoadmaps := filter_Boolean roadmaps in
  json {| body_preview := preview validRoadmaps;
          body_statistics := statistics validRoadmaps |}.

(** Body of a merge request; [daily_study_hours] may be absent, and is the
    number as parsed from the request otherwise. *)
Record MergeRequest : Type := mkMergeRequest {
  roadmap_ids : list string;
  schedule_mode : string;
  calendar_view : bool;
  daily_study_hours : option Q
}.

Record MergeBody : Type := mkMergeBody {
  merged_roadmap : MergedRoadmap.t;
  source_count : nat;
  body_schedule_mode : string;
  calendar_enabled : bool
}.

(** [daily_study_hours || 1.0] *)
Definition hours_or_default (daily_study_hours : option Q) : Q :=
  match daily_study_hours with
  | Some h => if Qeq_bool h 0 then 1%Q else h
  | None => 1%Q
  end.

(** The budget [generateAutoSchedule] is called with, if it is called. *)
Definition schedulerArgument (req : MergeRequest) : option Q :=
  if String.eqb (schedule_mode req) "auto" && calendar_view req
  then Some (hours_or_default (daily_study_hours req))
  else None.

(** [POST /api/v1/roadmap/merge]; [time] and [createdAt] are the two clock
    readings taken when the merged roadmap is stored. *)
Definition mergeHandler (host : Host) (time createdAt : Z) (storage : MemStorage)
    (req : MergeRequest) : MemStorage * Response MergeBody :=
  (* Get preview data *)
  let previewResponse := previewHandler storage (roadmap_ids req) in
  let preview := body_preview (body previewResponse) in
  (* Generate calendar if requested *)
  let calendar :=
    match schedulerArgument req with
    | Some dailyHours => Some (generateAutoSchedule host preview dailyHours)
    | None => None
    end in
  (* Save merged roadmap *)
  let '(storage', mergedRoadmap) :=
    createMergedRoadmap storage time createdAt
      (Preview.title preview) (Preview.description preview)
      (Preview.estimatedDuration preview) (Preview.branches preview)
      (roadmap_ids req) calendar "demo_user" in
  (storage',
   json {| merged_roadmap := mergedRoadmap;
           source_count := List.length (roadmap_ids req);
           body_schedule_mode := schedule_mode req;
           calendar_enabled := calendar_view req |}).

(** ** Sample data *)

Module Sample.

Definition video (id : string) (duration : Z) (isCore : bool) : VideoModule.t :=
  {| VideoModule.id := id; VideoModule.title := id;
     VideoModule.duration := duration; VideoModule.isCore := isCore;
     VideoModule.description := None |}.

Definition branch (title : string) (estimatedDuration : Z)
    (videos : list VideoModule.t) : RoadmapBranch.t :=
  {| RoadmapBranch.id := title; RoadmapBranch.title := title;
     RoadmapBranch.description := None; RoadmapBranch.videos := videos;
     RoadmapBranch.estimatedDuration := estimatedDuration |}.

Definition roadmap (id : string) (estimatedDuration : Z)
    (branches : list RoadmapBranch.t) : Roadmap.t :=
  {| Roadmap.id := id; Roadmap.title := id; Roadmap.description := None;
     Roadmap.estimatedDuration := estimatedDuration;
     Roadmap.branches := branches; Roadmap.userId := "demo_user";
     Roadmap.createdAt := 0; Roadmap.updatedAt := 0 |}.

(** The two roadmaps of the worked merge scenario. *)
Definition R1 : Roadmap.t :=
  roadmap "R1" 3600
    [branch "Fundamentals" 3600 [video "v1" 1800 true; video "v2" 1800 false]].

Definition R2 : Roadmap.t :=
  roadmap "R2" 5400
    [branch "Fundamentals" 3600 [video "v3" 3600 true];
     branch "Advanced" 1800 [video "v4" 1800 false]].

(** Monday 2025-01-06, 10:00 UTC, on a host whose local time is UTC. *)
Definition mondayUTC : Host :=
  {| now := 20094 * 86400000 + 10 * 3600000; LocalTZA := fun _ _ => 0 |}.

(** Saturday 2025-01-04, 04:00 UTC, on a host five hours behind UTC: local
    time is Friday 2025-01-03, 23:00. *)
Definition fridayNightUTCminus5 : Host :=
  {| now := 20092 * 86400000 + 4 * 3600000;
     LocalTZA := fun _ _ => -5 * 3600000 |}.

(** Saturday 2025-01-04, 15:00 UTC, on the same zone: local time is 10:00 of
    the same day. *)
Definition saturdayMorningUTCminus5 : Host :=
  {| now := 20092 * 86400000 + 15 * 3600000;
     LocalTZA := fun _ _ => -5 * 3600000 |}.

(** The instant at which Cairo put its clocks forward in 2024: local
    midnight of Friday 04-26, which is Thursday 04-25, 22:00 UTC. *)
Definition cairoSpringForward : Z := 19838 * 86400000 + 22 * 3600000.

(** Thursday 2024-04-25, 00:30 UTC, on a host in Cairo: local time is 02:30,
    two hours ahead of UTC until the clocks go forward, three hours after.
    A local time inside the skipped hour is read with the earlier offset. *)
Definition cairoSpring : Host :=
  {| now := 19838 * 86400000 + 1800000;
     LocalTZA := fun t isUTC =>
       if isUTC
       then (if t <? cairoSpringForward then 2 * 3600000 else 3 * 3600000)
       else (if t <? cairoSpringForward + 3 * 3600000
             then 2 * 3600000 else 3 * 3600000) |}.

(** A roadmap whose own estimate differs from the sum of its branches'. *)
Definition drifted : Roadmap.t :=
  roadmap "D" 100 [branch "Basics" 60 [video "d1" 60 true]].

(** A roadmap with a zero estimate and a branch that has one. *)
Definition zeroEstimate : Roadmap.t :=
  roadmap "Z" 0 [branch "Basics" 60 [video "z1" 60 true]].

(** A roadmap sharing no branch title with [R1]. *)
Definition R3 : Roadmap.t :=
  roadmap "R3" 1800 [branch "Advanced" 1800 [video "v4" 1800 false]].

Definition threeCoreVideos : Preview.t :=
  {| Preview.id := "preview"; Preview.title := "Merged: A"; Preview.description := "";
     Preview.estimatedDuration := 5400;
     Preview.branches :=
       [branch "A" 5400 [video "a1" 1800 true; video "a2" 1800 true; video "a3" 1800 true]] |}.

(** A branch in which core and other videos alternate. *)
Definition mixedVideos : Preview.t :=
  {| Preview.id := "preview"; Preview.title := "Merged: M"; Preview.description := "";
     Preview.estimatedDuration := 2400;
     Preview.branches :=
       [branch "M" 2400
          [video "m1" 600 false; video "m2" 600 true;
           video "m3" 600 false; video "m4" 600 true]] |}.

(** Two branches whose core and other videos interleave. *)
Definition twoBranches : Preview.t :=
  {| Preview.id := "preview"; Preview.title := "Merged: X + Y"; Preview.description := "";
     Preview.estimatedDuration := 2400;
     Preview.branches :=
       [branch "X" 1200 [video "x1" 600 false; video "x2" 600 true];
        branch "Y" 1200 [video "y1" 600 true; video "y2" 600 false]] |}.

(** Forty-five videos of one hour each. *)
Definition longCourse : Preview.t :=
  {| Preview.id := "preview"; Preview.title := "Merged: L"; Preview.description := "";
     Preview.estimatedDuration := 162000;
     Preview.branches :=
       [branch "L" 162000
          (List.map (fun i => video ("u" +:+ pretty i) 3600 true) (seq 1 45))] |}.

(** A two-hour video between two short ones. *)
Definition blockedCourse : Preview.t :=
  {| Preview.id := "preview"; Preview.title := "Merged: B"; Preview.description := "";
     Preview.estimatedDuration := 9600;
     Preview.branches :=
       [branch "B" 9600
          [video "b1" 1800 true; video "b2" 7200 true; video "b3" 600 true]] |}.

(** A video with a negative duration in front of one longer than an hour. *)
Definition negativeDuration : Preview.t :=
  {| Preview.id := "preview"; Preview.title := "Merged: N"; Preview.description := "";
     Preview.estimatedDuration := 3500;
     Preview.branches :=
       [branch "N" 3500
          [video "n1" (-1000) true; video "n2" 4000 true; video "n3" 500 true]] |}.

(** The number written [0.3333333333333333]. *)
Definition oneThird : Q := JS.binary64 (3333333333333333 # 10000000000000000).

(** A store holding [R1] only. *)
Definition storage : MemStorage :=
  {| roadmaps := {[ "R1" := R1 ]}; mergedRoadmaps := ∅ |}.

(** A merge request naming [R1] and an unknown roadmap, asking for an
    automatic calendar with a negative number of daily study hours. *)
Definition negativeHours : MergeRequest :=
  {| roadmap_ids := ["R1"; "missing"];
     schedule_mode := "auto";
     calendar_view := true;
     daily_study_hours := Some (-1)%Q |}.

End Sample.

(** ** Specification-side definitions *)

Definition sumZ (l : list Z) : Z := fold_right Z.add 0 l.

(** Sum of the branch estimates of a branch list. *)
Definition branchDurations (bs : list RoadmapBranch.t) : Z :=
  sumZ (List.map RoadmapBranch.estimatedDuration bs).

(** Title-dedupe as the specification words it: scan the list once and keep
    a branch exactly when its title has not been seen yet. *)
Fixpoint keepFirstByTitle (seen : list string) (bs : list RoadmapBranch.t)
    : list RoadmapBranch.t :=
  match bs with
  | [] => []
  | b :: rest =>
      if existsb (String.eqb (RoadmapBranch.title b)) seen
      then keepFirstByTitle seen rest
      else b :: keepFirstByTitle (RoadmapBranch.title b :: seen) rest
  end.

(** The test [b.title === branch.title] of the deduplication. *)
Definition sameTitle (branch b : RoadmapBranch.t) : bool :=
  String.eqb (RoadmapBranch.title b) (RoadmapBranch.title branch).

(** A roadmap whose own estimate is the sum of its branches' estimates. *)
Definition estimate_consistent (r : Roadmap.t) : Prop :=
  Roadmap.estimatedDuration r = branchDurations (Roadmap.branches r).

(** Total duration of the events of one calendar day. *)
Definition eventsDuration (evs : list CalendarEvent.t) : Z :=
  sumZ (List.map CalendarEvent.duration evs).

Definition videosDuration (vs : list TaggedVideo.t) : Z :=
  sumZ (List.map TaggedVideo.duration vs).

(** All events of a calendar, day after day. *)
Definition calendarEvents (cal : Calendar) : list CalendarEvent.t :=
  flat_map snd cal.

(** *** The days the scheduler walks *)

(** The date object of the round with day offset [dayOffset], after its
    [setDate]. *)
Definition scheduleDateAt (host : Host) (dayOffset : Z) : Z :=
  Date.setDate_plus host (now host) dayOffset.

(** The date key of that round: the UTC date of its date object. *)
Definition dateKey (host : Host) (dayOffset : Z) : Z :=
  Date.toISODate (scheduleDateAt host dayOffset).

(** The local date of that round, on which the weekend test is made. *)
Definition localDay (host : Host) (dayOffset : Z) : Z :=
  Date.Day (Date.LocalTime host (scheduleDateAt host dayOffset)).

(** Whether that round is skipped as a weekend. *)
Definition skipped (host : Host) (dayOffset : Z) : bool :=
  (Date.getDay host (scheduleDateAt host dayOffset) =? 0)
  || (Date.getDay host (scheduleDateAt host dayOffset) =? 6).

(** The date keys of the eligible days among the [n] day offsets from
    [dayOffset] on, in the order of the walk. *)
Fixpoint eligibleDaysFrom (host : Host) (dayOffset : Z) (n : nat) : list Z :=
  match n with
  | O => []
  | S n' =>
      if skipped host dayOffset then eligibleDaysFrom host (dayOffset + 1) n'
      else dateKey host dayOffset :: eligibleDaysFrom host (dayOffset + 1) n'
  end.

(** The eligible days of a run: those among day offsets 0 to 29. *)
Definition eligibleDays (host : Host) : list Z := eligibleDaysFrom host 0 30.

(** The day offsets a run can visit. *)
Definition dayOffsets : list Z := List.map Z.of_nat (seq 0 30).

(** The date key grows from each round to the next. *)
Definition keysAdvance (host : Host) : bool :=
  forallb (fun j => dateKey host j <? dateKey host (j + 1)) dayOffsets.

(** The date key never goes back from a round to the next. *)
Definition keysNeverGoBack (host : Host) : bool :=
  forallb (fun j => dateKey host j <=? dateKey host (j + 1)) dayOffsets.

(** In every round the date key is the local date. *)
Definition keysAreLocalDates (host : Host) : bool :=
  forallb (fun j => dateKey host j =? localDay host j) dayOffsets.

(** The local date of round [j] is [j] days after that of round 0. *)
Definition localDaysAdvance (host : Host) : bool :=
  forallb (fun j => localDay host j =? localDay host 0 + j) dayOffsets.

(** *** Greedy packing, as the specification words it *)

(** The rule of the specification: from the front of [videos], a video is
    added to a day that already holds [accumulated] seconds while the
    accumulated duration plus the video's duration is at most the budget. *)
Fixpoint takeWhileWithinBudget (budget : Q) (accumulated : Z)
    (videos : list TaggedVideo.t) : list TaggedVideo.t :=
  match videos with
  | [] => []
  | v :: rest =>
      if Qle_bool (inject_Z (accumulated + TaggedVideo.duration v)) budget
      then v :: takeWhileWithinBudget budget (accumulated + TaggedVideo.duration v) rest
      else []
  end.


(** Pack [videos] into the days named by [days], one day after the other:
    each day takes the run [take] selects from the videos that are left,
    and the video after the run is the first one offered to the next day.
    A day that takes nothing does not appear in the calendar. *)
Fixpoint packDaysWith (take : list TaggedVideo.t -> list TaggedVideo.t)
    (days : list Z) (videos : list TaggedVideo.t) (cal : Calendar) : Calendar :=
  match days with
  | [] => cal
  | day :: later =>
      match videos with
      | [] => cal
      | _ :: _ =>
          let taken := take videos in
          packDaysWith take later (skipn (List.length taken) videos)
            (match taken with
             | [] => cal
             | _ :: _ => calendar_set cal day (List.map stampVideo taken)
             end)
      end
  end.

(** Greedy packing in the specification's words. *)
Definition greedyPack (budget : Q) : list Z -> list TaggedVideo.t -> Calendar -> Calendar :=
  packDaysWith (takeWhileWithinBudget budget 0).


(** Strictly increasing numbers. *)
Definition increasing (l : list Z) : Prop :=
  forall (i j : nat) (a b : Z),
    nth_error l i = Some a -> nth_error l j = Some b -> (i < j)%nat -> a < b.

(** *** Loop invariants of the scheduler *)

Section ScheduleInvariants.

Variable host : Host.
Variable allVideos : list TaggedVideo.t.
Variable dailySeconds : Q.

(** A day holding [evs] is full with respect to the video that follows: the
    video would overflow the budget, or the budget is already used up. *)
Definition day_full (evs : list CalendarEvent.t) (next : option TaggedVideo.t) : Prop :=
  match next with
  | None => True
  | Some v =>
      ~ (inject_Z (eventsDuration evs + TaggedVideo.duration v) <= dailySeconds)%Q
      \/ ~ (inject_Z (eventsDuration evs) < dailySeconds)%Q
  end.

(** The events [evs] of a day are a run of consecutive videos, all at
    positions below [videoIndex], each video whole, and the day was filled
    until the video after the run did not fit any more. *)
Definition day_run (videoIndex : nat) (evs : list CalendarEvent.t) : Prop :=
  exists start n : nat,
    (start + n <= videoIndex)%nat
    /\ evs = List.map stampVideo (firstn n (skipn start allVideos))
    /\ day_full evs (nth_error allVideos (start + n)).

(** Invariant of the inner loop started at index [start]. *)
Definition DayInv (start : nat) (s : DayState) : Prop :=
  exists taken : list TaggedVideo.t,
    firstn (dayVideoIndex s) allVideos = firstn start allVideos ++ taken
    /\ dayVideoIndex s = (start + List.length taken)%nat
    /\ (dayVideoIndex s <= List.length allVideos)%nat
    /\ dailyVideos s = List.map stampVideo taken
    /\ dailyDuration s = videosDuration taken
    /\ (taken = [] \/ (inject_Z (dailyDuration s) <= dailySeconds)%Q)
    /\ (broke s = true ->
        exists v, nth_error allVideos (dayVideoIndex s) = Some v
                  /\ ~ (inject_Z (dailyDuration s + TaggedVideo.duration v)
                        <= dailySeconds)%Q).

(** What is known of a calendar day once [dayOffset] rounds were made and
    the scheduler stands at [videoIndex]: it is not empty, it is within
    budget, it is a full run of videos, and its key is the date key of an
    earlier round that was not skipped. *)
Definition day_ok (dayOffset : Z) (videoIndex : nat) (day : Z * list CalendarEvent.t)
    : Prop :=
  snd day <> []
  /\ (inject_Z (eventsDuration (snd day)) <= dailySeconds)%Q
  /\ day_run videoIndex (snd day)
  /\ exists j : Z,
       0 <= j < dayOffset
       /\ fst day = dateKey host j
       /\ skipped host j = false.

(** Invariant of the outer loop. *)
Definition ScheduleInv (s : ScheduleState) : Prop :=
  0 <= dayOffset s <= 30
  /\ (videoIndex s <= List.length allVideos)%nat
  /\ Forall (day_ok (dayOffset s) (videoIndex s)) (calendar s)
  /\ List.NoDup (List.map fst (calendar s))
  /\ Z.of_nat (List.length (calendar s)) <= dayOffset s
  /\ (List.length (calendarEvents (calendar s)) <= videoIndex s)%nat.

End ScheduleInvariants.

(** ** More of the storage class *)

Definition getMergedRoadmap (storage : MemStorage) (id : string)
    : option MergedRoadmap.t :=
  mergedRoadmaps storage !! id.

(** [createRoadmap]: the id comes from the clock reading [time]
    ([Date.now()]); each of the two timestamps is a reading of its own
    ([new Date()]). *)
Definition createRoadmap (storage : MemStorage) (time createdAt updatedAt : Z)
    (title : string) (description : option string) (estimatedDuration : Z)
    (branches : list RoadmapBranch.t) (userId : string) : MemStorage * Roadmap.t :=
  let roadmap :=
    {| Roadmap.id := "roadmap_" +:+ pretty time;
       Roadmap.title := title;
       Roadmap.description := description;
       Roadmap.estimatedDuration := estimatedDuration;
       Roadmap.branches := branches;
       Roadmap.userId := userId;
       Roadmap.createdAt := createdAt;
       Roadmap.updatedAt := updatedAt |} in
  ({| roadmaps := <[Roadmap.id roadmap := roadmap]> (roadmaps storage);
      mergedRoadmaps := mergedRoadmaps storage |},
   roadmap).

(** [getUserRoadmaps]: the stored roadmaps of one user.  A [gmap] does not
    record insertion order, so the list comes in the map's own order and not
    in the order of a JavaScript [Map]; only facts that do not depend on the
    order are stated about it. *)
Definition getUserRoadmaps (storage : MemStorage) (userId : string) : list Roadmap.t :=
  List.filter (fun r => String.eqb (Roadmap.userId r) userId)
    (List.map snd (map_to_list (roadmaps storage))).

(** ** More of the routes *)

(** The sample branches written by [POST /api/v1/roadmap/generate]. *)
Definition generatedBranches : list RoadmapBranch.t :=
  [ {| RoadmapBranch.id := "branch_1";
       RoadmapBranch.title := "Fundamentals";
       RoadmapBranch.description := Some "Core concepts and basics";
       RoadmapBranch.videos :=
         [ {| VideoModule.id := "video_1"; VideoModule.title := "Introduction";
              VideoModule.duration := 900; VideoModule.isCore := true;
              VideoModule.description := Some "Getting started basics" |};
           {| VideoModule.id := "video_2"; VideoModule.title := "Core Concepts";
              VideoModule.duration := 1200; VideoModule.isCore := true;
              VideoModule.description := Some "Essential principles" |} ];
       RoadmapBranch.estimatedDuration := 3600 |};
    {| RoadmapBranch.id := "branch_2";
       RoadmapBranch.title := "Advanced Topics";
       RoadmapBranch.description := Some "Deep dive into advanced areas";
       RoadmapBranch.videos :=
         [ {| VideoModule.id := "video_3"; VideoModule.title := "Advanced Techniques";
              VideoModule.duration := 1800; VideoModule.isCore := false;
              VideoModule.description := Some "Professional level skills" |} ];
       RoadmapBranch.estimatedDuration := 3600 |} ].

Record GenerateBody : Type := mkGenerateBody {
  generated_roadmap : Roadmap.t;
  generate_status : string;
  generate_message : string
}.

(** [POST /api/v1/roadmap/generate]; [time], [createdAt] and [updatedAt] are
    the clock readings taken when the roadmap is stored. *)
Definition generateHandler (time createdAt updatedAt : Z) (storage : MemStorage)
    (user_input : string) : MemStorage * Response GenerateBody :=
  let '(storage', roadmap) :=
    createRoadmap storage time createdAt updatedAt
      ("Learning Path: " +:+ user_input)
      (Some ("AI-generated roadmap for " +:+ user_input))
      7200 generatedBranches "demo_user" in
  (storage',
   json {| generated_roadmap := roadmap;
           generate_status := "success";
           generate_message := "Roadmap generated successfully" |}).

(** An entry of the list answered by [GET /api/v1/roadmap/mergeable]. *)
Record MergeableRoadmap : Type := mkMergeable {
  mergeable_id : string;
  mergeable_title : string;
  mergeable_description : string;
  mergeable_estimatedDuration : Z;
  branchCount : nat
}.

(** [r.description || ""] *)
Definition description_or_empty (description : option string) : string :=
  match description with
  | Some d => d
  | None => ""
  end.

Definition mergeableSummary (r : Roadmap.t) : MergeableRoadmap :=
  {| mergeable_id := Roadmap.id r;
     mergeable_title := Roadmap.title r;
     mergeable_description := description_or_empty (Roadmap.description r);
     mergeable_estimatedDuration := Roadmap.estimatedDuration r;
     branchCount := List.length (Roadmap.branches r) |}.

(** [GET /api/v1/roadmap/mergeable] *)
Definition mergeableHandler (storage : MemStorage) : Response (list MergeableRoadmap) :=
  json (List.map mergeableSummary (getUserRoadmaps storage "demo_user")).

(** [GET /api/v1/roadmap/my-roadmaps] *)
Definition myRoadmapsHandler (storage : MemStorage) : Response (list Roadmap.t) :=
  json (getUserRoadmaps storage "demo_user").

(** Strictly increasing date keys. *)
Definition keys_increasing (cal : Calendar) : Prop :=
  forall (i j : nat) (a b : Z * list CalendarEvent.t),
    nth_error cal i = Some a -> nth_error cal j = Some b ->
    (i < j)%nat -> fst a < fst b.

(** The days among the first [n] after local day [start] on which the
    scheduler does not skip: neither Sunday nor Saturday. *)
Fixpoint workingDays (start : Z) (n : nat) : nat :=
  match n with
  | O => O
  | S n' =>
      if (Date.WeekDay start =? 0) || (Date.WeekDay start =? 6)
      then workingDays (start + 1) n'
      else S (workingDays (start + 1) n')
  end.

(** ** External roadmap search *)

Module ExternalStep.
Record t : Type := mk {
  title : string;
  description : string;
  type : string;
  estimated_time : Z
}.
End ExternalStep.

Module ExternalRoadmap.
Record t : Type := mk {
  id : string;
  title : string;
  description : string;
  source : string;
  source_url : string;
  topics : list string;
  difficulty : string;
  estimated_duration : Z;
  steps : list ExternalStep.t
}.
End ExternalRoadmap.

(** The catalogue searched by [GET /api/v1/external-roadmaps/search]. *)
Definition externalCatalogue : list ExternalRoadmap.t :=
  [ {| ExternalRoadmap.id := "roadmapsh_frontend";
       ExternalRoadmap.title := "Frontend Developer Roadmap";
       ExternalRoadmap.description :=
         "Step-by-step guide to becoming a modern frontend developer";
       ExternalRoadmap.source := "Roadmap.sh";
       ExternalRoadmap.source_url := "https://roadmap.sh/frontend";
       ExternalRoadmap.topics := ["html"; "css"; "javascript"; "react"; "vue"];
       ExternalRoadmap.difficulty := "Beginner to Advanced";
       ExternalRoadmap.estimated_duration := 500;
       ExternalRoadmap.steps :=
         [ {| ExternalStep.title := "Learn HTML";
              ExternalStep.description := "Semantic HTML and accessibility";
              ExternalStep.type := "learning";
              ExternalStep.estimated_time := 40 |};
           {| ExternalStep.title := "Learn CSS";
              ExternalStep.description := "Styling, layouts, and responsive design";
              ExternalStep.type := "learning";
              ExternalStep.estimated_time := 60 |};
           {| ExternalStep.title := "Learn JavaScript";
              ExternalStep.description := "Programming fundamentals and DOM manipulation";
              ExternalStep.type := "learning";
              ExternalStep.estimated_time := 120 |} ] |};
    {| ExternalRoadmap.id := "fcc_javascript";
       ExternalRoadmap.title := "FreeCodeCamp: JavaScript Algorithms and Data Structures";
       ExternalRoadmap.description :=
         "Learn JavaScript fundamentals and algorithmic thinking";
       ExternalRoadmap.source := "FreeCodeCamp";
       ExternalRoadmap.source_url := "https://www.freecodecamp.org/learn/javascript";
       ExternalRoadmap.topics := ["javascript"; "algorithms"; "data-structures"];
       ExternalRoadmap.difficulty := "Beginner";
       ExternalRoadmap.estimated_duration := 600;
       ExternalRoadmap.steps :=
         [ {| ExternalStep.title := "Basic JavaScript";
              ExternalStep.description := "Variables, functions, and control flow";
              ExternalStep.type := "interactive";
              ExternalStep.estimated_time := 180 |};
           {| ExternalStep.title := "ES6";
              ExternalStep.description := "Modern JavaScript features";
              ExternalStep.type := "interactive";
              ExternalStep.estimated_time := 120 |} ] |} ].

Definition defaultSources : list string :=
  ["github_awesome"; "roadmap_sh"; "freecodecamp"].

(** [s.includes(sub)] *)
Fixpoint includes (s sub : string) : bool :=
  String.prefix sub s
  || match s with
     | EmptyString => false
     | String _ rest => includes rest sub
     end.

Definition comma : Ascii.ascii := Ascii.ascii_of_nat 44.

(** [s.split(",")] *)
Fixpoint split_comma (s : string) : list string :=
  match s with
  | EmptyString => [EmptyString]
  | String c rest =>
      if Ascii.eqb c comma then EmptyString :: split_comma rest
      else match split_comma rest with
           | [] => [String c EmptyString]
           | segment :: segments => String c segment :: segments
           end
  end.

(** [arr.slice(0, end)]: a negative [end] counts from the end of the array. *)
Definition slice0 {A : Type} (arr : list A) (end_ : Z) : list A :=
  if end_ <? 0
  then firstn (Z.to_nat (Z.of_nat (List.length arr) + end_)) arr
  else firstn (Z.to_nat end_) arr.

Record SearchResult : Type := mkSearchResult {
  result_roadmaps : list ExternalRoadmap.t;
  result_query : string;
  sources_searched : list string;
  total_found : nat;
  result_status : string
}.

(** Body of a search answer: an error message or a result. *)
Inductive SearchBody : Type :=
| SearchError (error : string)
| SearchOk (data : SearchResult).

Section ExternalSearch.

(** [String.prototype.toLowerCase], a built-in of the host. *)
Variable toLowerCase : string -> string.

Definition searchMatches (query : string) (roadmap : ExternalRoadmap.t) : bool :=
  includes (toLowerCase (ExternalRoadmap.title roadmap)) (toLowerCase query)
  || existsb (fun topic => includes (toLowerCase topic) (toLowerCase query))
       (ExternalRoadmap.topics roadmap).

(** [GET /api/v1/external-roadmaps/search]; an absent query parameter is
    [None]. *)
Definition searchGetHandler (query sources : option string) : Response SearchBody :=
  match query with
  | None | Some EmptyString =>
      mkResponse 400 (SearchError "Query parameter is required")
  | Some query =>
      (* Simulate external roadmap search results *)
      let sampleRoadmaps := List.filter (searchMatches query) externalCatalogue in
      json (SearchOk
              {| result_roadmaps := sampleRoadmaps;
                 result_query := query;
                 sources_searched :=
                   match sources with
                   | None | Some EmptyString => defaultSources
                   | Some sources => split_comma sources
                   end;
                 total_found := List.length sampleRoadmaps;
                 result_status := "success" |})
  end.

(** [POST /api/v1/external-roadmaps/search]; the query reaches the inner
    [GET] unchanged through [encodeURIComponent] and the query-string
    decoding. *)
Definition searchPostHandler (query sources : option string) (limit : option Z)
    : Response SearchBody :=
  match query with
  | None | Some EmptyString => mkResponse 400 (SearchError "Query is required")
  | Some query =>
      (* Reuse the GET logic *)
      let searchResult := searchGetHandler (Some query) None in
      let data := body searchResult in
      (* Apply limit if specified *)
      json match limit, data with
           | Some limit, SearchOk data =>
               if limit =? 0 then SearchOk data
               else SearchOk
                      {| result_roadmaps := slice0 (result_roadmaps data) limit;
                         result_query := result_query data;
                         sources_searched := sources_searched data;
                         total_found := total_found data;
                         result_status := result_status data |}
           | _, _ => data
           end
  end.

End ExternalSearch.

(** * Proofs *)

(** ** Rounding to binary64 *)

Lemma pow2_pos (p : Z) : (0 < 2 ^ p)%Q.
Proof. apply Qpower_0_lt. reflexivity. Qed.

Lemma round_half_even_floor (x : Q) :
  Qfloor x <= JS.round_half_even x <= Qfloor x + 1.
Proof.
  unfold JS.round_half_even.
  destruct (Qcompare _ _); [destruct (Z.even _)| |]; lia.
Qed.

(** Rounding does not step over an integer. *)
Lemma round_half_even_le (x : Q) (N : Z) :
  (x <= inject_Z N)%Q -> JS.round_half_even x <= N.
Proof.
  intros Hx.
  pose proof (Qfloor_resp_le _ _ Hx) as Hf. rewrite Qfloor_Z in Hf.
  destruct (Z.eq_dec (Qfloor x) N) as [Heq|Hne].
  - unfold JS.round_half_even.
    pose proof (Qfloor_le x) as Hle. rewrite Heq in *.
    destruct (Qcompare_spec (x - inject_Z N) (1 # 2)) as [H|H|H]; try lra; lia.
  - pose proof (round_half_even_floor x). lia.
Qed.

Lemma ilog2_le (q : Q) : (0 < q)%Q -> (2 ^ JS.ilog2 q <= q)%Q.
Proof.
  intros Hq. unfold JS.ilog2.
  set (n := Qnum q). set (d := Z.pos (Qden q)).
  destruct (Qle_bool (2 ^ (Z.log2 n - Z.log2 d)) q) eqn:E.
  - apply Qle_bool_iff, E.
  - assert (Hn : 0 < n).
    { unfold n. destruct q as [qn qd]. unfold Qlt in Hq. simpl in *. lia. }
    assert (Hd : 0 < d) by (unfold d; lia).
    pose proof (Z.log2_spec n Hn) as [Hn1 _].
    pose proof (Z.log2_spec d Hd) as [_ Hd2].
    pose proof (Z.log2_nonneg n). pose proof (Z.log2_nonneg d).
    replace (Z.log2 n - Z.log2 d - 1) with (Z.log2 n - (Z.log2 d + 1)) by lia.
    rewrite Qpower_minus by discriminate.
    change 2%Q with (inject_Z 2).
    rewrite <- !Zpower_Qpower by lia.
    assert (Hq' : (q == inject_Z n / inject_Z d)%Q).
    { destruct q as [qn qd]. apply Qmake_Qdiv. }
    rewrite Hq'.
    assert (Hd' : (0 < inject_Z d)%Q).
    { change 0%Q with (inject_Z 0). rewrite <- Zlt_Qlt. exact Hd. }
    assert (Hp' : (0 < inject_Z (2 ^ (Z.log2 d + 1)))%Q).
    { change 0%Q with (inject_Z 0). rewrite <- Zlt_Qlt. apply Z.pow_pos_nonneg; lia. }
    apply Qle_shift_div_l; [exact Hd'|].
    unfold Qdiv. rewrite <- Qmult_assoc, (Qmult_comm (/ _)), Qmult_assoc.
    apply Qle_shift_div_r; [exact Hp'|].
    rewrite <- !inject_Z_mult, <- Zle_Qle.
    replace (Z.succ (Z.log2 d)) with (Z.log2 d + 1) in Hd2 by lia.
    nia.
Qed.

Lemma binary64_pos_nonneg (q : Q) : (0 <= q)%Q -> (0 <= JS.binary64_pos q)%Q.
Proof.
  intros Hq. unfold JS.binary64_pos.
  set (p := Z.max (JS.ilog2 q - 52) (-1074)).
  pose proof (pow2_pos p) as Hp.
  assert (Hx : (0 <= q / 2 ^ p)%Q).
  { apply Qle_shift_div_l; [exact Hp|]. lra. }
  pose proof (Qfloor_resp_le _ _ Hx) as Hf. change (Qfloor 0) with 0 in Hf.
  pose proof (round_half_even_floor (q / 2 ^ p)) as Hr.
  apply Qmult_le_0_compat; [|lra].
  change 0%Q with (inject_Z 0). rewrite <- Zle_Qle. lia.
Qed.

(** Rounding keeps the sign. *)
Lemma binary64_nonneg (q : Q) : (0 <= q)%Q -> (0 <= JS.binary64 q)%Q.
Proof.
  intros Hq. unfold JS.binary64.
  pose proof (Qred_correct q) as Hr.
  destruct (Qcompare_spec (Qred q) 0) as [H|H|H]; try lra.
  apply binary64_pos_nonneg. lra.
Qed.

Lemma binary64_nonpos (q : Q) : (q <= 0)%Q -> (JS.binary64 q <= 0)%Q.
Proof.
  intros Hq. unfold JS.binary64.
  pose proof (Qred_correct q) as Hr.
  destruct (Qcompare_spec (Qred q) 0) as [H|H|H]; try lra.
  pose proof (binary64_pos_nonneg (- Qred q)) as Hp. lra.
Qed.

(** Rounding sees the number, not the fraction that stands for it. *)
Lemma binary64_Qeq (q q' : Q) : (q == q')%Q -> JS.binary64 q = JS.binary64 q'.
Proof. intros H. unfold JS.binary64. rewrite (Qred_complete _ _ H). reflexivity. Qed.

Lemma binary64_pos_le_Z (q : Q) (c : Z) :
  (0 < q)%Q -> (q <= inject_Z c)%Q -> c < 2 ^ 53 ->
  (JS.binary64_pos q <= inject_Z c)%Q.
Proof.
  intros Hq Hc Hc53. unfold JS.binary64_pos.
  set (p := Z.max (JS.ilog2 q - 52) (-1074)).
  assert (He : JS.ilog2 q < 53).
  { apply (Qpower_lt_compat_l_inv 2); [|reflexivity].
    apply (Qle_lt_trans _ q); [apply ilog2_le, Hq|].
    apply (Qle_lt_trans _ (inject_Z c)); [exact Hc|].
    change 2%Q with (inject_Z 2). rewrite <- Zpower_Qpower by lia.
    rewrite <- Zlt_Qlt. exact Hc53. }
  assert (Hp0 : p <= 0) by (unfold p; lia).
  pose proof (pow2_pos p) as Hp.
  assert (Hinv : (inject_Z (2 ^ (- p)) * 2 ^ p == 1)%Q).
  { rewrite Zpower_Qpower by lia. change (inject_Z 2) with 2%Q.
    rewrite <- Qpower_plus by discriminate.
    replace (- p + p) with 0 by lia. reflexivity. }
  assert (Hx : (q / 2 ^ p <= inject_Z (c * 2 ^ (- p)))%Q).
  { apply Qle_shift_div_r; [exact Hp|].
    rewrite inject_Z_mult, <- Qmult_assoc, Hinv. lra. }
  pose proof (round_half_even_le _ _ Hx) as Hr.
  apply (Qle_trans _ (inject_Z (c * 2 ^ (- p)) * 2 ^ p)).
  - apply Qmult_le_compat_r; [|lra]. rewrite <- Zle_Qle. exact Hr.
  - rewrite inject_Z_mult, <- Qmult_assoc, Hinv. lra.
Qed.

(** Rounding does not step over an integer below 2^53: such an integer is
    a binary64 number itself. *)
Lemma binary64_le_Z (q : Q) (c : Z) :
  (0 <= q)%Q -> (q <= inject_Z c)%Q -> c < 2 ^ 53 ->
  (JS.binary64 q <= inject_Z c)%Q.
Proof.
  intros Hq Hc Hc53. unfold JS.binary64.
  pose proof (Qred_correct q) as Hr.
  destruct (Qcompare_spec (Qred q) 0) as [H|H|H]; try lra.
  apply binary64_pos_le_Z; [exact H | lra | exact Hc53].
Qed.

(** Rounding moves a number by half a unit at most. *)
Lemma round_half_even_near (x : Q) :
  (x - (1 # 2) <= inject_Z (JS.round_half_even x) <= x + (1 # 2))%Q.
Proof.
  unfold JS.round_half_even.
  pose proof (Qfloor_le x) as Hlo. pose proof (Qlt_floor x) as Hhi.
  rewrite inject_Z_plus in Hhi. change (inject_Z 1) with 1%Q in Hhi.
  destruct (Qcompare_spec (x - inject_Z (Qfloor x)) (1 # 2)) as [H|H|H].
  - destruct (Z.even (Qfloor x)).
    + lra.
    + rewrite inject_Z_plus. change (inject_Z 1) with 1%Q. lra.
  - lra.
  - rewrite inject_Z_plus. change (inject_Z 1) with 1%Q. lra.
Qed.



Lemma ilog2_lt (q : Q) : (0 < q)%Q -> (q < 2 ^ (JS.ilog2 q + 1))%Q.
Proof.
  intros Hq. unfold JS.ilog2.
  set (n := Qnum q). set (d := Z.pos (Qden q)).
  destruct (Qle_bool (2 ^ (Z.log2 n - Z.log2 d)) q) eqn:E.
  - assert (Hn : 0 < n).
    { unfold n. destruct q as [qn qd]. unfold Qlt in Hq. simpl in *. lia. }
    assert (Hd : 0 < d) by (unfold d; lia).
    pose proof (Z.log2_spec n Hn) as [_ Hn2].
    pose proof (Z.log2_spec d Hd) as [Hd1 _].
    pose proof (Z.log2_nonneg n). pose proof (Z.log2_nonneg d).
    replace (Z.log2 n - Z.log2 d + 1) with (Z.log2 n + 1 - Z.log2 d) by lia.
    rewrite Qpower_minus by discriminate.
    change 2%Q with (inject_Z 2).
    rewrite <- !Zpower_Qpower by lia.
    assert (Hq' : (q == inject_Z n / inject_Z d)%Q).
    { destruct q as [qn qd]. apply Qmake_Qdiv. }
    rewrite Hq'.
    assert (Hd' : (0 < inject_Z d)%Q).
    { change 0%Q with (inject_Z 0). rewrite <- Zlt_Qlt. exact Hd. }
    assert (Hp' : (0 < inject_Z (2 ^ Z.log2 d))%Q).
    { change 0%Q with (inject_Z 0). rewrite <- Zlt_Qlt. apply Z.pow_pos_nonneg; lia. }
    apply Qlt_shift_div_r; [exact Hd'|].
    unfold Qdiv. rewrite <- Qmult_assoc, (Qmult_comm (/ _)), Qmult_assoc.
    apply Qlt_shift_div_l; [exact Hp'|].
    rewrite <- !inject_Z_mult, <- Zlt_Qlt.
    replace (Z.succ (Z.log2 n)) with (Z.log2 n + 1) in Hn2 by lia.
    nia.
  - replace (Z.log2 n - Z.log2 d - 1 + 1) with (Z.log2 n - Z.log2 d) by lia.
    apply Qnot_le_lt. intros H. apply Qle_bool_iff in H. congruence.
Qed.

(** What rounding to binary64 does to a positive number [q]: the result is
    a multiple [m * 2 ^ p] of the unit [2 ^ p] in the last place, with a
    significand [m] of 53 bits at most, where [2 ^ (p + 52) <= q] unless the
    number is subnormal ([p = -1074]); and it is a multiple nearest to [q],
    half a unit away at most. *)
Lemma binary64_pos_spec (q : Q) :
  (0 < q)%Q ->
  exists (m p : Z),
    (JS.binary64_pos q == inject_Z m * 2 ^ p)%Q
    /\ 0 <= m <= 2 ^ 53
    /\ -1074 <= p
    /\ (q < 2 ^ (p + 53))%Q
    /\ (p = -1074 \/ (2 ^ (p + 52) <= q)%Q)
    /\ (q - (1 # 2) * 2 ^ p <= inject_Z m * 2 ^ p <= q + (1 # 2) * 2 ^ p)%Q.
Proof.
  intros Hq.
  set (p := Z.max (JS.ilog2 q - 52) (-1074)).
  exists (JS.round_half_even (q / 2 ^ p)), p.
  pose proof (pow2_pos p) as Hp.
  pose proof (ilog2_le q Hq) as Hlo. pose proof (ilog2_lt q Hq) as Hhi.
  assert (Hx : (q / 2 ^ p * 2 ^ p == q)%Q) by (field; lra).
  assert (Hq53 : (q < 2 ^ (p + 53))%Q).
  { apply (Qlt_le_trans _ _ _ Hhi). apply Qpower_le_compat_l; [unfold p; lia|].
    unfold Qle. simpl. lia. }
  split; [reflexivity|]. split.
  { split.
    - assert (H0 : (0 <= q / 2 ^ p)%Q) by (apply Qle_shift_div_l; lra).
      pose proof (Qfloor_resp_le _ _ H0) as Hf. change (Qfloor 0) with 0 in Hf.
      pose proof (round_half_even_floor (q / 2 ^ p)). lia.
    - apply round_half_even_le. apply Qle_shift_div_r; [exact Hp|].
      rewrite Zpower_Qpower by lia. change (inject_Z 2) with 2%Q.
      rewrite <- Qpower_plus by discriminate.
      rewrite Z.add_comm. apply Qlt_le_weak, Hq53. }
  split; [unfold p; lia|]. split; [exact Hq53|]. split.
  { destruct (Z.le_gt_cases (JS.ilog2 q - 52) (-1074)) as [Hsub|Hnorm].
    - left. unfold p. lia.
    - right. replace (p + 52) with (JS.ilog2 q) by (unfold p; lia). exact Hlo. }
  pose proof (round_half_even_near (q / 2 ^ p)) as [Hnlo Hnhi].
  revert Hnlo Hnhi Hx. generalize (inject_Z (JS.round_half_even (q / 2 ^ p))).
  generalize (q / 2 ^ p)%Q. generalize (2 ^ p)%Q Hp. clear.
  intros u Hu x r Hlo Hhi Hx.
  assert (H1 : (0 <= (r - (x - (1 # 2))) * u)%Q) by (apply Qmult_le_0_compat; lra).
  assert (H2 : (0 <= (x + (1 # 2) - r) * u)%Q) by (apply Qmult_le_0_compat; lra).
  assert (H3 : (x * u <= q)%Q) by (rewrite Hx; lra).
  assert (H4 : (q <= x * u)%Q) by (rewrite Hx; lra).
  clear Hx Hlo Hhi. revert H1 H2 H3 H4.
  setoid_replace ((r - (x - (1 # 2))) * u)%Q with (r * u - x * u + (1 # 2) * u)%Q
    using relation Qeq by ring.
  setoid_replace ((x + (1 # 2) - r) * u)%Q with (x * u + (1 # 2) * u - r * u)%Q
    using relation Qeq by ring.
  generalize (r * u)%Q (x * u)%Q. intros ru xu H1 H2 H3 H4. split; lra.
Qed.




(** The numbers the arithmetic is checked on: a third, a tenth, and the
    ratio 23/40, whose percentage is 57.49999999999999 in binary64. *)
Example binary64_samples :
  (JS.binary64 (1 # 3) == 6004799503160661 # 18014398509481984)%Q
  /\ (JS.binary64 (1 # 10) == 3602879701896397 # 36028797018963968)%Q
  /\ (JS.binary64 (JS.binary64 (23 # 40) * 100)
      == 8092405580431359 # 140737488355328)%Q
  /\ JS.Math_round (JS.mul (JS.div 23 40) (JS.ofZ 100)) = JS.ofZ 57.
Proof. vm_compute. repeat split; reflexivity. Qed.

(** Ties go to the even significand, the sign is kept, and below the
    smallest normal number the unit in the last place stays [2 ^ -1074]. *)
Example binary64_ties :
  (JS.binary64 (inject_Z (2 ^ 53 + 1)) == inject_Z (2 ^ 53))%Q
  /\ (JS.binary64 (inject_Z (2 ^ 53 + 3)) == inject_Z (2 ^ 53 + 4))%Q
  /\ (JS.binary64 (-1 # 3) == -6004799503160661 # 18014398509481984)%Q
  /\ (JS.binary64 (2 ^ (-1075)) == 0)%Q
  /\ (JS.binary64 (3 * 2 ^ (-1075)) == 2 ^ (-1073))%Q
  /\ (JS.binary64 (5 * 2 ^ (-1075)) == 2 ^ (-1073))%Q.
Proof. vm_compute. repeat split; reflexivity. Qed.

(** One third of an hour, written [0.3333333333333333], makes 1200 seconds,
    although the exact product is a little less. *)
Example dailySeconds_of_a_third :
  (Sample.oneThird * 3600 < 1200)%Q
  /\ (dailySecondsOf Sample.oneThird == 1200)%Q.
Proof. vm_compute. split; reflexivity. Qed.

(** ** Sums *)

Lemma sumZ_app (l1 l2 : list Z) : sumZ (l1 ++ l2) = sumZ l1 + sumZ l2.
Proof.
  induction l1 as [|x l1 IH]; simpl; [reflexivity|]. rewrite IH. lia.
Qed.

Lemma fold_left_sum {A : Type} (f : A -> Z) (l : list A) (acc : Z) :
  fold_left (fun sum x => sum + f x) l acc = acc + sumZ (List.map f l).
Proof.
  revert acc. induction l as [|x l IH]; intros acc; simpl.
  - lia.
  - rewrite IH. lia.
Qed.

Lemma totalDuration_sum (rs : list Roadmap.t) :
  totalDuration rs = sumZ (List.map Roadmap.estimatedDuration rs).
Proof. unfold totalDuration. rewrite fold_left_sum. lia. Qed.

Lemma optimizedDuration_sum (rs : list Roadmap.t) :
  optimizedDuration rs = branchDurations (uniqueBranches rs).
Proof. unfold optimizedDuration, branchDurations. rewrite fold_left_sum. lia. Qed.

Lemma branchDurations_flat_map (rs : list Roadmap.t) :
  Forall estimate_consistent rs ->
  branchDurations (allBranches rs) = sumZ (List.map Roadmap.estimatedDuration rs).
Proof.
  unfold allBranches, branchDurations.
  induction 1 as [|r rs Hr _ IH]; simpl; [reflexivity|].
  rewrite List.map_app, sumZ_app, IH, Hr. reflexivity.
Qed.

(** ** Deduplication by title *)

Section Dedupe.

Variable p : RoadmapBranch.t -> bool.

Lemma findIndex_from_absent (pre rest : list RoadmapBranch.t) (i : Z) :
  existsb p pre = false ->
  JS.findIndex_from p (pre ++ rest) i
  = JS.findIndex_from p rest (i + Z.of_nat (List.length pre)).
Proof.
  revert i. induction pre as [|x pre IH]; intros i H; simpl in *.
  - f_equal. lia.
  - apply orb_false_iff in H as [Hx Hpre]. rewrite Hx, IH by assumption.
    f_equal. lia.
Qed.

Lemma findIndex_from_present (pre rest : list RoadmapBranch.t) (i : Z) :
  existsb p pre = true ->
  i <= JS.findIndex_from p (pre ++ rest) i < i + Z.of_nat (List.length pre).
Proof.
  revert i. induction pre as [|x pre IH]; intros i H; simpl in *.
  - discriminate.
  - destruct (p x); simpl in H.
    + lia.
    + specialize (IH (i + 1) H). lia.
Qed.

End Dedupe.

Lemma existsb_sameTitle (branch : RoadmapBranch.t) (pre : list RoadmapBranch.t) :
  existsb (sameTitle branch) pre = true
  <-> In (RoadmapBranch.title branch) (List.map RoadmapBranch.title pre).
Proof.
  rewrite existsb_exists, in_map_iff. unfold sameTitle.
  split; intros [b Hb]; exists b.
  - destruct Hb as [Hin Heq]. apply String.eqb_eq in Heq. auto.
  - destruct Hb as [Heq Hin]. split; [assumption|]. apply String.eqb_eq. exact Heq.
Qed.

Lemma existsb_seen (t : string) (seen : list string) :
  existsb (String.eqb t) seen = true <-> In t seen.
Proof.
  rewrite existsb_exists. split.
  - intros [x [Hin Heq]]. apply String.eqb_eq in Heq. subst. exact Hin.
  - intros Hin. exists t. split; [exact Hin | apply String.eqb_refl].
Qed.

(** The index test of the filter, run on the part [rest] of the array that
    follows [pre], keeps the branches whose title is new. *)
Lemma filter_from_keepFirst (rest pre : list RoadmapBranch.t) (seen : list string) :
  (forall t, In t seen <-> In t (List.map RoadmapBranch.title pre)) ->
  JS.filter_from
    (fun branch index => JS.findIndex (sameTitle branch) (pre ++ rest) =? index)
    rest (Z.of_nat (List.length pre))
  = keepFirstByTitle seen rest.
Proof.
  revert pre seen. induction rest as [|b rest IH]; intros pre seen Hseen; simpl.
  - reflexivity.
  - assert (Hstep : forall seen',
      (forall t, In t seen' <-> In t (List.map RoadmapBranch.title (pre ++ [b]))) ->
      JS.filter_from
        (fun branch index =>
           JS.findIndex (sameTitle branch) (pre ++ b :: rest) =? index)
        rest (Z.of_nat (List.length pre) + 1)
      = keepFirstByTitle seen' rest).
    { intros seen' Hseen'. specialize (IH (pre ++ [b]) seen' Hseen').
      rewrite <- app_assoc in IH. simpl in IH.
      rewrite List.length_app in IH. simpl in IH.
      replace (Z.of_nat (List.length pre + 1)%nat) with (Z.of_nat (List.length pre) + 1) in IH by lia.
      exact IH. }
    destruct (existsb (String.eqb (RoadmapBranch.title b)) seen) eqn:Eseen.
    + assert (Hpre : existsb (sameTitle b) pre = true).
      { apply existsb_sameTitle, Hseen, existsb_seen, Eseen. }
      pose proof (findIndex_from_present (sameTitle b) pre (b :: rest) 0 Hpre) as Hlt.
      unfold JS.findIndex at 1.
      replace (JS.findIndex_from (sameTitle b) (pre ++ b :: rest) 0
               =? Z.of_nat (List.length pre)) with false
        by (symmetry; apply Z.eqb_neq; lia).
      apply Hstep. intros t. rewrite List.map_app, in_app_iff, <- Hseen. simpl.
      split; [tauto|]. intros [H|[H|[]]]; [exact H|].
      subst t. apply existsb_seen, Eseen.
    + assert (Hpre : existsb (sameTitle b) pre = false).
      { apply not_true_is_false. intros H.
        apply existsb_sameTitle, Hseen, existsb_seen in H. congruence. }
      unfold JS.findIndex at 1.
      rewrite (findIndex_from_absent (sameTitle b) pre (b :: rest) 0 Hpre).
      simpl. unfold sameTitle at 1. rewrite String.eqb_refl, Z.eqb_refl.
      f_equal. apply Hstep. intros t.
      rewrite List.map_app, in_app_iff. simpl. rewrite <- Hseen. tauto.
Qed.

Lemma uniqueBranches_keepFirst (rs : list Roadmap.t) :
  uniqueBranches rs = keepFirstByTitle [] (allBranches rs).
Proof.
  unfold uniqueBranches, JS.filter_indexed.
  apply (filter_from_keepFirst (allBranches rs) [] []). intros t. reflexivity.
Qed.

Lemma keepFirst_titles (bs : list RoadmapBranch.t) (seen : list string) :
  List.NoDup (List.map RoadmapBranch.title (keepFirstByTitle seen bs))
  /\ forall t, In t (List.map RoadmapBranch.title (keepFirstByTitle seen bs))
               <-> In t (List.map RoadmapBranch.title bs) /\ ~ In t seen.
Proof.
  revert seen. induction bs as [|b bs IH]; intros seen; simpl.
  - split; [constructor | intros t; simpl; tauto].
  - destruct (existsb (String.eqb (RoadmapBranch.title b)) seen) eqn:E.
    + destruct (IH seen) as [Hnd Hin]. split; [exact Hnd|].
      intros t. rewrite Hin. apply existsb_seen in E.
      split; [tauto|]. intros [[H|H] Hs]; [subst; contradiction | tauto].
    + destruct (IH (RoadmapBranch.title b :: seen)) as [Hnd Hin].
      assert (Hb : ~ In (RoadmapBranch.title b) seen).
      { intros H. apply existsb_seen in H. congruence. }
      split.
      * simpl. constructor; [|exact Hnd]. rewrite Hin. simpl. tauto.
      * intros t. simpl. rewrite Hin. simpl.
        destruct (String.string_dec (RoadmapBranch.title b) t) as [Heq|Hne].
        -- subst t. tauto.
        -- tauto.
Qed.

Lemma keepFirst_distinct (bs : list RoadmapBranch.t) (seen : list string) :
  List.NoDup (List.map RoadmapBranch.title bs) ->
  (forall t, In t (List.map RoadmapBranch.title bs) -> ~ In t seen) ->
  keepFirstByTitle seen bs = bs.
Proof.
  revert seen. induction bs as [|b bs IH]; intros seen Hnd Hseen; simpl.
  - reflexivity.
  - simpl in Hnd. apply List.NoDup_cons_iff in Hnd as [Hb Hnd].
    destruct (existsb (String.eqb (RoadmapBranch.title b)) seen) eqn:E.
    + apply existsb_seen in E. exfalso. apply (Hseen (RoadmapBranch.title b)); simpl; auto.
    + f_equal. apply IH; [exact Hnd|]. intros t Ht [Heq|Hin].
      * subst t. contradiction.
      * apply (Hseen t); simpl; auto.
Qed.

(** C2: the preview's branch list is the concatenation of the source
    branches, roadmap after roadmap, in which exactly the first branch of
    each title is kept (titles compared by exact string equality); the kept
    titles are pairwise distinct, and two roadmaps whose branch titles are
    all distinct give [R1.branches ++ R2.branches] unchanged. *)
Theorem preview_branches_first_occurrence (rs : list Roadmap.t) :
  Preview.branches (preview rs)
  = keepFirstByTitle [] (flat_map Roadmap.branches rs)
  /\ List.NoDup (List.map RoadmapBranch.title (Preview.branches (preview rs)))
  /\ (forall R1 R2 : Roadmap.t,
        rs = [R1; R2] ->
        List.NoDup (List.map RoadmapBranch.title
                      (Roadmap.branches R1 ++ Roadmap.branches R2)) ->
        Preview.branches (preview rs)
        = Roadmap.branches R1 ++ Roadmap.branches R2).
Proof.
  simpl. rewrite uniqueBranches_keepFirst. unfold allBranches.
  split; [reflexivity|]. split.
  - apply keepFirst_titles.
  - intros R1 R2 -> Hnd. simpl. rewrite app_nil_r.
    apply keepFirst_distinct; [exact Hnd | intros t _ []].
Qed.

Lemma preview_branches_first_occurrence_witness :
  Preview.branches (preview [Sample.R1; Sample.R3])
  = Roadmap.branches Sample.R1 ++ Roadmap.branches Sample.R3.
Proof.
  apply (proj2 (proj2 (preview_branches_first_occurrence [Sample.R1; Sample.R3]))
           Sample.R1 Sample.R3 eq_refl).
  simpl. constructor.
  - simpl. intros [H|[]]. discriminate H.
  - constructor; [intros [] | constructor].
Defined.

(** Titles that differ only in letter case are different titles. *)
Example dedupe_is_case_sensitive :
  List.map RoadmapBranch.title
    (uniqueBranches
       [Sample.roadmap "A" 10 [Sample.branch "Basics" 10 []];
        Sample.roadmap "B" 10 [Sample.branch "basics" 10 []; Sample.branch "Basics" 10 []]])
  = ["Basics"; "basics"].
Proof. reflexivity. Qed.

(** The worked merge scenario of the specification. *)
Example merge_scenario :
  List.map RoadmapBranch.title (uniqueBranches [Sample.R1; Sample.R2])
  = ["Fundamentals"; "Advanced"]
  /\ Statistics.original_duration (statistics [Sample.R1; Sample.R2]) = 9000
  /\ Statistics.final_duration (statistics [Sample.R1; Sample.R2]) = 5400
  /\ Statistics.duration_saved (statistics [Sample.R1; Sample.R2]) = 3600
  /\ Statistics.efficiency_gain (statistics [Sample.R1; Sample.R2]) = JS.ofZ 40.
Proof. repeat split; reflexivity. Qed.

(** ** Statistics *)

(** C1, as the claim states it, fails: the original duration is read from
    the roadmaps' own estimates, here 100, not from their branches, here 60. *)
Lemma original_duration_not_branch_sum :
  Statistics.original_duration (statistics [Sample.drifted])
  <> branchDurations (flat_map Roadmap.branches [Sample.drifted]).
Proof. vm_compute. discriminate. Qed.

(** C1, amended: the original duration is the sum of the roadmap-level
    estimates of the resolved roadmaps; the saved duration and the efficiency
    gain are derived from that sum; and it is the sum over all branches before
    deduplication whenever every roadmap's estimate is the sum of its
    branches' estimates. *)
Theorem original_duration_is_roadmap_sum (rs : list Roadmap.t) :
  let original := sumZ (List.map Roadmap.estimatedDuration rs) in
  Statistics.original_duration (statistics rs) = original
  /\ Statistics.duration_saved (statistics rs)
     = original - branchDurations (Preview.branches (preview rs))
  /\ Statistics.efficiency_gain (statistics rs)
     = JS.or_zero
         (JS.Math_round
            (JS.mul (JS.div (original - branchDurations (Preview.branches (preview rs)))
                            original)
                    (JS.ofZ 100)))
  /\ (Forall estimate_consistent rs ->
      Statistics.original_duration (statistics rs)
      = branchDurations (flat_map Roadmap.branches rs)).
Proof.
  simpl. unfold durationSaved.
  rewrite totalDuration_sum, optimizedDuration_sum.
  repeat split. intros H. symmetry. apply branchDurations_flat_map, H.
Qed.

Lemma original_duration_is_roadmap_sum_witness :
  Statistics.original_duration (statistics [Sample.R1; Sample.R2])
  = branchDurations (flat_map Roadmap.branches [Sample.R1; Sample.R2]).
Proof.
  apply (proj2 (proj2 (proj2 (original_duration_is_roadmap_sum [Sample.R1; Sample.R2])))).
  repeat constructor.
Defined.

Lemma duration_saved_consistent (rs : list Roadmap.t) :
  Statistics.original_duration (statistics rs)
  - Statistics.final_duration (statistics rs)
  = Statistics.duration_saved (statistics rs).
Proof. reflexivity. Qed.

Lemma or_zero_ofZ (z : Z) : JS.or_zero (JS.ofZ z) = JS.ofZ z.
Proof.
  unfold JS.or_zero, JS.ofZ. destruct (Qeq_bool (inject_Z z) 0) eqn:E; [|reflexivity].
  apply Qeq_bool_eq in E. unfold Qeq in E. simpl in E.
  replace z with 0 by lia. reflexivity.
Qed.

(** With a non-zero original duration the gain is the percentage, rounded
    to a whole number; quotient and product are binary64 numbers. *)
Lemma efficiency_gain_rounded (rs : list Roadmap.t) :
  Statistics.original_duration (statistics rs) <> 0 ->
  Statistics.efficiency_gain (statistics rs)
  = JS.ofZ (Qfloor
              (JS.binary64
                 (JS.binary64
                    (inject_Z (Statistics.duration_saved (statistics rs))
                     / inject_Z (Statistics.original_duration (statistics rs)))
                  * inject_Z 100)
               + (1 # 2))%Q).
Proof.
  simpl. intros H. unfold JS.div.
  destruct (totalDuration rs =? 0) eqn:E; [apply Z.eqb_eq in E; contradiction|].
  simpl. apply or_zero_ofZ.
Qed.

(** With nothing to merge at all, [0 / 0] is [NaN] and the guard answers 0. *)
Lemma efficiency_gain_zero_of_zero (rs : list Roadmap.t) :
  Statistics.original_duration (statistics rs) = 0 ->
  Statistics.final_duration (statistics rs) = 0 ->
  Statistics.efficiency_gain (statistics rs) = JS.ofZ 0.
Proof.
  simpl. unfold durationSaved. intros -> ->. reflexivity.
Qed.

(** C9, at the failing input: the original duration is 0, the final
    duration is 60, and the efficiency gain is [-Infinity], which the
    [|| 0] guard lets through; it is not 0. *)
Theorem efficiency_gain_unguarded_infinity :
  Statistics.original_duration (statistics [Sample.zeroEstimate]) = 0
  /\ Statistics.original_duration (statistics [Sample.zeroEstimate])
     - Statistics.final_duration (statistics [Sample.zeroEstimate])
     = Statistics.duration_saved (statistics [Sample.zeroEstimate])
  /\ Statistics.efficiency_gain (statistics [Sample.zeroEstimate]) = JS.NegInfinity
  /\ Statistics.efficiency_gain (statistics [Sample.zeroEstimate]) <> JS.ofZ 0.
Proof. repeat split. vm_compute. discriminate. Qed.

(** ** Core-first ordering *)

Lemma flattenVideos_tagged (roadmap : Preview.t) (tv : TaggedVideo.t) :
  In tv (flattenVideos roadmap)
  <-> exists (b : RoadmapBranch.t) (v : VideoModule.t),
        In b (Preview.branches roadmap) /\ In v (RoadmapBranch.videos b)
        /\ tv = tagVideo b v.
Proof.
  unfold flattenVideos. rewrite in_flat_map. split.
  - intros [b [Hb Hin]]. apply in_map_iff in Hin as [v [Heq Hv]].
    exists b, v. auto.
  - intros [b [v [Hb [Hv ->]]]]. exists b. split; [exact Hb|].
    apply in_map. exact Hv.
Qed.

Lemma sort_insert_core (x : TaggedVideo.t) (l : list TaggedVideo.t) :
  TaggedVideo.isCore x = true -> JS.sort_insert coreFirst x l = x :: l.
Proof.
  intros Hx. destruct l as [|y l]; simpl; [reflexivity|].
  unfold coreFirst. rewrite Hx. destruct (TaggedVideo.isCore y); reflexivity.
Qed.

Lemma sort_insert_not_core (x : TaggedVideo.t) (cores others : list TaggedVideo.t) :
  TaggedVideo.isCore x = false ->
  Forall (fun v => TaggedVideo.isCore v = true) cores ->
  Forall (fun v => TaggedVideo.isCore v = false) others ->
  JS.sort_insert coreFirst x (cores ++ others) = cores ++ x :: others.
Proof.
  intros Hx Hc Ho. induction Hc as [|y cores Hy _ IH]; simpl.
  - destruct Ho as [|z others Hz _]; simpl; [reflexivity|].
    unfold coreFirst. rewrite Hx, Hz. reflexivity.
  - unfold coreFirst at 1. rewrite Hx, Hy. simpl. rewrite IH. reflexivity.
Qed.

Lemma sort_coreFirst_partition (l : list TaggedVideo.t) :
  JS.sort coreFirst l
  = List.filter TaggedVideo.isCore l
    ++ List.filter (fun v => negb (TaggedVideo.isCore v)) l.
Proof.
  induction l as [|x l IH]; simpl; [reflexivity|].
  rewrite IH. destruct (TaggedVideo.isCore x) eqn:Hx; simpl.
  - apply sort_insert_core, Hx.
  - apply sort_insert_not_core; [exact Hx| |].
    + apply List.Forall_forall. intros v Hv. apply filter_In in Hv. tauto.
    + apply List.Forall_forall. intros v Hv. apply filter_In in Hv.
      destruct Hv as [_ Hv]. apply negb_true_iff in Hv. exact Hv.
Qed.

(** C6: before it packs days, the scheduler flattens the branches: the
    videos of the first branch in their order, then those of the second, and
    so on, each with its own id, title, duration, core flag and description
    and tagged with the title of the branch it stands in.  The flattened
    list is then stably sorted core first: all core videos in their
    flattened order, then all other videos in their flattened order; so
    every core video stands before every non-core video, and every video of
    the sorted sequence still carries the title of its branch. *)
Theorem sortedVideos_core_first (roadmap : Preview.t) :
  flattenVideos roadmap
  = flat_map
      (fun branch =>
         List.map
           (fun video =>
              {| TaggedVideo.id := VideoModule.id video;
                 TaggedVideo.title := VideoModule.title video;
                 TaggedVideo.duration := VideoModule.duration video;
                 TaggedVideo.isCore := VideoModule.isCore video;
                 TaggedVideo.description := VideoModule.description video;
                 TaggedVideo.branch_title := RoadmapBranch.title branch |})
           (RoadmapBranch.videos branch))
      (Preview.branches roadmap)
  /\ (forall tv, In tv (flattenVideos roadmap)
     <-> exists b v, In b (Preview.branches roadmap)
                     /\ In v (RoadmapBranch.videos b)
                     /\ tv = tagVideo b v)
  /\ sortedVideos roadmap
     = List.filter TaggedVideo.isCore (flattenVideos roadmap)
       ++ List.filter (fun v => negb (TaggedVideo.isCore v)) (flattenVideos roadmap)
  /\ (forall tv, In tv (sortedVideos roadmap) ->
        exists b v, In b (Preview.branches roadmap)
                    /\ In v (RoadmapBranch.videos b)
                    /\ TaggedVideo.branch_title tv = RoadmapBranch.title b
                    /\ TaggedVideo.id tv = VideoModule.id v
                    /\ TaggedVideo.title tv = VideoModule.title v
                    /\ TaggedVideo.duration tv = VideoModule.duration v
                    /\ TaggedVideo.isCore tv = VideoModule.isCore v
                    /\ TaggedVideo.description tv = VideoModule.description v)
  /\ (forall (i j : nat) (a b : TaggedVideo.t),
        nth_error (sortedVideos roadmap) i = Some a ->
        nth_error (sortedVideos roadmap) j = Some b ->
        TaggedVideo.isCore a = true -> TaggedVideo.isCore b = false ->
        (i < j)%nat).
Proof.
  split; [reflexivity|].
  split; [apply flattenVideos_tagged|].
  unfold sortedVideos. rewrite sort_coreFirst_partition.
  split; [reflexivity|].
  set (cores := List.filter TaggedVideo.isCore (flattenVideos roadmap)).
  set (others := List.filter (fun v => negb (TaggedVideo.isCore v)) (flattenVideos roadmap)).
  split.
  { intros tv Hin.
    assert (Hflat : In tv (flattenVideos roadmap)).
    { apply in_app_or in Hin as [H|H]; apply filter_In in H; apply H. }
    apply flattenVideos_tagged in Hflat as [b [v [Hb [Hv ->]]]].
    exists b, v. repeat split; assumption. }
  intros i j a b Ha Hb Hca Hcb.
  assert (Hi : (i < List.length cores)%nat).
  { destruct (Nat.lt_ge_cases i (List.length cores)) as [H|H]; [exact H|].
    rewrite nth_error_app2 in Ha by exact H. apply nth_error_In in Ha.
    apply filter_In in Ha. destruct Ha as [_ Ha]. rewrite Hca in Ha. discriminate. }
  assert (Hj : (List.length cores <= j)%nat).
  { destruct (Nat.lt_ge_cases j (List.length cores)) as [H|H]; [|exact H].
    rewrite nth_error_app1 in Hb by exact H. apply nth_error_In in Hb.
    apply filter_In in Hb. destruct Hb as [_ Hb]. rewrite Hcb in Hb. discriminate. }
  lia.
Qed.

Example sort_scenario :
  List.map TaggedVideo.id (sortedVideos Sample.mixedVideos) = ["m2"; "m4"; "m1"; "m3"].
Proof. reflexivity. Qed.

(** Two branches: the sorted sequence interleaves them, and every video
    keeps the title of its own branch. *)
Example sort_scenario_two_branches :
  List.map (fun tv => (TaggedVideo.id tv, TaggedVideo.branch_title tv))
    (sortedVideos Sample.twoBranches)
  = [("x2", "X"); ("y1", "Y"); ("x1", "X"); ("y2", "Y")].
Proof. reflexivity. Qed.

Lemma sortedVideos_core_first_witness :
  nth_error (sortedVideos Sample.twoBranches) 1
  = Some (tagVideo (Sample.branch "Y" 1200 []) (Sample.video "y1" 600 true))
  /\ nth_error (sortedVideos Sample.twoBranches) 2
     = Some (tagVideo (Sample.branch "X" 1200 []) (Sample.video "x1" 600 false))
  /\ (1 < 2)%nat
  /\ exists b v,
       In b (Preview.branches Sample.twoBranches)
       /\ In v (RoadmapBranch.videos b)
       /\ "Y" = RoadmapBranch.title b
       /\ "y1" = VideoModule.id v
       /\ "y1" = VideoModule.title v
       /\ 600 = VideoModule.duration v
       /\ true = VideoModule.isCore v
       /\ None = VideoModule.description v.
Proof.
  split; [reflexivity|]. split; [reflexivity|]. split.
  - apply (proj2 (proj2 (proj2 (proj2 (sortedVideos_core_first Sample.twoBranches))))
             1%nat 2%nat
             (tagVideo (Sample.branch "Y" 1200 []) (Sample.video "y1" 600 true))
             (tagVideo (Sample.branch "X" 1200 []) (Sample.video "x1" 600 false)));
      reflexivity.
  - apply (proj1 (proj2 (proj2 (proj2 (sortedVideos_core_first Sample.twoBranches))))
             (tagVideo (Sample.branch "Y" 1200 []) (Sample.video "y1" 600 true))).
    simpl. right. left. reflexivity.
Defined.

(** ** Loops *)

Lemma while_invariant {S : Type} (I : S -> Prop) (cond : S -> bool) (body : S -> S) :
  (forall s, I s -> cond s = true -> I (body s)) ->
  forall fuel s, I s -> I (JS.while fuel cond body s).
Proof.
  intros Hstep fuel. induction fuel as [|fuel IH]; intros s Hs; simpl; [exact Hs|].
  destruct (cond s) eqn:E; [|exact Hs]. apply IH, Hstep; assumption.
Qed.

(** A loop whose body decreases a measure has left its condition false once
    the fuel covers the measure. *)
Lemma while_exit {S : Type} (measure : S -> nat) (cond : S -> bool) (body : S -> S) :
  (forall s, cond s = true -> (measure (body s) < measure s)%nat) ->
  forall fuel s, (measure s <= fuel)%nat -> cond (JS.while fuel cond body s) = false.
Proof.
  intros Hdec fuel. induction fuel as [|fuel IH]; intros s Hm; simpl.
  - destruct (cond s) eqn:E; [|reflexivity]. specialize (Hdec s E). lia.
  - destruct (cond s) eqn:E; [|exact E]. apply IH. specialize (Hdec s E). lia.
Qed.



(** ** Lists, calendars and rationals *)

Lemma firstn_S_nth_error {A : Type} (l : list A) (i : nat) (x : A) :
  nth_error l i = Some x -> firstn (S i) l = firstn i l ++ [x].
Proof.
  revert i. induction l as [|y l IH]; intros [|i] H; simpl in *; try discriminate.
  - injection H as ->. reflexivity.
  - f_equal. apply IH, H.
Qed.


Lemma firstn_plus {A : Type} (l : list A) (a n : nat) :
  firstn (a + n) l = firstn a l ++ firstn n (skipn a l).
Proof.
  revert l. induction a as [|a IH]; intros l; simpl; [reflexivity|].
  destruct l as [|x l]; simpl.
  - rewrite firstn_nil. reflexivity.
  - f_equal. apply IH.
Qed.

(** A member of a run of [n] elements from position [start] stands at a
    position of the list inside that run. *)
Lemma In_run {A : Type} (l : list A) (start n : nat) (x : A) :
  In x (firstn n (skipn start l)) ->
  exists q : nat, (start <= q < start + n)%nat /\ nth_error l q = Some x.
Proof.
  intros Hin. apply In_nth_error in Hin as [i Hi].
  rewrite nth_error_firstn in Hi.
  destruct (i <? n)%nat eqn:E; [|discriminate].
  apply Nat.ltb_lt in E. rewrite nth_error_skipn in Hi.
  exists (start + i)%nat. split; [lia | exact Hi].
Qed.

Lemma NoDup_snoc {A : Type} (l : list A) (x : A) :
  List.NoDup l -> ~ In x l -> List.NoDup (l ++ [x]).
Proof.
  induction 1 as [|y l Hy Hnd IH]; intros Hx; simpl.
  - constructor; [intros [] | constructor].
  - constructor.
    + rewrite in_app_iff. simpl. intros [H|[H|[]]]; [contradiction|].
      subst. apply Hx. left. reflexivity.
    + apply IH. intros H. apply Hx. right. exact H.
Qed.

Lemma videosDuration_app (l1 l2 : list TaggedVideo.t) :
  videosDuration (l1 ++ l2) = videosDuration l1 + videosDuration l2.
Proof. unfold videosDuration. rewrite List.map_app. apply sumZ_app. Qed.

Lemma eventsDuration_stamp (l : list TaggedVideo.t) :
  eventsDuration (List.map stampVideo l) = videosDuration l.
Proof.
  unfold eventsDuration, videosDuration. rewrite List.map_map. reflexivity.
Qed.

Lemma videosDuration_nonneg (l : list TaggedVideo.t) :
  Forall (fun v => 0 <= TaggedVideo.duration v) l -> 0 <= videosDuration l.
Proof.
  unfold videosDuration. induction 1 as [|v l Hv _ IH]; simpl; lia.
Qed.

Lemma calendarEvents_app (c1 c2 : Calendar) :
  calendarEvents (c1 ++ c2) = calendarEvents c1 ++ calendarEvents c2.
Proof. unfold calendarEvents. apply flat_map_app. Qed.

Lemma Qlt_bool_iff (x y : Q) : Qlt_bool x y = true <-> (x < y)%Q.
Proof.
  unfold Qlt_bool. rewrite negb_true_iff. split.
  - intros H. apply Qnot_le_lt. intros Hle. apply Qle_bool_iff in Hle. congruence.
  - intros H. apply not_true_is_false. intros Hle. apply Qle_bool_iff in Hle.
    apply (Qlt_not_le _ _ H Hle).
Qed.

(** *** Writing a day into the calendar *)

(** A key that is new goes last. *)
Lemma calendar_set_fresh (cal : Calendar) (k : Z) (v : list CalendarEvent.t) :
  ~ In k (List.map fst cal) -> calendar_set cal k v = cal ++ [(k, v)].
Proof.
  induction cal as [|[k' v'] cal IH]; simpl; intros H; [reflexivity|].
  destruct (k' =? k) eqn:E.
  - apply Z.eqb_eq in E. exfalso. apply H. left. exact E.
  - f_equal. apply IH. intros Hin. apply H. right. exact Hin.
Qed.

(** A key that is there already keeps its place: the keys do not change. *)
Lemma calendar_set_known (cal : Calendar) (k : Z) (v : list CalendarEvent.t) :
  In k (List.map fst cal) ->
  List.map fst (calendar_set cal k v) = List.map fst cal.
Proof.
  induction cal as [|[k' v'] cal IH]; simpl; intros H; [contradiction|].
  destruct (k' =? k) eqn:E; simpl; [reflexivity|].
  f_equal. apply IH. destruct H as [H|H]; [|exact H].
  apply Z.eqb_neq in E. contradiction.
Qed.

Lemma calendar_set_Forall (P : Z * list CalendarEvent.t -> Prop)
    (cal : Calendar) (k : Z) (v : list CalendarEvent.t) :
  Forall P cal -> P (k, v) -> Forall P (calendar_set cal k v).
Proof.
  intros Hcal Hnew. induction Hcal as [|[k' v'] cal Hd Hrest IH]; simpl.
  - constructor; [exact Hnew | constructor].
  - destruct (k' =? k) eqn:E.
    + apply Z.eqb_eq in E. subst k'. constructor; assumption.
    + constructor; assumption.
Qed.

Lemma calendar_set_NoDup (cal : Calendar) (k : Z) (v : list CalendarEvent.t) :
  List.NoDup (List.map fst cal) -> List.NoDup (List.map fst (calendar_set cal k v)).
Proof.
  intros Hnd. destruct (in_dec Z.eq_dec k (List.map fst cal)) as [Hin|Hout].
  - rewrite calendar_set_known by exact Hin. exact Hnd.
  - rewrite calendar_set_fresh by exact Hout. rewrite List.map_app. simpl.
    apply NoDup_snoc; assumption.
Qed.

Lemma calendar_set_length (cal : Calendar) (k : Z) (v : list CalendarEvent.t) :
  (List.length (calendar_set cal k v) <= S (List.length cal))%nat.
Proof.
  induction cal as [|[k' v'] cal IH]; simpl; [lia|].
  destruct (k' =? k); simpl; lia.
Qed.

Lemma calendar_set_events_length (cal : Calendar) (k : Z) (v : list CalendarEvent.t) :
  (List.length (calendarEvents (calendar_set cal k v))
   <= List.length (calendarEvents cal) + List.length v)%nat.
Proof.
  unfold calendarEvents.
  induction cal as [|[k' v'] cal IH]; simpl.
  - rewrite app_nil_r. lia.
  - destruct (k' =? k); simpl; rewrite !List.length_app; lia.
Qed.

(** ** The inner loop: filling one day *)

Section FillDay.

Variable allVideos : list TaggedVideo.t.
Variable dailySeconds : Q.

Lemma day_body_inv (start : nat) (s : DayState) :
  DayInv allVideos dailySeconds start s ->
  day_cond allVideos dailySeconds s = true ->
  DayInv allVideos dailySeconds start (day_body allVideos dailySeconds s).
Proof.
  intros [taken [Hfirst [Hidx [Hlen [Hvid [Hdur [Hfit Hbrk]]]]]]] Hcond.
  unfold day_cond in Hcond.
  apply andb_true_iff in Hcond as [Hcond _].
  apply andb_true_iff in Hcond as [_ Hlt]. apply Nat.ltb_lt in Hlt.
  unfold day_body.
  destruct (nth_error allVideos (dayVideoIndex s)) as [video|] eqn:Hnth.
  - destruct (Qle_bool _ dailySeconds) eqn:Hle.
    + exists (taken ++ [video]). simpl.
      rewrite (firstn_S_nth_error _ _ _ Hnth), Hfirst, <- app_assoc.
      rewrite List.length_app, List.map_app, videosDuration_app, Hvid, Hdur.
      assert (Hone : videosDuration [video] = TaggedVideo.duration video)
        by (unfold videosDuration; simpl; lia).
      rewrite Hone. simpl.
      repeat split; try lia.
      right. apply Qle_bool_iff in Hle. rewrite Hdur in Hle. exact Hle.
    + exists taken. simpl. repeat split; try assumption.
      intros _. exists video. split; [exact Hnth|].
      intros H. apply Qle_bool_iff in H. congruence.
  - apply nth_error_None in Hnth. lia.
Qed.

Lemma fillDay_inv (start : nat) :
  (start <= List.length allVideos)%nat ->
  DayInv allVideos dailySeconds start (fillDay allVideos dailySeconds start).
Proof.
  intros Hstart. unfold fillDay. apply while_invariant.
  - apply day_body_inv.
  - exists []. simpl. rewrite app_nil_r.
    repeat split; try lia; try reflexivity. left. reflexivity.
Qed.

(** The fuel given to the inner loop lets it reach its exit. *)
Lemma fillDay_exit (start : nat) :
  day_cond allVideos dailySeconds (fillDay allVideos dailySeconds start) = false.
Proof.
  unfold fillDay.
  apply (while_exit
           (fun s => if broke s then O
                     else S (List.length allVideos - dayVideoIndex s))).
  - intros s Hcond. unfold day_cond in Hcond.
    apply andb_true_iff in Hcond as [Hcond _].
    apply andb_true_iff in Hcond as [Hb Hlt].
    apply negb_true_iff in Hb. apply Nat.ltb_lt in Hlt. rewrite Hb.
    unfold day_body.
    destruct (nth_error allVideos (dayVideoIndex s)) as [video|] eqn:Hnth.
    + destruct (Qle_bool _ dailySeconds); simpl; lia.
    + apply nth_error_None in Hnth. lia.
  - simpl. lia.
Qed.

Lemma fillDay_full (start : nat) :
  (start <= List.length allVideos)%nat ->
  day_full dailySeconds
    (dailyVideos (fillDay allVideos dailySeconds start))
    (nth_error allVideos (dayVideoIndex (fillDay allVideos dailySeconds start))).
Proof.
  intros Hstart.
  destruct (fillDay_inv start Hstart)
    as [taken [_ [_ [_ [Hvid [Hdur [_ Hbrk]]]]]]].
  pose proof (fillDay_exit start) as Hexit.
  set (day := fillDay allVideos dailySeconds start) in *.
  unfold day_full.
  destruct (nth_error allVideos (dayVideoIndex day)) as [v|] eqn:Hnth; [|exact I].
  rewrite Hvid, eventsDuration_stamp, <- Hdur.
  unfold day_cond in Hexit.
  destruct (broke day) eqn:Hb.
  - left. destruct (Hbrk eq_refl) as [v' [Hv' Hno]].
    injection Hv' as <-. exact Hno.
  - simpl in Hexit.
    destruct (dayVideoIndex day <? List.length allVideos)%nat eqn:Hlt.
    + simpl in Hexit. right. intros H. apply Qlt_bool_iff in H. congruence.
    + apply Nat.ltb_ge in Hlt. apply nth_error_None in Hlt. congruence.
Qed.



End FillDay.

(** ** The outer loop: walking the days *)

(** The day offsets a run can visit are 0 to 29. *)
Lemma dayOffsets_forallb (P : Z -> bool) :
  forallb P dayOffsets = true -> forall j : Z, 0 <= j < 30 -> P j = true.
Proof.
  intros H j Hj. rewrite forallb_forall in H. apply H.
  unfold dayOffsets. apply in_map_iff. exists (Z.to_nat j). split; [lia|].
  apply in_seq. lia.
Qed.

Section ScheduleLoop.

Variable host : Host.
Variable allVideos : list TaggedVideo.t.
Variable dailySeconds : Q.

(** One round of the outer loop, in terms of the day it visits. *)
Lemma schedule_body_eq (s : ScheduleState) :
  schedule_body host allVideos dailySeconds s
  = if skipped host (dayOffset s)
    then {| calendar := calendar s;
            videoIndex := videoIndex s;
            dayOffset := dayOffset s + 1 |}
    else
      {| calendar :=
           if (0 <? List.length
                      (dailyVideos (fillDay allVideos dailySeconds (videoIndex s))))%nat
           then calendar_set (calendar s) (dateKey host (dayOffset s))
                  (dailyVideos (fillDay allVideos dailySeconds (videoIndex s)))
           else calendar s;
         videoIndex := dayVideoIndex (fillDay allVideos dailySeconds (videoIndex s));
         dayOffset := dayOffset s + 1 |}.
Proof. reflexivity. Qed.

Lemma day_ok_mono (j j' : Z) (i i' : nat) (day : Z * list CalendarEvent.t) :
  j <= j' -> (i <= i')%nat ->
  day_ok host allVideos dailySeconds j i day ->
  day_ok host allVideos dailySeconds j' i' day.
Proof.
  intros Hj Hi [Hne [Hfit [[start [n [Hrun Hrest]]] [o [Ho Hkey]]]]].
  split; [exact Hne|]. split; [exact Hfit|]. split.
  - exists start, n. split; [lia | exact Hrest].
  - exists o. split; [lia | exact Hkey].
Qed.

Lemma schedule_body_inv (s : ScheduleState) :
  ScheduleInv host allVideos dailySeconds s ->
  schedule_cond allVideos s = true ->
  ScheduleInv host allVideos dailySeconds
    (schedule_body host allVideos dailySeconds s).
Proof.
  intros [Hoff [Hidx [Hok [Hnd [Hlen Hcount]]]]] Hcond.
  unfold schedule_cond in Hcond. apply andb_true_iff in Hcond as [_ Hlt30].
  apply Z.ltb_lt in Hlt30.
  rewrite schedule_body_eq.
  destruct (skipped host (dayOffset s)) eqn:Hskip.
  - unfold ScheduleInv; cbn [calendar videoIndex dayOffset].
    split; [lia|]. split; [exact Hidx|]. split.
    { eapply List.Forall_impl; [|exact Hok]. intros day. apply day_ok_mono; lia. }
    split; [exact Hnd|]. split; [lia | exact Hcount].
  - destruct (fillDay_inv allVideos dailySeconds (videoIndex s) Hidx)
      as [taken [Hfirst [Hi [Hl [Hvid [Hdur [Hfit _]]]]]]].
    pose proof (fillDay_full allVideos dailySeconds (videoIndex s) Hidx) as Hfull.
    set (day := fillDay allVideos dailySeconds (videoIndex s)) in *.
    assert (Hmono : Forall (day_ok host allVideos dailySeconds
                              (dayOffset s + 1) (dayVideoIndex day)) (calendar s)).
    { eapply List.Forall_impl; [|exact Hok]. intros d. apply day_ok_mono; lia. }
    assert (Hcnt : List.length (dailyVideos day) = List.length taken)
      by (rewrite Hvid; apply List.length_map).
    unfold ScheduleInv; cbn [calendar videoIndex dayOffset].
    split; [lia|]. split; [exact Hl|].
    destruct (0 <? List.length (dailyVideos day))%nat eqn:Hnonempty.
    + apply Nat.ltb_lt in Hnonempty. split.
      { apply calendar_set_Forall; [exact Hmono|].
        unfold day_ok; cbn [fst snd]. split.
        { intros H. rewrite H in Hnonempty. simpl in Hnonempty. lia. }
        split.
        { destruct Hfit as [Hnil | Hfit].
          - subst taken. simpl in Hcnt. lia.
          - rewrite Hvid, eventsDuration_stamp, <- Hdur. exact Hfit. }
        split.
        { exists (videoIndex s), (List.length taken). split; [lia|]. split.
          - rewrite Hvid. f_equal.
            rewrite Hi, firstn_plus in Hfirst. apply app_inv_head in Hfirst.
            symmetry. exact Hfirst.
          - rewrite <- Hi. exact Hfull. }
        exists (dayOffset s). split; [lia|]. split; [reflexivity | exact Hskip]. }
      split; [apply calendar_set_NoDup, Hnd|]. split.
      { pose proof (calendar_set_length (calendar s) (dateKey host (dayOffset s))
                      (dailyVideos day)). lia. }
      pose proof (calendar_set_events_length (calendar s) (dateKey host (dayOffset s))
                    (dailyVideos day)). lia.
    + apply Nat.ltb_ge in Hnonempty.
      split; [exact Hmono|]. split; [exact Hnd|]. split; lia.
Qed.

Lemma scheduleLoop_inv :
  ScheduleInv host allVideos dailySeconds (scheduleLoop host allVideos dailySeconds).
Proof.
  unfold scheduleLoop. apply while_invariant.
  - apply schedule_body_inv.
  - unfold ScheduleInv; simpl.
    repeat split; try lia; constructor.
Qed.

(** Thirty iterations let the outer loop reach its exit. *)
Lemma scheduleLoop_exit :
  schedule_cond allVideos (scheduleLoop host allVideos dailySeconds) = false.
Proof.
  unfold scheduleLoop.
  apply (while_exit (fun s => Z.to_nat (30 - dayOffset s))).
  - intros s Hcond. unfold schedule_cond in Hcond.
    apply andb_true_iff in Hcond as [_ Hlt]. apply Z.ltb_lt in Hlt.
    rewrite schedule_body_eq.
    destruct (skipped host (dayOffset s)); cbn [dayOffset]; lia.
  - simpl. lia.
Qed.

(** The loop stops because thirty rounds were made or because no video is
    left. *)
Lemma scheduleLoop_stop :
  dayOffset (scheduleLoop host allVideos dailySeconds) = 30
  \/ videoIndex (scheduleLoop host allVideos dailySeconds) = List.length allVideos.
Proof.
  pose proof scheduleLoop_exit as Hexit.
  destruct scheduleLoop_inv as [Hoff [Hidx _]].
  unfold schedule_cond in Hexit. apply andb_false_iff in Hexit as [H|H].
  - right. apply Nat.ltb_ge in H. lia.
  - left. apply Z.ltb_ge in H. lia.
Qed.





End ScheduleLoop.

(** ** The two packing rules *)




(** ** The calendar of [generateAutoSchedule] *)

Lemma scheduleRun_inv (host : Host) (roadmap : Preview.t) (dailyHours : Q) :
  ScheduleInv host (sortedVideos roadmap) (dailySecondsOf dailyHours)
    (scheduleRun host roadmap dailyHours).
Proof. apply scheduleLoop_inv. Qed.



(** The greedy packing of the worked scenario, computed from the
    specification's rule alone. *)
Example greedyPack_scenario :
  List.map (fun day => (fst day, List.map CalendarEvent.id (snd day)))
    (greedyPack 3600 [20094; 20095; 20096] (sortedVideos Sample.threeCoreVideos) [])
  = [(20094, ["a1"; "a2"]); (20095, ["a3"])].
Proof. vm_compute. reflexivity. Qed.

(** The second test shows on a video of zero duration: with one hour a day,
    after a video of one hour the day is full, and a video of zero duration
    waits for the next day, where the specification's rule would add it to
    the first. *)
Example full_day_defers_zero_duration :
  let roadmap :=
    {| Preview.id := "preview"; Preview.title := "Merged: Z"; Preview.description := "";
       Preview.estimatedDuration := 3600;
       Preview.branches :=
         [Sample.branch "Z" 3600
            [Sample.video "z1" 3600 true; Sample.video "z2" 0 true]] |} in
  List.map (fun day => (fst day, List.map CalendarEvent.id (snd day)))
    (generateAutoSchedule Sample.mondayUTC roadmap 1)
  = [(20094, ["z1"]); (20095, ["z2"])]
  /\ List.map (fun day => (fst day, List.map CalendarEvent.id (snd day)))
       (greedyPack (dailySecondsOf 1) (eligibleDays Sample.mondayUTC)
          (sortedVideos roadmap) [])
     = [(20094, ["z1"; "z2"])].
Proof. vm_compute. split; reflexivity. Qed.

(** The worked scheduling scenario: three core videos of 1800 s with one
    hour a day, started on a Monday on a UTC host. *)
Example schedule_scenario :
  List.map (fun day => (fst day, List.map CalendarEvent.id (snd day)))
    (generateAutoSchedule Sample.mondayUTC Sample.threeCoreVideos 1)
  = [(20094, ["a1"; "a2"]); (20095, ["a3"])].
Proof. vm_compute. reflexivity. Qed.

(** A video that fills the day to the second is taken: with a budget
    written [0.3333333333333333] hours, 1200 seconds fit in a day. *)
Example schedule_scenario_a_third :
  List.map (fun day => (fst day, List.map CalendarEvent.id (snd day)))
    (generateAutoSchedule Sample.mondayUTC
       {| Preview.id := "preview"; Preview.title := "Merged: G";
          Preview.description := ""; Preview.estimatedDuration := 7200;
          Preview.branches := generatedBranches |}
       Sample.oneThird)
  = [(20094, ["video_1"]); (20095, ["video_2"])].
Proof. vm_compute. reflexivity. Qed.

(** Across a change of clocks two local days can have the same UTC date:
    in Cairo, started on Thursday 2024-04-25 at 02:30 with half an hour a
    day, Thursday's video is written under 2024-04-25 and Friday's video
    takes its place under the same key; the third video, scheduled on
    Monday, gets Sunday's date as its key. *)
Example schedule_scenario_clock_change :
  let run := scheduleRun Sample.cairoSpring Sample.threeCoreVideos (1 # 2) in
  List.map (dateKey Sample.cairoSpring) [0; 1; 4] = [19838; 19838; 19841]
  /\ List.map (fun day => (fst day, List.map CalendarEvent.id (snd day))) (calendar run)
     = [(19838, ["a2"]); (19841, ["a3"])]
  /\ videoIndex run = 3%nat
  /\ dayOffset run = 5
  /\ Date.WeekDay 19841 = 0.
Proof. vm_compute. repeat split; reflexivity. Qed.

(** ** Weekends *)

(** On a host where the date key of every round is the local date of that
    round, no date key is a Saturday or a Sunday. *)
Lemma weekend_skip_when_dates_agree (host : Host) (roadmap : Preview.t) (dailyHours : Q) :
  keysAreLocalDates host = true ->
  Forall (fun day => is_weekend (fst day) = false)
    (generateAutoSchedule host roadmap dailyHours).
Proof.
  intros Hagree.
  destruct (scheduleRun_inv host roadmap dailyHours) as [Hoff [_ [Hok _]]].
  eapply List.Forall_impl; [|exact Hok].
  intros day [_ [_ [_ [j [Hj [Hkey Hskip]]]]]].
  pose proof (dayOffsets_forallb _ Hagree j ltac:(lia)) as Hlocal.
  apply Z.eqb_eq in Hlocal.
  unfold skipped, Date.getDay in Hskip.
  fold (localDay host j) in Hskip. rewrite <- Hlocal, <- Hkey in Hskip.
  exact Hskip.
Qed.

Lemma utc_host_keys_are_local_dates (host : Host) :
  (forall t isUTC, LocalTZA host t isUTC = 0) -> keysAreLocalDates host = true.
Proof.
  intros Hutc. unfold keysAreLocalDates. apply forallb_forall. intros j _.
  apply Z.eqb_eq.
  unfold dateKey, localDay, Date.toISODate, Date.LocalTime.
  rewrite Hutc, Z.add_0_r. reflexivity.
Qed.

Lemma weekend_skip_on_utc_host (host : Host) (roadmap : Preview.t) (dailyHours : Q) :
  (forall t isUTC, LocalTZA host t isUTC = 0) ->
  Forall (fun day => is_weekend (fst day) = false)
    (generateAutoSchedule host roadmap dailyHours).
Proof.
  intros Hutc. apply weekend_skip_when_dates_agree, utc_host_keys_are_local_dates, Hutc.
Qed.

(** C7, at the failing input: on a host five hours behind UTC, started on a
    Friday at 23:00 local time, the first day scheduled is that Friday
    ([getDay] answers 5), and its key, taken from the UTC date, is day 20092,
    2025-01-04, a Saturday. *)
Theorem weekend_key_on_non_utc_host :
  let host := Sample.fridayNightUTCminus5 in
  let cal := generateAutoSchedule host Sample.threeCoreVideos 1 in
  Date.getDay host (now host) = 5
  /\ List.map fst cal = [20092; 20095]
  /\ Date.WeekDay 20092 = 6
  /\ existsb (fun day => is_weekend (fst day)) cal = true.
Proof. vm_compute. repeat split; reflexivity. Qed.

(** ** The thirty-day cap *)

Lemma videosDuration_partition (f : TaggedVideo.t -> bool) (l : list TaggedVideo.t) :
  videosDuration (List.filter f l ++ List.filter (fun v => negb (f v)) l)
  = videosDuration l.
Proof.
  rewrite videosDuration_app. unfold videosDuration.
  induction l as [|x l IH]; simpl; [reflexivity|].
  destruct (f x); simpl; lia.
Qed.

Lemma videosDuration_sorted (roadmap : Preview.t) :
  videosDuration (sortedVideos roadmap) = videosDuration (flattenVideos roadmap).
Proof.
  unfold sortedVideos. rewrite sort_coreFirst_partition.
  apply videosDuration_partition.
Qed.

Section DayCap.

Variable host : Host.
Variable allVideos : list TaggedVideo.t.
Variable dailySeconds : Q.
Hypothesis Hbudget : (0 <= dailySeconds)%Q.

(** The videos passed after [dayOffset] rounds last at most [dayOffset]
    daily budgets. *)
Lemma scheduleLoop_capacity :
  let s := scheduleLoop host allVideos dailySeconds in
  (inject_Z (videosDuration (firstn (videoIndex s) allVideos))
   <= inject_Z (dayOffset s) * dailySeconds)%Q.
Proof.
  cbv zeta.
  enough (H : (fun s => (videoIndex s <= List.length allVideos)%nat
                        /\ (inject_Z (videosDuration (firstn (videoIndex s) allVideos))
                            <= inject_Z (dayOffset s) * dailySeconds)%Q)
                (scheduleLoop host allVideos dailySeconds)) by apply H.
  unfold scheduleLoop. apply while_invariant.
  - intros s [Hidx Hsum] _. rewrite schedule_body_eq.
    destruct (skipped host (dayOffset s)); cbn [videoIndex dayOffset].
    + split; [exact Hidx|]. rewrite inject_Z_plus.
      revert Hsum. generalize (inject_Z (dayOffset s)).
      generalize (inject_Z (videosDuration (firstn (videoIndex s) allVideos))).
      intros x o Hsum. change (inject_Z 1) with 1%Q. nra.
    + destruct (fillDay_inv allVideos dailySeconds (videoIndex s) Hidx)
        as [taken [Hfirst [_ [Hl [_ [Hdur [Hfit _]]]]]]].
      split; [exact Hl|].
      rewrite Hfirst, videosDuration_app, !inject_Z_plus.
      assert (Hday : (inject_Z (videosDuration taken) <= dailySeconds)%Q).
      { destruct Hfit as [-> | Hfit]; [exact Hbudget|]. rewrite <- Hdur. exact Hfit. }
      revert Hsum Hday. generalize (inject_Z (dayOffset s)).
      generalize (inject_Z (videosDuration (firstn (videoIndex s) allVideos))).
      generalize (inject_Z (videosDuration taken)).
      intros t x o Hsum Hday. change (inject_Z 1) with 1%Q. nra.
  - cbn [videoIndex dayOffset]. split; [lia|].
    change (firstn 0 allVideos) with (@nil TaggedVideo.t).
    change (inject_Z (videosDuration [])) with 0%Q.
    change (inject_Z 0) with 0%Q. lra.
Qed.

(** When the videos last longer than thirty daily budgets, the loop runs to
    the cap and videos are left over. *)
Lemma scheduleLoop_overload :
  (30 * dailySeconds < inject_Z (videosDuration allVideos))%Q ->
  dayOffset (scheduleLoop host allVideos dailySeconds) = 30
  /\ (videoIndex (scheduleLoop host allVideos dailySeconds) < List.length allVideos)%nat.
Proof.
  intros Htotal.
  pose proof scheduleLoop_capacity as Hcap. cbv zeta in Hcap.
  destruct (scheduleLoop_inv host allVideos dailySeconds) as [Hoff [Hidx _]].
  assert (Hlt : (videoIndex (scheduleLoop host allVideos dailySeconds)
                 < List.length allVideos)%nat).
  { destruct (Nat.lt_ge_cases (videoIndex (scheduleLoop host allVideos dailySeconds))
                (List.length allVideos)) as [H|H]; [exact H|].
    exfalso. rewrite firstn_all2 in Hcap by exact H.
    assert (Hdays : (inject_Z (dayOffset (scheduleLoop host allVideos dailySeconds))
                       * dailySeconds <= 30 * dailySeconds)%Q).
    { apply Qmult_le_compat_r; [|exact Hbudget].
      change 30%Q with (inject_Z 30). rewrite <- Zle_Qle. lia. }
    lra. }
  split; [|exact Hlt].
  destruct (scheduleLoop_stop host allVideos dailySeconds) as [H|H]; [exact H | lia].
Qed.

End DayCap.

(** C8: the scheduler makes at most 30 rounds, one calendar day each, and
    stops earlier only when no video is left; the calendar has at most 30
    date keys, pairwise distinct, every key holds at least one video, and
    every key is the date of a round that was made and not skipped.  When
    the videos last longer than 30 daily budgets (the budget being the number
    [dailyHours * 3600] as the program computes it), all 30 rounds are made
    and videos are left over: the scheduler stands before the last video, the
    calendar holds fewer events than there are videos, and every day holds
    videos from before the position where the scheduler stands. *)
Theorem schedule_day_cap (host : Host) (roadmap : Preview.t) (dailyHours : Q) :
  let budget := JS.binary64 (dailyHours * 3600)%Q in
  let run := scheduleRun host roadmap dailyHours in
  let cal := generateAutoSchedule host roadmap dailyHours in
  0 <= dayOffset run <= 30
  /\ (dayOffset run = 30 \/ videoIndex run = List.length (sortedVideos roadmap))
  /\ (List.length cal <= 30)%nat
  /\ List.NoDup (List.map fst cal)
  /\ Forall (fun day =>
               snd day <> []
               /\ exists j : Z,
                    0 <= j < dayOffset run
                    /\ fst day = dateKey host j
                    /\ skipped host j = false) cal
  /\ ((0 <= dailyHours)%Q ->
      (30 * budget < inject_Z (videosDuration (flattenVideos roadmap)))%Q ->
      dayOffset run = 30
      /\ (videoIndex run < List.length (sortedVideos roadmap))%nat
      /\ (List.length (calendarEvents cal) < List.length (sortedVideos roadmap))%nat
      /\ Forall (fun day =>
                   exists start n : nat,
                     (start + n <= videoIndex run)%nat
                     /\ snd day
                        = List.map stampVideo
                            (firstn n (skipn start (sortedVideos roadmap)))) cal).
Proof.
  cbv zeta.
  destruct (scheduleRun_inv host roadmap dailyHours)
    as [Hoff [Hidx [Hok [Hnd [Hlen Hcount]]]]].
  fold (generateAutoSchedule host roadmap dailyHours) in Hok, Hnd, Hlen, Hcount.
  split; [exact Hoff|]. split; [apply scheduleLoop_stop|].
  split; [lia|]. split; [exact Hnd|]. split.
  { eapply List.Forall_impl; [|exact Hok].
    intros day [Hne [_ [_ Hkey]]]. split; assumption. }
  intros Hpos Htotal.
  change (JS.binary64 (dailyHours * 3600)%Q) with (dailySecondsOf dailyHours) in Htotal.
  assert (Hbudget : (0 <= dailySecondsOf dailyHours)%Q).
  { unfold dailySecondsOf. apply binary64_nonneg. lra. }
  rewrite <- videosDuration_sorted in Htotal.
  destruct (scheduleLoop_overload host (sortedVideos roadmap)
              (dailySecondsOf dailyHours) Hbudget Htotal) as [H30 Hlt].
  split; [exact H30|]. split; [exact Hlt|]. split.
  { unfold scheduleRun in Hcount. lia. }
  eapply List.Forall_impl; [|exact Hok].
  intros day [_ [_ [[start [n [Hle [Hrun _]]]] _]]].
  exists start, n. split; assumption.
Qed.

(** Forty-five videos of an hour each with one hour a day, started on a
    Monday: the 22 working days of the 30-day window take one video each. *)
Example schedule_cap_scenario :
  let run := scheduleRun Sample.mondayUTC Sample.longCourse 1 in
  List.length (sortedVideos Sample.longCourse) = 45%nat
  /\ dayOffset run = 30
  /\ videoIndex run = 22%nat
  /\ List.length (calendar run) = 22%nat
  /\ List.map CalendarEvent.id (calendarEvents (calendar run))
     = List.map (fun i => "u" +:+ pretty i) (seq 1 22).
Proof. vm_compute. repeat split; reflexivity. Qed.

Lemma schedule_day_cap_witness :
  let run := scheduleRun Sample.mondayUTC Sample.longCourse 1 in
  let cal := generateAutoSchedule Sample.mondayUTC Sample.longCourse 1 in
  dayOffset run = 30
  /\ (videoIndex run < List.length (sortedVideos Sample.longCourse))%nat
  /\ (List.length (calendarEvents cal) < List.length (sortedVideos Sample.longCourse))%nat
  /\ Forall (fun day =>
               exists start n : nat,
                 (start + n <= videoIndex run)%nat
                 /\ snd day
                    = List.map stampVideo
                        (firstn n (skipn start (sortedVideos Sample.longCourse)))) cal.
Proof.
  apply (proj2 (proj2 (proj2 (proj2 (proj2
           (schedule_day_cap Sample.mondayUTC Sample.longCourse 1)))))).
  - unfold Qle. simpl. lia.
  - vm_compute. reflexivity.
Defined.

(** ** A video that exceeds the daily budget *)

Section Oversized.

Variable host : Host.
Variable allVideos : list TaggedVideo.t.
Variable dailySeconds : Q.
Variable k : nat.
Variable big : TaggedVideo.t.
Hypothesis Hbig : nth_error allVideos k = Some big.
Hypothesis Hover : (dailySeconds < inject_Z (TaggedVideo.duration big))%Q.
Hypothesis Hnonneg : Forall (fun u => 0 <= TaggedVideo.duration u) (firstn k allVideos).

Lemma fillDay_blocked (start : nat) :
  (start <= k)%nat ->
  (dayVideoIndex (fillDay allVideos dailySeconds start) <= k)%nat.
Proof.
  intros Hstart.
  assert (Hlen : (k < List.length allVideos)%nat).
  { apply nth_error_Some. rewrite Hbig. discriminate. }
  enough (H : DayInv allVideos dailySeconds start (fillDay allVideos dailySeconds start)
              /\ (dayVideoIndex (fillDay allVideos dailySeconds start) <= k)%nat)
    by apply H.
  unfold fillDay.
  apply (while_invariant
           (fun s => DayInv allVideos dailySeconds start s /\ (dayVideoIndex s <= k)%nat)).
  - intros s [Hinv Hk] Hcond. split; [apply day_body_inv; assumption|].
    destruct Hinv as [taken [Hfirst [_ [_ [_ [Hdur _]]]]]].
    unfold day_body.
    destruct (nth_error allVideos (dayVideoIndex s)) as [video|] eqn:Hnth; [|exact Hk].
    destruct (Qle_bool _ dailySeconds) eqn:Hle; simpl; [|exact Hk].
    destruct (Nat.eq_dec (dayVideoIndex s) k) as [Heq|Hne]; [|lia].
    exfalso. rewrite Heq, Hbig in Hnth. injection Hnth as <-.
    apply Qle_bool_iff in Hle.
    assert (Hsum : 0 <= videosDuration taken).
    { apply videosDuration_nonneg. rewrite List.Forall_forall in *. intros u Hu.
      apply Hnonneg. rewrite <- Heq, Hfirst. apply in_or_app. right. exact Hu. }
    assert (Hlt : (inject_Z (dailyDuration s + TaggedVideo.duration big)
                   < inject_Z (TaggedVideo.duration big))%Q) by lra.
    rewrite <- Zlt_Qlt in Hlt. lia.
  - split; [|exact Hstart]. exists []. simpl. rewrite app_nil_r.
    repeat split; try lia; try reflexivity. left. reflexivity.
Qed.

Lemma scheduleLoop_blocked :
  (videoIndex (scheduleLoop host allVideos dailySeconds) <= k)%nat
  /\ dayOffset (scheduleLoop host allVideos dailySeconds) = 30.
Proof.
  assert (Hk : (videoIndex (scheduleLoop host allVideos dailySeconds) <= k)%nat).
  { unfold scheduleLoop.
    apply (while_invariant (fun s => (videoIndex s <= k)%nat)); [|simpl; lia].
    intros s Hs _. rewrite schedule_body_eq.
    destruct (skipped host (dayOffset s)); cbn [videoIndex].
    - exact Hs.
    - apply fillDay_blocked, Hs. }
  split; [exact Hk|].
  assert (Hlen : (k < List.length allVideos)%nat).
  { apply nth_error_Some. rewrite Hbig. discriminate. }
  destruct (scheduleLoop_stop host allVideos dailySeconds) as [H|H]; [exact H | lia].
Qed.

End Oversized.

(** An event of the calendar is the stamped video of some position below
    the one where the scheduler stands. *)
Lemma calendar_event_position
    (host : Host) (roadmap : Preview.t) (dailyHours : Q) (e : CalendarEvent.t) :
  In e (calendarEvents (generateAutoSchedule host roadmap dailyHours)) ->
  exists (q : nat) (u : TaggedVideo.t),
    (q < videoIndex (scheduleRun host roadmap dailyHours))%nat
    /\ nth_error (sortedVideos roadmap) q = Some u
    /\ e = stampVideo u.
Proof.
  intros Hin. unfold calendarEvents in Hin.
  apply in_flat_map in Hin as [day [Hday He]].
  destruct (scheduleRun_inv host roadmap dailyHours) as [_ [_ [Hok _]]].
  rewrite List.Forall_forall in Hok.
  destruct (Hok day Hday) as [_ [_ [[start [n [Hle [Hrun _]]]] _]]].
  rewrite Hrun in He. apply in_map_iff in He as [u [<- Hu]].
  apply In_run in Hu as [q [Hq Hnth]].
  exists q, u. split; [lia|]. split; [exact Hnth | reflexivity].
Qed.

(** C10, as the claim states it, fails: a video with a negative duration in
    front of the long one makes room for it.  With one hour a day, the
    second video of the sorted sequence lasts 4000 s, more than the budget
    of 3600 s, and yet the calendar holds all three videos on the first
    day. *)
Lemma oversized_video_scheduled_after_negative_duration :
  let roadmap := Sample.negativeDuration in
  let cal := generateAutoSchedule Sample.mondayUTC roadmap 1 in
  (JS.binary64 (1 * 3600) == 3600)%Q
  /\ option_map TaggedVideo.duration (nth_error (sortedVideos roadmap) 1) = Some 4000
  /\ List.map (fun day => (fst day, List.map CalendarEvent.id (snd day))) cal
     = [(20094, ["n1"; "n2"; "n3"])]
  /\ dayOffset (scheduleRun Sample.mondayUTC roadmap 1) = 1.
Proof. vm_compute. repeat split; reflexivity. Qed.

(** C10, amended: if the video at position [k] of the sorted sequence is
    longer than the daily budget (the number [dailyHours * 3600] as the
    program computes it) and no video before it has a negative duration,
    the scheduler never gets past position [k]: it makes all 30 rounds, the
    calendar holds at most [k] events, every day holds videos from before
    position [k] only, and, the ids of the videos being distinct, the video
    at position [k] and every later one is in no day. *)
Theorem oversized_video_blocks_schedule
    (host : Host) (roadmap : Preview.t) (dailyHours : Q) (k : nat) (big : TaggedVideo.t) :
  nth_error (sortedVideos roadmap) k = Some big ->
  (JS.binary64 (dailyHours * 3600) < inject_Z (TaggedVideo.duration big))%Q ->
  Forall (fun u => 0 <= TaggedVideo.duration u) (firstn k (sortedVideos roadmap)) ->
  let run := scheduleRun host roadmap dailyHours in
  let cal := generateAutoSchedule host roadmap dailyHours in
  dayOffset run = 30
  /\ (videoIndex run <= k)%nat
  /\ (List.length (calendarEvents cal) <= k)%nat
  /\ Forall (fun day =>
               exists start n : nat,
                 (start + n <= k)%nat
                 /\ snd day
                    = List.map stampVideo
                        (firstn n (skipn start (sortedVideos roadmap)))) cal
  /\ (List.NoDup (List.map TaggedVideo.id (sortedVideos roadmap)) ->
      forall (p : nat) (v : TaggedVideo.t),
        (k <= p)%nat -> nth_error (sortedVideos roadmap) p = Some v ->
        ~ In (stampVideo v) (calendarEvents cal)).
Proof.
  intros Hbig Hover Hnonneg. cbv zeta.
  change (JS.binary64 (dailyHours * 3600)%Q) with (dailySecondsOf dailyHours) in Hover.
  destruct (scheduleLoop_blocked host (sortedVideos roadmap)
              (dailySecondsOf dailyHours) k big Hbig Hover Hnonneg) as [Hk Hoff].
  fold (scheduleRun host roadmap dailyHours) in Hk, Hoff.
  destruct (scheduleRun_inv host roadmap dailyHours)
    as [_ [_ [Hok [_ [_ Hcount]]]]].
  fold (generateAutoSchedule host roadmap dailyHours) in Hok, Hcount.
  split; [exact Hoff|]. split; [exact Hk|]. split; [lia|]. split.
  { eapply List.Forall_impl; [|exact Hok].
    intros day [_ [_ [[start [n [Hle [Hrun _]]]] _]]].
    exists start, n. split; [lia | exact Hrun]. }
  intros Hids p v Hp Hv Hin.
  apply calendar_event_position in Hin as [q [u [Hq [Hu Heq]]]].
  assert (Hid : TaggedVideo.id u = TaggedVideo.id v).
  { apply (f_equal CalendarEvent.id) in Heq. simpl in Heq. congruence. }
  rewrite List.NoDup_nth_error in Hids.
  assert (Hqp : q = p).
  { apply Hids.
    - rewrite List.length_map. apply nth_error_Some. rewrite Hu. discriminate.
    - rewrite !nth_error_map, Hu, Hv. simpl. f_equal. exact Hid. }
  lia.
Qed.

(** A two-hour video between two short ones, with one hour a day: the first
    video is scheduled, the other two never are, although the third would
    fit in a day. *)
Example blocked_scenario :
  let run := scheduleRun Sample.mondayUTC Sample.blockedCourse 1 in
  List.map TaggedVideo.id (sortedVideos Sample.blockedCourse) = ["b1"; "b2"; "b3"]
  /\ List.map (fun day => (fst day, List.map CalendarEvent.id (snd day))) (calendar run)
     = [(20094, ["b1"])]
  /\ videoIndex run = 1%nat
  /\ dayOffset run = 30.
Proof. vm_compute. repeat split; reflexivity. Qed.

Lemma oversized_video_blocks_schedule_witness :
  let roadmap := Sample.blockedCourse in
  let cal := generateAutoSchedule Sample.mondayUTC roadmap 1 in
  dayOffset (scheduleRun Sample.mondayUTC roadmap 1) = 30
  /\ (List.length (calendarEvents cal) <= 1)%nat
  /\ ~ In (stampVideo (tagVideo (Sample.branch "B" 9600 []) (Sample.video "b3" 600 true)))
          (calendarEvents cal).
Proof.
  pose proof (oversized_video_blocks_schedule
                Sample.mondayUTC Sample.blockedCourse 1 1%nat
                (tagVideo (Sample.branch "B" 9600 []) (Sample.video "b2" 7200 true))
                eq_refl) as H.
  destruct H as [Hoff [_ [Hcount [_ Habsent]]]].
  - vm_compute. reflexivity.
  - simpl. repeat constructor. simpl. lia.
  - split; [exact Hoff|]. split; [exact Hcount|].
    apply (Habsent ltac:(vm_compute; repeat constructor; simpl; intuition discriminate)
             2%nat); [lia | reflexivity].
Defined.

(** ** A budget that is not positive *)

Lemma fillDay_no_budget (allVideos : list TaggedVideo.t) (dailySeconds : Q) (start : nat) :
  (dailySeconds <= 0)%Q ->
  fillDay allVideos dailySeconds start
  = {| dailyVideos := []; dailyDuration := 0; dayVideoIndex := start; broke := false |}.
Proof.
  intros Hle. unfold fillDay. simpl. unfold day_cond at 1. simpl.
  replace (Qlt_bool (inject_Z 0) dailySeconds) with false.
  - rewrite andb_false_r. reflexivity.
  - symmetry. apply not_true_is_false. intros H. apply Qlt_bool_iff in H.
    change (inject_Z 0) with 0%Q in H. lra.
Qed.

Lemma dailySecondsOf_nonpos (dailyHours : Q) :
  (dailyHours <= 0)%Q -> (dailySecondsOf dailyHours <= 0)%Q.
Proof. intros H. unfold dailySecondsOf. apply binary64_nonpos. lra. Qed.


Lemma schedule_nothing_without_budget (host : Host) (roadmap : Preview.t) (dailyHours : Q) :
  (dailyHours <= 0)%Q ->
  calendar (scheduleRun host roadmap dailyHours) = []
  /\ videoIndex (scheduleRun host roadmap dailyHours) = 0%nat.
Proof.
  intros Hle. unfold scheduleRun, scheduleLoop.
  apply (while_invariant (fun s => calendar s = [] /\ videoIndex s = 0%nat));
    [|split; reflexivity].
  intros s [Hcal Hidx] _. rewrite schedule_body_eq.
  destruct (skipped host (dayOffset s)); cbn [calendar videoIndex]; [split; assumption|].
  rewrite fillDay_no_budget by (apply dailySecondsOf_nonpos, Hle).
  cbn [dailyVideos dayVideoIndex List.length]. split; assumption.
Qed.

Lemma schedule_empty_without_budget (host : Host) (roadmap : Preview.t) (dailyHours : Q) :
  (dailyHours <= 0)%Q -> generateAutoSchedule host roadmap dailyHours = [].
Proof. intros Hle. apply schedule_nothing_without_budget, Hle. Qed.

(** ** Route handlers *)

(** C4, as the claim states it, fails: a request in which a single roadmap
    id resolves is answered with 200 by both handlers, after deduplication
    and statistics have been computed for that one roadmap. *)
Lemma handlers_accept_single_source :
  let ids := roadmap_ids Sample.negativeHours in
  List.length (filter_Boolean (List.map (getRoadmap Sample.storage) ids)) = 1%nat
  /\ is_client_error (previewHandler Sample.storage ids) = false
  /\ status (previewHandler Sample.storage ids) = 200
  /\ Statistics.original_roadmaps
       (body_statistics (body (previewHandler Sample.storage ids))) = 1%nat
  /\ is_client_error
       (snd (mergeHandler Sample.mondayUTC 0 0 Sample.storage Sample.negativeHours)) = false.
Proof. vm_compute. repeat split; reflexivity. Qed.

(** C4, amended: the handlers reject no request on account of the number of
    roadmap ids that resolve.  The preview handler answers 200 with the
    preview and statistics computed over the roadmaps that did resolve,
    however few; the merge handler answers 200 with a merged roadmap built
    from that preview, which it has stored. *)
Theorem handlers_accept_any_source_count :
  (forall (storage : MemStorage) (ids : list string),
     let valid := filter_Boolean (List.map (getRoadmap storage) ids) in
     status (previewHandler storage ids) = 200
     /\ is_client_error (previewHandler storage ids) = false
     /\ body (previewHandler storage ids)
        = {| body_preview := preview valid; body_statistics := statistics valid |})
  /\ (forall (host : Host) (time createdAt : Z) (storage : MemStorage) (req : MergeRequest),
        let valid := filter_Boolean (List.map (getRoadmap storage) (roadmap_ids req)) in
        let result := mergeHandler host time createdAt storage req in
        let merged := merged_roadmap (body (snd result)) in
        status (snd result) = 200
        /\ is_client_error (snd result) = false
        /\ MergedRoadmap.branches merged = Preview.branches (preview valid)
        /\ MergedRoadmap.estimatedDuration merged = Preview.estimatedDuration (preview valid)
        /\ mergedRoadmaps (fst result) !! MergedRoadmap.id merged = Some merged).
Proof.
  split.
  - intros storage ids. simpl. repeat split; reflexivity.
  - intros host time createdAt storage req. simpl. repeat split; try reflexivity.
    apply lookup_insert_eq.
Qed.

(** C3, as the claim states it, fails: a merge request with -1 daily study
    hours is answered with 200, and the scheduler is called with -1. *)
Lemma merge_accepts_negative_hours :
  let result := mergeHandler Sample.mondayUTC 0 0 Sample.storage Sample.negativeHours in
  daily_study_hours Sample.negativeHours = Some (-1)%Q
  /\ is_client_error (snd result) = false
  /\ status (snd result) = 200
  /\ schedulerArgument Sample.negativeHours = Some (-1)%Q
  /\ MergedRoadmap.calendar (merged_roadmap (body (snd result))) = Some [].
Proof. vm_compute. repeat split; reflexivity. Qed.

(** C3, amended: the merge handler rejects no request on account of its
    daily study hours; it always answers 200.  When a calendar is asked for,
    absent or zero hours are replaced by 1.0 before the scheduler is called,
    and negative hours are passed to the scheduler as they are, which then
    returns an empty calendar. *)
Theorem merge_daily_hours_defaulted_not_rejected
    (host : Host) (time createdAt : Z) (storage : MemStorage) (req : MergeRequest) :
  let result := snd (mergeHandler host time createdAt storage req) in
  let preview := body_preview (body (previewHandler storage (roadmap_ids req))) in
  status result = 200
  /\ MergedRoadmap.calendar (merged_roadmap (body result))
     = option_map (generateAutoSchedule host preview) (schedulerArgument req)
  /\ (schedule_mode req = "auto" -> calendar_view req = true ->
      (daily_study_hours req = None -> schedulerArgument req = Some 1%Q)
      /\ (forall h, daily_study_hours req = Some h -> (h == 0)%Q ->
                    schedulerArgument req = Some 1%Q)
      /\ (forall h, daily_study_hours req = Some h -> (h < 0)%Q ->
                    schedulerArgument req = Some h
                    /\ MergedRoadmap.calendar (merged_roadmap (body result)) = Some [])).
Proof.
  simpl. split; [reflexivity|]. split.
  { destruct (schedulerArgument req); reflexivity. }
  intros Hmode Hview. unfold schedulerArgument. rewrite Hmode, Hview. simpl.
  split; [intros ->; reflexivity|]. split.
  - intros h -> Hzero. simpl. apply Qeq_bool_iff in Hzero. rewrite Hzero. reflexivity.
  - intros h -> Hneg. simpl.
    assert (Hnz : Qeq_bool h 0 = false).
    { apply not_true_is_false. intros H. apply Qeq_bool_iff in H. lra. }
    rewrite Hnz. split; [reflexivity|].
    f_equal. apply schedule_empty_without_budget. lra.
Qed.

Lemma merge_daily_hours_defaulted_not_rejected_witness :
  MergedRoadmap.calendar
    (merged_roadmap
       (body (snd (mergeHandler Sample.mondayUTC 0 0 Sample.storage Sample.negativeHours))))
  = Some [].
Proof.
  apply (proj2 (proj2 (proj2 (proj2
           (merge_daily_hours_defaulted_not_rejected
              Sample.mondayUTC 0 0 Sample.storage Sample.negativeHours))
           eq_refl eq_refl)) (-1)%Q eq_refl).
  vm_compute. reflexivity.
Defined.

(** * Further properties of the merge preview *)

Lemma keepFirst_sublist (seen : list string) (bs : list RoadmapBranch.t) :
  keepFirstByTitle seen bs `sublist_of` bs.
Proof.
  revert seen. induction bs as [|b bs IH]; intros seen; simpl.
  - constructor.
  - destruct (existsb _ seen); constructor; apply IH.
Qed.

(** X1: deduplication only removes branches: the preview's branches are the
    source branches with some left out, the others in their source order,
    so there are never more final branches than original ones. *)
Theorem uniqueBranches_sublist (rs : list Roadmap.t) :
  Preview.branches (preview rs) `sublist_of` flat_map Roadmap.branches rs
  /\ (Statistics.final_branches (statistics rs)
      <= Statistics.original_branches (statistics rs))%nat.
Proof.
  assert (H : uniqueBranches rs `sublist_of` allBranches rs).
  { rewrite uniqueBranches_keepFirst. apply keepFirst_sublist. }
  split; [exact H|]. simpl. apply sublist_length, H.
Qed.

(** X2: deduplication loses no title: a title is carried by a branch of the
    preview exactly when it is carried by a branch of some source roadmap. *)
Theorem uniqueBranches_titles_preserved (rs : list Roadmap.t) (t : string) :
  In t (List.map RoadmapBranch.title (Preview.branches (preview rs)))
  <-> In t (List.map RoadmapBranch.title (flat_map Roadmap.branches rs)).
Proof.
  simpl. rewrite uniqueBranches_keepFirst.
  destruct (keepFirst_titles (allBranches rs) []) as [_ H].
  rewrite H. unfold allBranches. simpl. tauto.
Qed.

Lemma keepFirst_ext (seen seen' : list string) (bs : list RoadmapBranch.t) :
  (forall t, In t seen <-> In t seen') ->
  keepFirstByTitle seen bs = keepFirstByTitle seen' bs.
Proof.
  revert seen seen'. induction bs as [|b bs IH]; intros seen seen' Hs; simpl.
  - reflexivity.
  - assert (E : existsb (String.eqb (RoadmapBranch.title b)) seen
                = existsb (String.eqb (RoadmapBranch.title b)) seen').
    { apply eq_true_iff_eq. rewrite !existsb_seen. apply Hs. }
    rewrite E. destruct (existsb _ seen').
    + apply IH, Hs.
    + f_equal. apply IH. intros t. simpl. rewrite Hs. reflexivity.
Qed.

Lemma keepFirst_app (seen : list string) (bs bs' : list RoadmapBranch.t) :
  keepFirstByTitle seen (bs ++ bs')
  = keepFirstByTitle seen bs
    ++ keepFirstByTitle (List.map RoadmapBranch.title bs ++ seen) bs'.
Proof.
  revert seen. induction bs as [|b bs IH]; intros seen; simpl.
  - reflexivity.
  - destruct (existsb (String.eqb (RoadmapBranch.title b)) seen) eqn:E.
    + rewrite IH. f_equal. apply keepFirst_ext. intros t. simpl.
      apply existsb_seen in E. rewrite !in_app_iff.
      split; [tauto|]. intros [H|H]; [|tauto]. subst t. tauto.
    + simpl. f_equal. rewrite IH. f_equal. apply keepFirst_ext. intros t.
      simpl. rewrite !in_app_iff. simpl. tauto.
Qed.

Lemma keepFirst_all_seen (seen : list string) (bs : list RoadmapBranch.t) :
  (forall t, In t (List.map RoadmapBranch.title bs) -> In t seen) ->
  keepFirstByTitle seen bs = [].
Proof.
  induction bs as [|b bs IH]; intros H; simpl; [reflexivity|].
  assert (E : existsb (String.eqb (RoadmapBranch.title b)) seen = true).
  { apply existsb_seen, H. left. reflexivity. }
  rewrite E. apply IH. intros t Ht. apply H. right. exact Ht.
Qed.

Lemma uniqueBranches_absorb (rs rs' : list Roadmap.t) :
  (forall t, In t (List.map RoadmapBranch.title (allBranches rs')) ->
             In t (List.map RoadmapBranch.title (allBranches rs))) ->
  uniqueBranches (rs ++ rs') = uniqueBranches rs.
Proof.
  intros H. rewrite !uniqueBranches_keepFirst. unfold allBranches in *.
  rewrite flat_map_app, keepFirst_app.
  rewrite (keepFirst_all_seen _ (flat_map Roadmap.branches rs')).
  - apply app_nil_r.
  - intros t Ht. rewrite app_nil_r. apply H, Ht.
Qed.

(** X3: roadmaps that come later in the request and bring no new branch
    title change nothing in the preview's branches; in particular merging a
    roadmap with itself gives the branches of merging it alone. *)
Theorem uniqueBranches_absorbs_known_titles (rs rs' : list Roadmap.t) :
  (forall t, In t (List.map RoadmapBranch.title (flat_map Roadmap.branches rs')) ->
             In t (List.map RoadmapBranch.title (flat_map Roadmap.branches rs))) ->
  Preview.branches (preview (rs ++ rs')) = Preview.branches (preview rs).
Proof. apply uniqueBranches_absorb. Qed.

Lemma uniqueBranches_absorbs_known_titles_witness :
  Preview.branches (preview ([Sample.R1; Sample.R2] ++ [Sample.R3; Sample.R1]))
  = Preview.branches (preview [Sample.R1; Sample.R2]).
Proof.
  apply (uniqueBranches_absorbs_known_titles [Sample.R1; Sample.R2] [Sample.R3; Sample.R1]).
  simpl. tauto.
Defined.

Lemma efficiency_of_ratio (saved total : Z) :
  total <> 0 ->
  JS.or_zero (JS.Math_round (JS.mul (JS.div saved total) (JS.ofZ 100)))
  = JS.ofZ (Qfloor (JS.binary64 (JS.binary64 (inject_Z saved / inject_Z total)
                                  * inject_Z 100) + (1 # 2))%Q).
Proof.
  intros H. unfold JS.div.
  destruct (total =? 0) eqn:E; [apply Z.eqb_eq in E; contradiction|].
  apply or_zero_ofZ.
Qed.

Lemma half_rounds_to_50 (T : Z) :
  0 < T ->
  Qfloor (JS.binary64 (JS.binary64 (inject_Z T / inject_Z (T + T)) * inject_Z 100)
          + (1 # 2))%Q = 50.
Proof.
  intros HT.
  assert (Hq : (inject_Z T / inject_Z (T + T) == 1 # 2)%Q).
  { rewrite inject_Z_plus.
    assert (Hx : ~ (inject_Z T == 0)%Q).
    { intros H. unfold Qeq in H. simpl in H. lia. }
    revert Hx. generalize (inject_Z T). intros x Hx.
    field. intros H. apply Hx. lra. }
  rewrite (binary64_Qeq _ _ Hq). vm_compute. reflexivity.
Qed.

(** X4: merging a roadmap with itself, when its branch titles are distinct,
    its estimate is the sum of its branches' estimates and that estimate is
    positive: the preview keeps each branch once, the duration saved is the
    roadmap's estimate, and the efficiency gain is 50. *)
Theorem merge_with_itself_gains_half (R : Roadmap.t) :
  List.NoDup (List.map RoadmapBranch.title (Roadmap.branches R)) ->
  estimate_consistent R ->
  0 < Roadmap.estimatedDuration R ->
  Preview.branches (preview [R; R]) = Roadmap.branches R
  /\ Statistics.original_duration (statistics [R; R]) = 2 * Roadmap.estimatedDuration R
  /\ Statistics.duration_saved (statistics [R; R]) = Roadmap.estimatedDuration R
  /\ Statistics.efficiency_gain (statistics [R; R]) = JS.ofZ 50.
Proof.
  intros Hnd Hcons Hpos.
  assert (Hu : uniqueBranches [R; R] = Roadmap.branches R).
  { change [R; R] with ([R] ++ [R]).
    rewrite (uniqueBranches_absorb [R] [R] (fun t H => H)), uniqueBranches_keepFirst. unfold allBranches. simpl.
    rewrite app_nil_r. apply keepFirst_distinct; [exact Hnd | intros t _ []]. }
  assert (Ht : totalDuration [R; R] = 2 * Roadmap.estimatedDuration R).
  { rewrite totalDuration_sum. unfold sumZ. simpl. lia. }
  assert (Ho : optimizedDuration [R; R] = Roadmap.estimatedDuration R).
  { rewrite optimizedDuration_sum, Hu. symmetry. exact Hcons. }
  split; [exact Hu|]. split; [exact Ht|]. split.
  { change (totalDuration [R; R] - optimizedDuration [R; R] = Roadmap.estimatedDuration R).
    rewrite Ht, Ho. lia. }
  change (JS.or_zero
            (JS.Math_round
               (JS.mul (JS.div (totalDuration [R; R] - optimizedDuration [R; R])
                               (totalDuration [R; R]))
                       (JS.ofZ 100)))
          = JS.ofZ 50).
  rewrite Ht, Ho.
  replace (2 * Roadmap.estimatedDuration R - Roadmap.estimatedDuration R)
    with (Roadmap.estimatedDuration R) by lia.
  replace (2 * Roadmap.estimatedDuration R)
    with (Roadmap.estimatedDuration R + Roadmap.estimatedDuration R) by lia.
  rewrite efficiency_of_ratio by lia.
  f_equal. apply half_rounds_to_50, Hpos.
Qed.

Lemma merge_with_itself_gains_half_witness :
  Statistics.efficiency_gain (statistics [Sample.R2; Sample.R2]) = JS.ofZ 50.
Proof.
  apply (merge_with_itself_gains_half Sample.R2).
  - simpl. constructor.
    + simpl. intros [H|[]]. discriminate H.
    + constructor; [intros [] | constructor].
  - reflexivity.
  - reflexivity.
Defined.

Lemma branchDurations_sublist (l1 l2 : list RoadmapBranch.t) :
  l1 `sublist_of` l2 ->
  Forall (fun b => 0 <= RoadmapBranch.estimatedDuration b) l2 ->
  0 <= branchDurations l1 <= branchDurations l2.
Proof.
  unfold branchDurations.
  induction 1 as [|x l1 l2 _ IH|x l1 l2 _ IH]; intros Hnn; simpl.
  - lia.
  - inversion Hnn as [|? ? Hx Hrest]; subst. specialize (IH Hrest). lia.
  - inversion Hnn as [|? ? Hx Hrest]; subst. specialize (IH Hrest). lia.
Qed.

Lemma percentage_bounds (saved total : Z) :
  0 <= saved <= total -> 0 < total ->
  0 <= Qfloor (JS.binary64 (JS.binary64 (inject_Z saved / inject_Z total)
                            * inject_Z 100) + (1 # 2))%Q <= 100.
Proof.
  intros Hs Ht.
  assert (Hb : (0 < inject_Z total)%Q).
  { change 0%Q with (inject_Z 0). rewrite <- Zlt_Qlt. exact Ht. }
  assert (Hlo : (0 <= inject_Z saved / inject_Z total)%Q).
  { apply Qle_shift_div_l; [exact Hb|]. rewrite Qmult_0_l.
    change 0%Q with (inject_Z 0). rewrite <- Zle_Qle. lia. }
  assert (Hhi : (inject_Z saved / inject_Z total <= 1)%Q).
  { apply Qle_shift_div_r; [exact Hb|]. rewrite Qmult_1_l.
    rewrite <- Zle_Qle. lia. }
  assert (Hlo' := binary64_nonneg _ Hlo).
  assert (Hhi' : (JS.binary64 (inject_Z saved / inject_Z total) <= inject_Z 1)%Q).
  { apply binary64_le_Z; [exact Hlo | exact Hhi | reflexivity]. }
  change (inject_Z 1) with 1%Q in Hhi'.
  revert Hlo' Hhi'. generalize (JS.binary64 (inject_Z saved / inject_Z total)).
  intros y Hlo' Hhi'.
  assert (Hlo2 : (0 <= y * inject_Z 100)%Q) by (change (inject_Z 100) with 100%Q; lra).
  assert (Hhi2 : (y * inject_Z 100 <= inject_Z 100)%Q)
    by (change (inject_Z 100) with 100%Q; lra).
  assert (Hlo3 := binary64_nonneg _ Hlo2).
  assert (Hhi3 := binary64_le_Z _ 100 Hlo2 Hhi2 eq_refl).
  revert Hlo3 Hhi3. generalize (JS.binary64 (y * inject_Z 100)). intros x Hlo3 Hhi3.
  change (inject_Z 100) with 100%Q in Hhi3.
  split.
  - change 0 with (Qfloor (inject_Z 0)). apply Qfloor_resp_le.
    change (inject_Z 0) with 0%Q. lra.
  - apply (Z.le_trans _ (Qfloor (201 # 2))); [|vm_compute; discriminate].
    apply Qfloor_resp_le. lra.
Qed.

(** X5: when every source roadmap's estimate is the sum of its branches'
    estimates and no branch estimate is negative, the duration saved lies
    between 0 and the original duration, and the efficiency gain is a whole
    number between 0 and 100. *)
Theorem duration_saved_bounds (rs : list Roadmap.t) :
  Forall estimate_consistent rs ->
  Forall (fun b => 0 <= RoadmapBranch.estimatedDuration b) (flat_map Roadmap.branches rs) ->
  0 <= Statistics.duration_saved (statistics rs)
       <= Statistics.original_duration (statistics rs)
  /\ exists n : Z,
       Statistics.efficiency_gain (statistics rs) = JS.ofZ n /\ 0 <= n <= 100.
Proof.
  intros Hcons Hnn.
  assert (Hbounds : 0 <= optimizedDuration rs <= totalDuration rs).
  { rewrite optimizedDuration_sum, totalDuration_sum,
      <- (branchDurations_flat_map rs Hcons).
    apply branchDurations_sublist; [|exact Hnn].
    rewrite uniqueBranches_keepFirst. apply keepFirst_sublist. }
  split.
  - change (0 <= totalDuration rs - optimizedDuration rs <= totalDuration rs). lia.
  - change (exists n : Z,
              JS.or_zero
                (JS.Math_round
                   (JS.mul (JS.div (totalDuration rs - optimizedDuration rs)
                                   (totalDuration rs))
                           (JS.ofZ 100)))
              = JS.ofZ n /\ 0 <= n <= 100).
    destruct (Z.eq_dec (totalDuration rs) 0) as [Hz|Hnz].
    + exists 0. replace (optimizedDuration rs) with 0 by lia. rewrite Hz.
      split; [reflexivity | lia].
    + rewrite efficiency_of_ratio by exact Hnz.
      eexists. split; [reflexivity|]. apply percentage_bounds; lia.
Qed.

Lemma duration_saved_bounds_witness :
  exists n : Z,
    Statistics.efficiency_gain (statistics [Sample.R1; Sample.R2]) = JS.ofZ n
    /\ 0 <= n <= 100.
Proof.
  apply (duration_saved_bounds [Sample.R1; Sample.R2]).
  - repeat constructor.
  - simpl. repeat constructor; simpl; lia.
Defined.

Lemma filter_Boolean_none {A : Type} (arr : list (option A)) :
  Forall (fun x => x = None) arr -> filter_Boolean arr = [].
Proof.
  induction 1 as [|x arr Hx _ IH]; simpl; [reflexivity|]. rewrite Hx. exact IH.
Qed.

(** X6: when none of the requested ids is in the store, the preview handler
    still answers 200: the preview has no branch, a zero estimate and the
    bare title prefix, every count and duration of the statistics is 0, and
    the efficiency gain is 0. *)
Theorem preview_of_unresolved_ids (storage : MemStorage) (ids : list string) :
  Forall (fun id => roadmaps storage !! id = None) ids ->
  let response := previewHandler storage ids in
  status response = 200
  /\ Preview.branches (body_preview (body response)) = []
  /\ Preview.estimatedDuration (body_preview (body response)) = 0
  /\ Preview.title (body_preview (body response)) = "Merged: "
  /\ body_statistics (body response)
     = {| Statistics.original_roadmaps := 0;
          Statistics.original_duration := 0;
          Statistics.final_duration := 0;
          Statistics.duration_saved := 0;
          Statistics.original_branches := 0;
          Statistics.final_branches := 0;
          Statistics.efficiency_gain := JS.ofZ 0 |}.
Proof.
  intros Hnone. unfold previewHandler.
  rewrite filter_Boolean_none.
  - simpl. repeat split; reflexivity.
  - apply List.Forall_forall. intros x Hx. apply in_map_iff in Hx as [id [<- Hid]].
    rewrite List.Forall_forall in Hnone. apply Hnone, Hid.
Qed.

Lemma preview_of_unresolved_ids_witness :
  Preview.branches
    (body_preview (body (previewHandler Sample.storage ["missing"; "gone"]))) = [].
Proof.
  apply (preview_of_unresolved_ids Sample.storage ["missing"; "gone"]).
  repeat constructor.
Defined.

(** * Further properties of the scheduler *)

Lemma sort_insert_permutation {A : Type} (cmp : A -> A -> Z) (x : A) (l : list A) :
  Permutation (JS.sort_insert cmp x l) (x :: l).
Proof.
  induction l as [|y l IH]; simpl; [reflexivity|].
  destruct (0 <? cmp x y); [|reflexivity].
  rewrite IH. apply perm_swap.
Qed.

Lemma sort_permutation {A : Type} (cmp : A -> A -> Z) (l : list A) :
  Permutation (JS.sort cmp l) l.
Proof.
  induction l as [|x l IH]; simpl; [reflexivity|].
  rewrite sort_insert_permutation, IH. reflexivity.
Qed.

(** X7: sorting neither loses nor duplicates a video: the sequence the
    scheduler works on is a rearrangement of the flattened videos, of the
    same length and the same total duration. *)
Theorem sortedVideos_permutation (roadmap : Preview.t) :
  Permutation (sortedVideos roadmap) (flattenVideos roadmap)
  /\ List.length (sortedVideos roadmap) = List.length (flattenVideos roadmap)
  /\ videosDuration (sortedVideos roadmap) = videosDuration (flattenVideos roadmap).
Proof.
  assert (H : Permutation (sortedVideos roadmap) (flattenVideos roadmap))
    by apply sort_permutation.
  split; [exact H|]. split.
  - apply Permutation_length, H.
  - apply videosDuration_sorted.
Qed.

(** ** Hosts and their date keys *)

(** On a host that keeps one zone offset, the date key of round [j] is [j]
    days after the current UTC date, and the local date of round [j] is [j]
    days after the current local date. *)
Lemma fixed_zone_days (host : Host) (offset : Z) :
  (forall t isUTC, LocalTZA host t isUTC = offset) ->
  forall j : Z,
    dateKey host j = Date.Day (now host) + j
    /\ localDay host j = Date.Day (now host + offset) + j.
Proof.
  intros Hzone j.
  unfold localDay, dateKey, scheduleDateAt, Date.toISODate, Date.setDate_plus,
    Date.UTC, Date.LocalTime.
  rewrite !Hzone. split.
  - replace (now host + offset + j * Date.msPerDay - offset)
      with (now host + j * Date.msPerDay) by lia.
    unfold Date.Day. apply Z.div_add. unfold Date.msPerDay. lia.
  - replace (now host + offset + j * Date.msPerDay - offset + offset)
      with (now host + offset + j * Date.msPerDay) by lia.
    unfold Date.Day. apply Z.div_add. unfold Date.msPerDay. lia.
Qed.

Lemma fixed_zone_regular (host : Host) (offset : Z) :
  (forall t isUTC, LocalTZA host t isUTC = offset) ->
  keysAdvance host = true
  /\ keysNeverGoBack host = true
  /\ localDaysAdvance host = true.
Proof.
  intros Hzone.
  pose proof (fixed_zone_days host offset Hzone) as Hdays.
  unfold keysAdvance, keysNeverGoBack, localDaysAdvance.
  split; [|split]; apply forallb_forall; intros j _.
  - apply Z.ltb_lt. rewrite (proj1 (Hdays j)), (proj1 (Hdays (j + 1))). lia.
  - apply Z.leb_le. rewrite (proj1 (Hdays j)), (proj1 (Hdays (j + 1))). lia.
  - apply Z.eqb_eq. rewrite (proj2 (Hdays j)), (proj2 (Hdays 0)). lia.
Qed.

Lemma dateKey_le (host : Host) (i : Z) (n : nat) :
  keysNeverGoBack host = true -> 0 <= i -> i + Z.of_nat n <= 30 ->
  dateKey host i <= dateKey host (i + Z.of_nat n).
Proof.
  intros H Hi. unfold keysNeverGoBack in H.
  induction n as [|n IH]; intros Hn.
  - rewrite Z.add_0_r. lia.
  - pose proof (dayOffsets_forallb _ H (i + Z.of_nat n) ltac:(lia)) as Hstep.
    cbv beta in Hstep. apply Z.leb_le in Hstep.
    replace (i + Z.of_nat (S n)) with (i + Z.of_nat n + 1) by lia.
    specialize (IH ltac:(lia)). lia.
Qed.

Lemma dateKey_lt (host : Host) (i : Z) (n : nat) :
  keysAdvance host = true -> 0 <= i -> i + 1 + Z.of_nat n <= 30 ->
  dateKey host i < dateKey host (i + 1 + Z.of_nat n).
Proof.
  intros H Hi. unfold keysAdvance in H.
  induction n as [|n IH]; intros Hn.
  - rewrite Z.add_0_r.
    pose proof (dayOffsets_forallb _ H i ltac:(lia)) as Hstep.
    cbv beta in Hstep. apply Z.ltb_lt in Hstep. exact Hstep.
  - pose proof (dayOffsets_forallb _ H (i + 1 + Z.of_nat n) ltac:(lia)) as Hstep.
    cbv beta in Hstep. apply Z.ltb_lt in Hstep.
    replace (i + 1 + Z.of_nat (S n)) with (i + 1 + Z.of_nat n + 1) by lia.
    specialize (IH ltac:(lia)). lia.
Qed.

(** ** Calendars in chronological order *)

Lemma keys_increasing_keys (cal : Calendar) :
  keys_increasing cal <-> increasing (List.map fst cal).
Proof.
  split.
  - intros H i j a b Ha Hb Hij. rewrite nth_error_map in Ha, Hb.
    destruct (nth_error cal i) as [da|] eqn:Ea; [|discriminate].
    destruct (nth_error cal j) as [db|] eqn:Eb; [|discriminate].
    simpl in Ha, Hb. injection Ha as <-. injection Hb as <-.
    exact (H i j da db Ea Eb Hij).
  - intros H i j a b Ha Hb Hij.
    apply (H i j); [| |exact Hij]; rewrite nth_error_map.
    + rewrite Ha. reflexivity.
    + rewrite Hb. reflexivity.
Qed.

Lemma increasing_snoc (l : list Z) (k : Z) :
  increasing l -> Forall (fun a => a < k) l -> increasing (l ++ [k]).
Proof.
  intros Hinc Hlt i j a b Ha Hb Hij.
  assert (Hj : (j < List.length (l ++ [k]))%nat).
  { apply nth_error_Some. rewrite Hb. discriminate. }
  rewrite List.length_app in Hj. simpl in Hj.
  rewrite nth_error_app1 in Ha by lia.
  destruct (Nat.eq_dec j (List.length l)) as [->|Hne].
  - rewrite nth_error_app2, Nat.sub_diag in Hb by lia. simpl in Hb.
    injection Hb as <-. rewrite List.Forall_forall in Hlt.
    apply Hlt. eapply nth_error_In, Ha.
  - rewrite nth_error_app1 in Hb by lia. exact (Hinc i j a b Ha Hb Hij).
Qed.

(** Writing a day whose key is not smaller than any key of the calendar
    keeps the calendar in order: the day goes last, or takes the place of
    the last day. *)
Lemma keys_increasing_set (cal : Calendar) (k : Z) (v : list CalendarEvent.t) :
  keys_increasing cal ->
  Forall (fun day => fst day <= k) cal ->
  keys_increasing (calendar_set cal k v).
Proof.
  intros Hinc Hle. apply keys_increasing_keys. apply keys_increasing_keys in Hinc.
  destruct (in_dec Z.eq_dec k (List.map fst cal)) as [Hin|Hout].
  - rewrite calendar_set_known by exact Hin. exact Hinc.
  - rewrite calendar_set_fresh by exact Hout. rewrite List.map_app. simpl.
    apply increasing_snoc; [exact Hinc|].
    apply List.Forall_forall. intros a Ha. apply in_map_iff in Ha as [d [<- Hd]].
    rewrite List.Forall_forall in Hle. specialize (Hle d Hd).
    assert (Hne : fst d <> k).
    { intros E. apply Hout. rewrite <- E. apply in_map, Hd. }
    lia.
Qed.

Section ScheduleMore.

Variable host : Host.
Variable allVideos : list TaggedVideo.t.
Variable dailySeconds : Q.

Lemma scheduleLoop_keys_increasing :
  keysNeverGoBack host = true ->
  keys_increasing (calendar (scheduleLoop host allVideos dailySeconds)).
Proof.
  intros Hkeys.
  enough (H : ScheduleInv host allVideos dailySeconds (scheduleLoop host allVideos dailySeconds)
              /\ keys_increasing (calendar (scheduleLoop host allVideos dailySeconds)))
    by apply H.
  unfold scheduleLoop.
  apply (while_invariant
           (fun s => ScheduleInv host allVideos dailySeconds s
                     /\ keys_increasing (calendar s))).
  - intros s [Hinv Hinc] Hcond. split; [apply schedule_body_inv; assumption|].
    unfold schedule_cond in Hcond. apply andb_true_iff in Hcond as [_ Hlt30].
    apply Z.ltb_lt in Hlt30.
    rewrite schedule_body_eq.
    destruct (skipped host (dayOffset s)); cbn [calendar]; [exact Hinc|].
    destruct (0 <? _)%nat; [|exact Hinc].
    apply keys_increasing_set; [exact Hinc|].
    destruct Hinv as [Hoff [_ [Hok _]]].
    eapply List.Forall_impl; [|exact Hok].
    intros day [_ [_ [_ [j [Hj [Hkey _]]]]]]. rewrite Hkey.
    replace (dayOffset s) with (j + Z.of_nat (Z.to_nat (dayOffset s - j))) by lia.
    apply dateKey_le; [exact Hkeys | lia | lia].
  - split.
    + unfold ScheduleInv; simpl. repeat split; try lia; constructor.
    + intros [|i] j a b Ha; discriminate Ha.
Qed.

(** A working day on which the next video fits on its own moves the
    scheduler forward. *)
Lemma fillDay_progress (start : nat) :
  (start < List.length allVideos)%nat ->
  (0 < dailySeconds)%Q ->
  Forall (fun v => (inject_Z (TaggedVideo.duration v) <= dailySeconds)%Q) allVideos ->
  (start < dayVideoIndex (fillDay allVideos dailySeconds start))%nat.
Proof.
  intros Hstart Hpos Hfit.
  destruct (fillDay_inv allVideos dailySeconds start (Nat.lt_le_incl _ _ Hstart))
    as [taken [_ [Hidx [_ [_ [Hdur [_ Hbrk]]]]]]].
  pose proof (fillDay_exit allVideos dailySeconds start) as Hexit.
  set (day := fillDay allVideos dailySeconds start) in *.
  destruct taken as [|v taken]; [|simpl in Hidx; lia].
  exfalso. simpl in Hidx. rewrite Nat.add_0_r in Hidx.
  unfold videosDuration, sumZ in Hdur. simpl in Hdur.
  unfold day_cond in Hexit. rewrite Hdur, Hidx in Hexit.
  destruct (broke day) eqn:Hb.
  - destruct (Hbrk eq_refl) as [v [Hv Hno]]. apply Hno.
    rewrite Hdur. simpl. rewrite List.Forall_forall in Hfit.
    apply Hfit. eapply nth_error_In, Hv.
  - simpl in Hexit. apply Nat.ltb_lt in Hstart. rewrite Hstart in Hexit.
    simpl in Hexit. apply not_true_iff_false in Hexit. apply Hexit.
    apply Qlt_bool_iff. exact Hpos.
Qed.

(** On a host whose date key grows from each round to the next, no day is
    written twice, and the events of the calendar, read day after day, are
    the videos passed so far. *)
Lemma scheduleLoop_prefix :
  keysAdvance host = true ->
  calendarEvents (calendar (scheduleLoop host allVideos dailySeconds))
  = List.map stampVideo
      (firstn (videoIndex (scheduleLoop host allVideos dailySeconds)) allVideos).
Proof.
  intros Hadv.
  enough (H : (fun s => ScheduleInv host allVideos dailySeconds s
                        /\ calendarEvents (calendar s)
                           = List.map stampVideo (firstn (videoIndex s) allVideos))
                (scheduleLoop host allVideos dailySeconds)) by apply H.
  unfold scheduleLoop. apply while_invariant.
  - intros s [Hinv Hev] Hcond. split; [apply schedule_body_inv; assumption|].
    unfold schedule_cond in Hcond. apply andb_true_iff in Hcond as [_ Hlt30].
    apply Z.ltb_lt in Hlt30.
    destruct Hinv as [Hoff [Hidx [Hok _]]].
    rewrite schedule_body_eq.
    destruct (skipped host (dayOffset s)); cbn [calendar videoIndex]; [exact Hev|].
    destruct (fillDay_inv allVideos dailySeconds (videoIndex s) Hidx)
      as [taken [Hfirst [_ [_ [Hvid _]]]]].
    set (day := fillDay allVideos dailySeconds (videoIndex s)) in *.
    rewrite Hfirst, List.map_app, <- Hev, <- Hvid.
    destruct (0 <? List.length (dailyVideos day))%nat eqn:Hnonempty.
    + rewrite calendar_set_fresh.
      * rewrite calendarEvents_app. unfold calendarEvents at 2. simpl.
        rewrite app_nil_r. reflexivity.
      * intros Hin. apply in_map_iff in Hin as [d [Hd Hin]].
        rewrite List.Forall_forall in Hok.
        destruct (Hok d Hin) as [_ [_ [_ [j [Hj [Hkey _]]]]]].
        pose proof (dateKey_lt host j (Z.to_nat (dayOffset s - j - 1)) Hadv
                      ltac:(lia) ltac:(lia)) as Hlt.
        replace (j + 1 + Z.of_nat (Z.to_nat (dayOffset s - j - 1)))
          with (dayOffset s) in Hlt by lia.
        lia.
    + apply Nat.ltb_ge in Hnonempty.
      destruct (dailyVideos day); [|simpl in Hnonempty; lia].
      rewrite app_nil_r. reflexivity.
  - split.
    + unfold ScheduleInv; simpl. repeat split; try lia; constructor.
    + reflexivity.
Qed.

End ScheduleMore.

(** ** Working days in the thirty-day window *)

Lemma WeekDay_mod (d : Z) : Date.WeekDay (d mod 7) = Date.WeekDay d.
Proof. unfold Date.WeekDay. apply Zplus_mod_idemp_l. Qed.

Lemma workingDays_mod (n : nat) (d : Z) : workingDays d n = workingDays (d mod 7) n.
Proof.
  revert d. induction n as [|n IH]; intros d; simpl; [reflexivity|].
  rewrite WeekDay_mod.
  rewrite (IH (d + 1)), (IH (d mod 7 + 1)), Zplus_mod_idemp_l. reflexivity.
Qed.

Lemma workingDays_30 (d : Z) : (20 <= workingDays d 30)%nat.
Proof.
  rewrite workingDays_mod.
  pose proof (Z.mod_pos_bound d 7 ltac:(lia)) as Hb.
  assert (H : d mod 7 = 0 \/ d mod 7 = 1 \/ d mod 7 = 2 \/ d mod 7 = 3
              \/ d mod 7 = 4 \/ d mod 7 = 5 \/ d mod 7 = 6) by lia.
  destruct H as [->|[->|[->|[->|[->|[->| ->]]]]]]; vm_compute; lia.
Qed.

Lemma workingDays_snoc (n : nat) (d : Z) :
  workingDays d (S n)
  = (workingDays d n
     + if ((Date.WeekDay (d + Z.of_nat n) =? 0)%Z || (Date.WeekDay (d + Z.of_nat n) =? 6)%Z)
       then 0 else 1)%nat.
Proof.
  revert d. induction n as [|n IH]; intros d.
  - simpl. rewrite Z.add_0_r. destruct (_ || _); reflexivity.
  - change (workingDays d (S (S n)))
      with (if (Date.WeekDay d =? 0) || (Date.WeekDay d =? 6)
            then workingDays (d + 1) (S n) else S (workingDays (d + 1) (S n))).
    rewrite (IH (d + 1)).
    replace (d + 1 + Z.of_nat n) with (d + Z.of_nat (S n)) by lia.
    simpl workingDays. destruct ((Date.WeekDay d =? 0) || (Date.WeekDay d =? 6)); lia.
Qed.

Section Liveness.

Variable host : Host.
Variable allVideos : list TaggedVideo.t.
Variable dailySeconds : Q.
Hypothesis Hpos : (0 < dailySeconds)%Q.
Hypothesis Hfit :
  Forall (fun v => (inject_Z (TaggedVideo.duration v) <= dailySeconds)%Q) allVideos.
Hypothesis Hlocal : localDaysAdvance host = true.

(** Every working day visited so far has taken at least one video, as long
    as videos were left. *)
Lemma scheduleLoop_progress :
  let s := scheduleLoop host allVideos dailySeconds in
  (Nat.min (List.length allVideos)
           (workingDays (localDay host 0) (Z.to_nat (dayOffset s)))
   <= videoIndex s)%nat.
Proof.
  simpl. unfold scheduleLoop.
  set (L := localDay host 0).
  enough (H : (fun s => 0 <= dayOffset s
                        /\ (videoIndex s <= List.length allVideos)%nat
                        /\ (Nat.min (List.length allVideos)
                                    (workingDays L (Z.to_nat (dayOffset s)))
                            <= videoIndex s)%nat)
                (JS.while 30 (schedule_cond allVideos)
                   (schedule_body host allVideos dailySeconds)
                   {| calendar := []; videoIndex := 0%nat; dayOffset := 0 |}))
    by apply H.
  apply while_invariant.
  - intros s [Hoff [Hle Hmin]] Hcond.
    unfold schedule_cond in Hcond. apply andb_true_iff in Hcond as [Hlt Hlt30].
    apply Nat.ltb_lt in Hlt. apply Z.ltb_lt in Hlt30.
    rewrite schedule_body_eq.
    assert (Hday : localDay host (dayOffset s) = L + dayOffset s).
    { unfold localDaysAdvance in Hlocal.
      pose proof (dayOffsets_forallb _ Hlocal (dayOffset s) ltac:(lia)) as H.
      cbv beta in H. apply Z.eqb_eq in H. exact H. }
    assert (Hskip : skipped host (dayOffset s)
                    = (Date.WeekDay (L + dayOffset s) =? 0)
                      || (Date.WeekDay (L + dayOffset s) =? 6)).
    { rewrite <- Hday. reflexivity. }
    rewrite Hskip.
    assert (Hsnoc := workingDays_snoc (Z.to_nat (dayOffset s)) L).
    rewrite Z2Nat.id in Hsnoc by exact Hoff.
    destruct ((Date.WeekDay (L + dayOffset s) =? 0) || (Date.WeekDay (L + dayOffset s) =? 6));
      cbn [dayOffset videoIndex];
      replace (Z.to_nat (dayOffset s + 1)) with (S (Z.to_nat (dayOffset s))) by lia;
      rewrite Hsnoc.
    + split; [lia|]. split; [exact Hle|]. lia.
    + pose proof (fillDay_progress allVideos dailySeconds (videoIndex s) Hlt Hpos Hfit) as Hp.
      destruct (fillDay_inv allVideos dailySeconds (videoIndex s) Hle)
        as [_ [_ [_ [Hlen _]]]].
      split; [lia|]. split; [exact Hlen|]. lia.
  - simpl. split; [lia|]. split; lia.
Qed.

End Liveness.

(** X8: on a host whose date key never goes back from one round to the
    next, the date keys of the calendar come in strictly increasing order:
    the calendar lists its days chronologically.  Every host that keeps one
    zone offset is such a host. *)
Theorem calendar_keys_increasing (host : Host) (roadmap : Preview.t) (dailyHours : Q) :
  (keysNeverGoBack host = true ->
   keys_increasing (generateAutoSchedule host roadmap dailyHours))
  /\ (forall offset : Z,
        (forall t isUTC, LocalTZA host t isUTC = offset) ->
        keys_increasing (generateAutoSchedule host roadmap dailyHours)).
Proof.
  split.
  - apply scheduleLoop_keys_increasing.
  - intros offset Hzone. apply scheduleLoop_keys_increasing.
    apply (fixed_zone_regular host offset Hzone).
Qed.

Lemma calendar_keys_increasing_witness :
  fst (nth 0 (generateAutoSchedule Sample.cairoSpring Sample.threeCoreVideos (1 # 2)) (0, []))
  < fst (nth 1 (generateAutoSchedule Sample.cairoSpring Sample.threeCoreVideos (1 # 2))
           (0, []))
  /\ keys_increasing
       (generateAutoSchedule Sample.fridayNightUTCminus5 Sample.threeCoreVideos 1).
Proof.
  split.
  - apply (proj1 (calendar_keys_increasing Sample.cairoSpring Sample.threeCoreVideos
                    (1 # 2))
             ltac:(vm_compute; reflexivity) 0%nat 1%nat).
    + vm_compute. reflexivity.
    + vm_compute. reflexivity.
    + lia.
  - apply (proj2 (calendar_keys_increasing Sample.fridayNightUTCminus5
                    Sample.threeCoreVideos 1)
             (-5 * 3600000)).
    reflexivity.
Defined.

(** The order holds across a change of clocks too: in Cairo the key of
    Friday's round repeats Thursday's and does not go back. *)
Example keys_never_go_back_across_clock_change :
  keysNeverGoBack Sample.cairoSpring = true
  /\ keysAdvance Sample.cairoSpring = false.
Proof. vm_compute. split; reflexivity. Qed.

(** X9: every event of the calendar is a video of some branch of the
    preview, with the video's own id, title, duration, core flag and
    description, tagged with that branch's title and stamped "09:00". *)
Theorem calendar_events_origin
    (host : Host) (roadmap : Preview.t) (dailyHours : Q)
    (d : Z) (evs : list CalendarEvent.t) (e : CalendarEvent.t) :
  In (d, evs) (generateAutoSchedule host roadmap dailyHours) ->
  In e evs ->
  exists (b : RoadmapBranch.t) (v : VideoModule.t),
    In b (Preview.branches roadmap) /\ In v (RoadmapBranch.videos b)
    /\ e = {| CalendarEvent.id := VideoModule.id v;
              CalendarEvent.title := VideoModule.title v;
              CalendarEvent.duration := VideoModule.duration v;
              CalendarEvent.isCore := VideoModule.isCore v;
              CalendarEvent.description := VideoModule.description v;
              CalendarEvent.branch_title := RoadmapBranch.title b;
              CalendarEvent.scheduled_time := "09:00" |}.
Proof.
  intros Hday He.
  assert (Hin : In e (calendarEvents (generateAutoSchedule host roadmap dailyHours))).
  { unfold calendarEvents. apply in_flat_map. exists (d, evs). split; assumption. }
  apply calendar_event_position in Hin as [q [tv [_ [Hnth ->]]]].
  apply nth_error_In in Hnth.
  apply (Permutation_in _ (sort_permutation coreFirst (flattenVideos roadmap))) in Hnth.
  apply flattenVideos_tagged in Hnth as [b [v [Hb [Hv ->]]]].
  exists b, v. repeat split; assumption.
Qed.

Lemma calendar_events_origin_witness :
  exists (b : RoadmapBranch.t) (v : VideoModule.t),
    In b (Preview.branches Sample.threeCoreVideos) /\ In v (RoadmapBranch.videos b)
    /\ stampVideo (tagVideo (Sample.branch "A" 5400 []) (Sample.video "a3" 1800 true))
       = {| CalendarEvent.id := VideoModule.id v;
            CalendarEvent.title := VideoModule.title v;
            CalendarEvent.duration := VideoModule.duration v;
            CalendarEvent.isCore := VideoModule.isCore v;
            CalendarEvent.description := VideoModule.description v;
            CalendarEvent.branch_title := RoadmapBranch.title b;
            CalendarEvent.scheduled_time := "09:00" |}.
Proof.
  apply (calendar_events_origin Sample.mondayUTC Sample.threeCoreVideos 1 20095
           [stampVideo (tagVideo (Sample.branch "A" 5400 []) (Sample.video "a3" 1800 true))]).
  - vm_compute. right. left. reflexivity.
  - simpl. left. reflexivity.
Defined.

Lemma scheduleRun_all_taken (host : Host) (roadmap : Preview.t) (dailyHours : Q) :
  keysAdvance host = true ->
  videoIndex (scheduleRun host roadmap dailyHours) = List.length (sortedVideos roadmap) ->
  calendarEvents (generateAutoSchedule host roadmap dailyHours)
  = List.map stampVideo (sortedVideos roadmap).
Proof.
  intros Hadv Hall.
  unfold generateAutoSchedule, scheduleRun in *.
  rewrite scheduleLoop_prefix by exact Hadv.
  rewrite Hall, firstn_all. reflexivity.
Qed.



(** X11: with a daily budget that is zero or negative nothing is scheduled:
    the calendar is empty and no video is taken, whatever the preview. *)
Theorem no_budget_schedules_nothing
    (host : Host) (roadmap : Preview.t) (dailyHours : Q) :
  (dailyHours <= 0)%Q ->
  generateAutoSchedule host roadmap dailyHours = []
  /\ videoIndex (scheduleRun host roadmap dailyHours) = 0%nat.
Proof. apply schedule_nothing_without_budget. Qed.

Lemma no_budget_schedules_nothing_witness :
  generateAutoSchedule Sample.mondayUTC Sample.threeCoreVideos 0 = [].
Proof.
  apply (no_budget_schedules_nothing Sample.mondayUTC Sample.threeCoreVideos 0).
  unfold Qle. simpl. lia.
Defined.

(** X12: on a host where, in every round, the date key (the UTC date of the
    day visited) is the local date of that day, no date key of the calendar
    is a Saturday or a Sunday.  A host running in UTC is such a host. *)
Theorem no_weekend_key_when_dates_agree
    (host : Host) (roadmap : Preview.t) (dailyHours : Q) :
  (keysAreLocalDates host = true ->
   Forall (fun day => is_weekend (fst day) = false)
     (generateAutoSchedule host roadmap dailyHours))
  /\ ((forall t isUTC, LocalTZA host t isUTC = 0) ->
      Forall (fun day => is_weekend (fst day) = false)
        (generateAutoSchedule host roadmap dailyHours)).
Proof.
  split; [apply weekend_skip_when_dates_agree | apply weekend_skip_on_utc_host].
Qed.

Lemma no_weekend_key_when_dates_agree_witness :
  Forall (fun day => is_weekend (fst day) = false)
    (generateAutoSchedule Sample.saturdayMorningUTCminus5 Sample.threeCoreVideos 1)
  /\ Forall (fun day => is_weekend (fst day) = false)
       (generateAutoSchedule Sample.mondayUTC Sample.threeCoreVideos 1).
Proof.
  split.
  - apply (proj1 (no_weekend_key_when_dates_agree
                    Sample.saturdayMorningUTCminus5 Sample.threeCoreVideos 1)).
    vm_compute. reflexivity.
  - apply (proj2 (no_weekend_key_when_dates_agree
                    Sample.mondayUTC Sample.threeCoreVideos 1)).
    reflexivity.
Defined.

(** The agreement of the two dates at the start is not enough: in London,
    started on Friday 2025-03-28 at 00:30, local and UTC date agree, and
    Monday's round, after the clocks went forward, gets Sunday's date. *)
Example weekend_key_after_clock_change :
  let host :=
    {| now := 20175 * 86400000 + 1800000;
       LocalTZA := fun t isUTC =>
         if isUTC
         then (if t <? 20177 * 86400000 + 3600000 then 0 else 3600000)
         else (if t <? 20177 * 86400000 + 2 * 3600000 then 0 else 3600000) |} in
  dateKey host 0 = localDay host 0
  /\ List.map fst (generateAutoSchedule host Sample.threeCoreVideos 1)
     = [20175; 20177]
  /\ Date.WeekDay 20177 = 0
  /\ keysAreLocalDates host = false.
Proof. vm_compute. repeat split; reflexivity. Qed.

(** X13: with a positive daily budget, a preview of at most 20 videos, each
    of which fits in a day on its own, is scheduled completely within the
    thirty-day window, on a host whose local date moves on by one day from
    each round to the next and whose date key grows from each round to the
    next: the scheduler passes every video, and every video is in the
    calendar. *)
Theorem small_roadmap_fully_scheduled
    (host : Host) (roadmap : Preview.t) (dailyHours : Q) :
  (0 < JS.binary64 (dailyHours * 3600))%Q ->
  Forall (fun v => (inject_Z (TaggedVideo.duration v)
                    <= JS.binary64 (dailyHours * 3600))%Q)
    (flattenVideos roadmap) ->
  (List.length (flattenVideos roadmap) <= 20)%nat ->
  localDaysAdvance host = true ->
  keysAdvance host = true ->
  videoIndex (scheduleRun host roadmap dailyHours) = List.length (sortedVideos roadmap)
  /\ calendarEvents (generateAutoSchedule host roadmap dailyHours)
     = List.map stampVideo (sortedVideos roadmap).
Proof.
  intros Hpos Hfit Hlen Hlocal Hadv.
  change (JS.binary64 (dailyHours * 3600)%Q) with (dailySecondsOf dailyHours) in Hpos, Hfit.
  assert (Hperm := sort_permutation coreFirst (flattenVideos roadmap)).
  fold (sortedVideos roadmap) in Hperm.
  assert (Hfit' : Forall (fun v => (inject_Z (TaggedVideo.duration v)
                                    <= dailySecondsOf dailyHours)%Q)
                    (sortedVideos roadmap)).
  { rewrite List.Forall_forall in *. intros v Hv. apply Hfit.
    apply (Permutation_in _ Hperm), Hv. }
  assert (Hall : videoIndex (scheduleRun host roadmap dailyHours)
                 = List.length (sortedVideos roadmap)).
  { pose proof (scheduleLoop_progress host (sortedVideos roadmap)
                  (dailySecondsOf dailyHours) Hpos Hfit' Hlocal) as Hprog.
    simpl in Hprog. fold (scheduleRun host roadmap dailyHours) in Hprog.
    destruct (scheduleLoop_stop host (sortedVideos roadmap) (dailySecondsOf dailyHours))
      as [H30|Hdone]; [|exact Hdone].
    fold (scheduleRun host roadmap dailyHours) in H30.
    rewrite H30 in Hprog.
    pose proof (workingDays_30 (localDay host 0)) as H20.
    change (Z.to_nat 30) with 30%nat in Hprog.
    apply Permutation_length in Hperm.
    destruct (scheduleRun_inv host roadmap dailyHours) as [_ [Hidx _]].
    lia. }
  split; [exact Hall|]. apply scheduleRun_all_taken; assumption.
Qed.

Lemma small_roadmap_fully_scheduled_witness :
  calendarEvents (generateAutoSchedule Sample.fridayNightUTCminus5 Sample.threeCoreVideos 1)
  = List.map stampVideo (sortedVideos Sample.threeCoreVideos).
Proof.
  apply (small_roadmap_fully_scheduled Sample.fridayNightUTCminus5 Sample.threeCoreVideos 1).
  - vm_compute. reflexivity.
  - simpl. repeat constructor; vm_compute; discriminate.
  - simpl. lia.
  - vm_compute. reflexivity.
  - vm_compute. reflexivity.
Defined.



(** X14: a preview without any video gives an empty calendar, and the loop
    does not visit a single day. *)
Theorem empty_preview_schedules_nothing
    (host : Host) (roadmap : Preview.t) (dailyHours : Q) :
  flattenVideos roadmap = [] ->
  generateAutoSchedule host roadmap dailyHours = []
  /\ dayOffset (scheduleRun host roadmap dailyHours) = 0.
Proof.
  intros Hempty. unfold generateAutoSchedule, scheduleRun, sortedVideos.
  rewrite Hempty. split; reflexivity.
Qed.

Lemma empty_preview_schedules_nothing_witness :
  generateAutoSchedule Sample.mondayUTC
    {| Preview.id := "preview"; Preview.title := "Merged: "; Preview.description := "";
       Preview.estimatedDuration := 0;
       Preview.branches := [Sample.branch "Empty" 600 []] |} 1
  = [].
Proof.
  apply (empty_preview_schedules_nothing Sample.mondayUTC).
  reflexivity.
Defined.

(** * Properties of the storage class *)

Lemma roadmap_id_inj (t1 t2 : Z) :
  "roadmap_" +:+ pretty t1 = "roadmap_" +:+ pretty t2 -> t1 = t2.
Proof.
  intros H. simpl in H. injection H as H. exact (pretty_Z_inj _ _ H).
Qed.

Lemma merged_id_inj (t1 t2 : Z) :
  "merged_" +:+ pretty t1 = "merged_" +:+ pretty t2 -> t1 = t2.
Proof.
  intros H. simpl in H. injection H as H. exact (pretty_Z_inj _ _ H).
Qed.

(** X15: a roadmap just created is found again under its id, which is
    "roadmap_" followed by the clock reading taken for the id; it carries
    the data given, and each of its two timestamps is a clock reading of its
    own; lookups under any other id, and all merged roadmaps, are as
    before. *)
Theorem createRoadmap_getRoadmap
    (storage : MemStorage) (time createdAt updatedAt : Z)
    (title : string) (description : option string)
    (estimatedDuration : Z) (branches : list RoadmapBranch.t) (userId : string) :
  let result :=
    createRoadmap storage time createdAt updatedAt
      title description estimatedDuration branches userId in
  getRoadmap (fst result) (Roadmap.id (snd result)) = Some (snd result)
  /\ snd result
     = {| Roadmap.id := "roadmap_" +:+ pretty time;
          Roadmap.title := title;
          Roadmap.description := description;
          Roadmap.estimatedDuration := estimatedDuration;
          Roadmap.branches := branches;
          Roadmap.userId := userId;
          Roadmap.createdAt := createdAt;
          Roadmap.updatedAt := updatedAt |}
  /\ (forall id, id <> Roadmap.id (snd result) ->
                 getRoadmap (fst result) id = getRoadmap storage id)
  /\ mergedRoadmaps (fst result) = mergedRoadmaps storage.
Proof.
  simpl. unfold getRoadmap. simpl. split; [apply lookup_insert_eq|].
  split; [reflexivity|]. split; [|reflexivity].
  intros id Hne. apply lookup_insert_ne. congruence.
Qed.

Lemma createRoadmap_getRoadmap_witness :
  getRoadmap
    (fst (createRoadmap Sample.storage 7 8 9 "T" None 60 [] "demo_user")) "R1"
  = getRoadmap Sample.storage "R1".
Proof.
  apply (proj1 (proj2 (proj2
           (createRoadmap_getRoadmap Sample.storage 7 8 9 "T" None 60 [] "demo_user")))).
  discriminate.
Defined.

(** The two timestamps of a roadmap need not be equal: the clock may tick
    between the two readings. *)
Example createRoadmap_timestamps_differ :
  let r := snd (createRoadmap Sample.storage 7 8 9 "T" None 60 [] "demo_user") in
  Roadmap.id r = "roadmap_7" /\ Roadmap.createdAt r = 8 /\ Roadmap.updatedAt r = 9.
Proof. repeat split; reflexivity. Qed.

(** X16: ids come from the clock alone, so a second roadmap created with
    the same clock reading for its id takes the place of the first: the
    store ends up as if only the second had been created, and the shared id
    answers the second. *)
Theorem createRoadmap_same_time_overwrites
    (storage : MemStorage) (time : Z) (createdAt1 updatedAt1 createdAt2 updatedAt2 : Z)
    (title1 title2 : string) (description1 description2 : option string)
    (estimatedDuration1 estimatedDuration2 : Z)
    (branches1 branches2 : list RoadmapBranch.t) (userId1 userId2 : string) :
  let first :=
    createRoadmap storage time createdAt1 updatedAt1
      title1 description1 estimatedDuration1 branches1 userId1 in
  let second :=
    createRoadmap (fst first) time createdAt2 updatedAt2
      title2 description2 estimatedDuration2 branches2 userId2 in
  Roadmap.id (snd first) = Roadmap.id (snd second)
  /\ getRoadmap (fst second) (Roadmap.id (snd first)) = Some (snd second)
  /\ fst second
     = fst (createRoadmap storage time createdAt2 updatedAt2
              title2 description2 estimatedDuration2 branches2 userId2).
Proof.
  simpl. split; [reflexivity|]. split.
  - unfold getRoadmap. simpl. apply lookup_insert_eq.
  - unfold createRoadmap. simpl. f_equal. apply insert_insert_eq.
Qed.

(** X17: two roadmaps created with different clock readings for their ids
    get different ids, and both are found afterwards. *)
Theorem createRoadmap_distinct_times_coexist
    (storage : MemStorage) (time1 time2 : Z)
    (createdAt1 updatedAt1 createdAt2 updatedAt2 : Z)
    (title1 title2 : string) (description1 description2 : option string)
    (estimatedDuration1 estimatedDuration2 : Z)
    (branches1 branches2 : list RoadmapBranch.t) (userId1 userId2 : string) :
  time1 <> time2 ->
  let first :=
    createRoadmap storage time1 createdAt1 updatedAt1
      title1 description1 estimatedDuration1 branches1 userId1 in
  let second :=
    createRoadmap (fst first) time2 createdAt2 updatedAt2
      title2 description2 estimatedDuration2 branches2 userId2 in
  Roadmap.id (snd first) <> Roadmap.id (snd second)
  /\ getRoadmap (fst second) (Roadmap.id (snd first)) = Some (snd first)
  /\ getRoadmap (fst second) (Roadmap.id (snd second)) = Some (snd second).
Proof.
  intros Hne. simpl.
  assert (Hid : "roadmap_" +:+ pretty time1 <> "roadmap_" +:+ pretty time2).
  { intros H. apply Hne, roadmap_id_inj, H. }
  split; [exact Hid|]. unfold getRoadmap. simpl. split.
  - rewrite lookup_insert_ne by congruence. apply lookup_insert_eq.
  - apply lookup_insert_eq.
Qed.

Lemma createRoadmap_distinct_times_coexist_witness :
  getRoadmap
    (fst (createRoadmap (fst (createRoadmap Sample.storage 1 1 1 "A" None 10 [] "u"))
            2 2 2 "B" None 20 [] "u"))
    "roadmap_1"
  = Some (snd (createRoadmap Sample.storage 1 1 1 "A" None 10 [] "u")).
Proof.
  apply (createRoadmap_distinct_times_coexist Sample.storage 1 2 1 1 2 2
           "A" "B" None None 10 20 [] [] "u" "u").
  lia.
Defined.

Lemma getUserRoadmaps_membership (storage : MemStorage) (userId : string) (r : Roadmap.t) :
  In r (getUserRoadmaps storage userId)
  <-> Roadmap.userId r = userId
      /\ exists id, roadmaps storage !! id = Some r.
Proof.
  unfold getUserRoadmaps. rewrite filter_In, in_map_iff, String.eqb_eq.
  split.
  - intros [[[id r'] [Heq Hin]] Hu]. simpl in Heq. subst r'.
    split; [exact Hu|]. exists id.
    apply elem_of_map_to_list. apply list_elem_of_In. exact Hin.
  - intros [Hu [id Hid]]. split; [|exact Hu]. exists (id, r). split; [reflexivity|].
    apply list_elem_of_In. apply elem_of_map_to_list. exact Hid.
Qed.

(** X18: the roadmaps listed for a user are exactly the stored roadmaps
    whose [userId] is that user. *)
Theorem getUserRoadmaps_spec (storage : MemStorage) (userId : string) (r : Roadmap.t) :
  In r (getUserRoadmaps storage userId)
  <-> Roadmap.userId r = userId
      /\ exists id, roadmaps storage !! id = Some r.
Proof. apply getUserRoadmaps_membership. Qed.

(** * Further properties of the route handlers *)

Lemma filter_Boolean_length {A : Type} (arr : list (option A)) :
  (List.length (filter_Boolean arr) <= List.length arr)%nat
  /\ (In None arr -> (List.length (filter_Boolean arr) < List.length arr)%nat).
Proof.
  induction arr as [|[x|] arr [IHle IHlt]]; simpl.
  - split; [lia | intros []].
  - split; [lia|]. intros [H|H]; [discriminate H|]. specialize (IHlt H). lia.
  - split; [lia|]. intros _. lia.
Qed.

(** X19: the merge handler reports and records the ids as requested, not as
    resolved: [source_count] is the number of ids in the request and
    [mergedFrom] is the requested list, so [source_count] is at least the
    number of roadmaps actually merged and exceeds it as soon as one id is
    not in the store. *)
Theorem merge_counts_requested_ids
    (host : Host) (time createdAt : Z) (storage : MemStorage) (req : MergeRequest) :
  let response := snd (mergeHandler host time createdAt storage req) in
  let merged_count :=
    Statistics.original_roadmaps
      (body_statistics (body (previewHandler storage (roadmap_ids req)))) in
  source_count (body response) = List.length (roadmap_ids req)
  /\ MergedRoadmap.mergedFrom (merged_roadmap (body response)) = roadmap_ids req
  /\ (merged_count <= source_count (body response))%nat
  /\ (forall id, In id (roadmap_ids req) -> roadmaps storage !! id = None ->
                 (merged_count < source_count (body response))%nat).
Proof.
  simpl. split; [reflexivity|]. split; [reflexivity|].
  destruct (filter_Boolean_length (List.map (getRoadmap storage) (roadmap_ids req)))
    as [Hle Hlt].
  rewrite List.length_map in Hle, Hlt.
  split; [exact Hle|]. intros id Hin Hnone. apply Hlt.
  apply in_map_iff. exists id. split; [exact Hnone | exact Hin].
Qed.

Lemma merge_counts_requested_ids_witness :
  (Statistics.original_roadmaps
     (body_statistics
        (body (previewHandler Sample.storage (roadmap_ids Sample.negativeHours))))
   < source_count
       (body (snd (mergeHandler Sample.mondayUTC 0 0 Sample.storage Sample.negativeHours))))%nat.
Proof.
  apply (proj2 (proj2 (proj2
           (merge_counts_requested_ids Sample.mondayUTC 0 0 Sample.storage
              Sample.negativeHours))) "missing").
  - simpl. right. left. reflexivity.
  - reflexivity.
Defined.

(** X20: a merge writes one merged roadmap and nothing else: the source
    roadmaps are untouched, the merged roadmap is found under its id
    "merged_" followed by the clock reading, it belongs to "demo_user", and
    every other merged roadmap is as before. *)
Theorem merge_writes_one_record
    (host : Host) (time createdAt : Z) (storage : MemStorage) (req : MergeRequest) :
  let result := mergeHandler host time createdAt storage req in
  let merged := merged_roadmap (body (snd result)) in
  roadmaps (fst result) = roadmaps storage
  /\ MergedRoadmap.id merged = "merged_" +:+ pretty time
  /\ MergedRoadmap.userId merged = "demo_user"
  /\ getMergedRoadmap (fst result) (MergedRoadmap.id merged) = Some merged
  /\ (forall id, id <> MergedRoadmap.id merged ->
                 getMergedRoadmap (fst result) id = getMergedRoadmap storage id).
Proof.
  simpl. split; [reflexivity|]. split; [reflexivity|]. split; [reflexivity|].
  unfold getMergedRoadmap. simpl. split; [apply lookup_insert_eq|].
  intros id Hne. apply lookup_insert_ne. congruence.
Qed.

Lemma merge_writes_one_record_witness :
  getMergedRoadmap
    (fst (mergeHandler Sample.mondayUTC 5 5 Sample.storage Sample.negativeHours))
    "merged_4"
  = getMergedRoadmap Sample.storage "merged_4".
Proof.
  apply (proj2 (proj2 (proj2 (proj2
           (merge_writes_one_record Sample.mondayUTC 5 5 Sample.storage
              Sample.negativeHours))))).
  discriminate.
Defined.

(** X21: merging is not idempotent: the same request served at two
    different clock readings leaves two merged roadmaps in the store, under
    different ids, with the same branches. *)
Theorem merge_twice_stores_two
    (host : Host) (time1 time2 createdAt1 createdAt2 : Z) (storage : MemStorage)
    (req : MergeRequest) :
  time1 <> time2 ->
  let first := mergeHandler host time1 createdAt1 storage req in
  let second := mergeHandler host time2 createdAt2 (fst first) req in
  let m1 := merged_roadmap (body (snd first)) in
  let m2 := merged_roadmap (body (snd second)) in
  MergedRoadmap.id m1 <> MergedRoadmap.id m2
  /\ getMergedRoadmap (fst second) (MergedRoadmap.id m1) = Some m1
  /\ getMergedRoadmap (fst second) (MergedRoadmap.id m2) = Some m2
  /\ MergedRoadmap.branches m1 = MergedRoadmap.branches m2.
Proof.
  intros Hne. simpl.
  assert (Hid : "merged_" +:+ pretty time1 <> "merged_" +:+ pretty time2).
  { intros H. apply Hne, merged_id_inj, H. }
  split; [exact Hid|]. unfold getMergedRoadmap. simpl. split.
  - rewrite lookup_insert_ne by congruence. apply lookup_insert_eq.
  - split; [apply lookup_insert_eq | reflexivity].
Qed.

Lemma merge_twice_stores_two_witness :
  getMergedRoadmap
    (fst (mergeHandler Sample.mondayUTC 2 2
            (fst (mergeHandler Sample.mondayUTC 1 1 Sample.storage Sample.negativeHours))
            Sample.negativeHours))
    "merged_1"
  = Some (merged_roadmap
            (body (snd (mergeHandler Sample.mondayUTC 1 1 Sample.storage
                          Sample.negativeHours)))).
Proof.
  apply (merge_twice_stores_two Sample.mondayUTC 1 2 1 2 Sample.storage
           Sample.negativeHours).
  lia.
Defined.

(** X22: the merged roadmap carries a calendar exactly when the request has
    [schedule_mode] "auto" and [calendar_view] set; "manual", "none" or any
    other mode never produces one. *)
Theorem merge_calendar_only_when_auto
    (host : Host) (time createdAt : Z) (storage : MemStorage) (req : MergeRequest) :
  let merged := merged_roadmap (body (snd (mergeHandler host time createdAt storage req))) in
  MergedRoadmap.calendar merged <> None
  <-> schedule_mode req = "auto" /\ calendar_view req = true.
Proof.
  simpl. unfold schedulerArgument.
  destruct (String.eqb (schedule_mode req) "auto") eqn:Hmode;
    destruct (calendar_view req) eqn:Hview; simpl.
  - apply String.eqb_eq in Hmode. split; [auto | discriminate].
  - split; [congruence | intros [_ H]; discriminate H].
  - apply String.eqb_neq in Hmode. split; [congruence | intros [H _]; contradiction].
  - apply String.eqb_neq in Hmode. split; [congruence | intros [H _]; contradiction].
Qed.

(** X23: generating two roadmaps, whatever the inputs and clock readings,
    and previewing the merge of the two ids returned always gives the same
    statistics: two roadmaps, 14400 s and four branches before, 7200 s and
    two branches after, 7200 s saved, an efficiency gain of 50. *)
Theorem generate_twice_then_preview
    (storage : MemStorage) (time1 time2 : Z)
    (createdAt1 updatedAt1 createdAt2 updatedAt2 : Z) (input1 input2 : string) :
  let first := generateHandler time1 createdAt1 updatedAt1 storage input1 in
  let second := generateHandler time2 createdAt2 updatedAt2 (fst first) input2 in
  let ids := [Roadmap.id (generated_roadmap (body (snd first)));
              Roadmap.id (generated_roadmap (body (snd second)))] in
  let response := previewHandler (fst second) ids in
  status response = 200
  /\ List.map RoadmapBranch.title (Preview.branches (body_preview (body response)))
     = ["Fundamentals"; "Advanced Topics"]
  /\ body_statistics (body response)
     = {| Statistics.original_roadmaps := 2;
          Statistics.original_duration := 14400;
          Statistics.final_duration := 7200;
          Statistics.duration_saved := 7200;
          Statistics.original_branches := 4;
          Statistics.final_branches := 2;
          Statistics.efficiency_gain := JS.ofZ 50 |}.
Proof.
  simpl. split; [reflexivity|].
  unfold previewHandler, getRoadmap. simpl.
  rewrite lookup_insert_eq.
  destruct (decide ("roadmap_" +:+ pretty time2 = "roadmap_" +:+ pretty time1)) as [Heq|Hne].
  - simpl in Heq. rewrite Heq, lookup_insert_eq. simpl. split; reflexivity.
  - simpl in Hne. rewrite lookup_insert_ne by exact Hne.
    rewrite lookup_insert_eq. simpl. split; reflexivity.
Qed.

(** X24: a roadmap just generated is on the list of mergeable roadmaps,
    with its id and title, two branches and an estimate of 7200 s. *)
Theorem generated_roadmap_is_mergeable
    (storage : MemStorage) (time createdAt updatedAt : Z) (user_input : string) :
  let result := generateHandler time createdAt updatedAt storage user_input in
  status (snd result) = 200
  /\ In {| mergeable_id := "roadmap_" +:+ pretty time;
           mergeable_title := "Learning Path: " +:+ user_input;
           mergeable_description := "AI-generated roadmap for " +:+ user_input;
           mergeable_estimatedDuration := 7200;
           branchCount := 2 |}
        (body (mergeableHandler (fst result))).
Proof.
  simpl. split; [reflexivity|].
  apply in_map_iff.
  exists (generated_roadmap
            (body (snd (generateHandler time createdAt updatedAt storage user_input)))).
  split; [reflexivity|].
  apply getUserRoadmaps_membership. split; [reflexivity|].
  exists ("roadmap_" +:+ pretty time). simpl. apply lookup_insert_eq.
Qed.

(** * Properties of the external roadmap search *)

Section ExternalSearchFacts.

Variable toLowerCase : string -> string.

Lemma searchGet_ok (query : string) (sources : option string) :
  query <> "" ->
  searchGetHandler toLowerCase (Some query) sources
  = json (SearchOk
            {| result_roadmaps := List.filter (searchMatches toLowerCase query) externalCatalogue;
               result_query := query;
               sources_searched :=
                 match sources with
                 | None | Some EmptyString => defaultSources
                 | Some sources => split_comma sources
                 end;
               total_found :=
                 List.length (List.filter (searchMatches toLowerCase query) externalCatalogue);
               result_status := "success" |}).
Proof. intros H. destruct query; [contradiction | reflexivity]. Qed.

Lemma searchPost_ok (query : string) (sources : option string) (limit : option Z) :
  query <> "" ->
  let found := List.filter (searchMatches toLowerCase query) externalCatalogue in
  searchPostHandler toLowerCase (Some query) sources limit
  = json (SearchOk
            {| result_roadmaps :=
                 match limit with
                 | Some n => if n =? 0 then found else slice0 found n
                 | None => found
                 end;
               result_query := query;
               sources_searched := defaultSources;
               total_found := List.length found;
               result_status := "success" |}).
Proof.
  intros H. destruct query as [|c q]; [contradiction|].
  unfold searchPostHandler. rewrite searchGet_ok by discriminate.
  cbv zeta. unfold json. cbn [body].
  destruct limit as [n|]; [destruct (n =? 0)|]; reflexivity.
Qed.

Lemma filter_sublist {A : Type} (f : A -> bool) (l : list A) :
  List.filter f l `sublist_of` l.
Proof.
  induction l as [|x l IH]; simpl; [constructor|].
  destruct (f x); constructor; exact IH.
Qed.

Lemma slice0_length {A : Type} (arr : list A) (end_ : Z) :
  (List.length (slice0 arr end_) <= List.length arr)%nat
  /\ (0 <= end_ -> List.length (slice0 arr end_)
                   = Nat.min (Z.to_nat end_) (List.length arr)).
Proof.
  unfold slice0. destruct (end_ <? 0) eqn:E.
  - apply Z.ltb_lt in E. rewrite List.length_firstn. split; lia.
  - rewrite List.length_firstn. split; [lia | reflexivity].
Qed.

Lemma split_comma_nonempty (s : string) : split_comma s <> [].
Proof.
  destruct s as [|c rest]; simpl; [discriminate|].
  destruct (Ascii.eqb c comma); [discriminate|].
  destruct (split_comma rest); discriminate.
Qed.

Lemma join_split_comma (s : string) : JS.join "," (split_comma s) = s.
Proof.
  induction s as [|c rest IH]; [reflexivity|].
  simpl split_comma. destruct (Ascii.eqb c comma) eqn:E.
  - apply Ascii.eqb_eq in E. subst c.
    pose proof (split_comma_nonempty rest) as Hne.
    destruct (split_comma rest) as [|seg segs]; [contradiction|].
    change (JS.join "," (EmptyString :: seg :: segs))
      with (String comma (JS.join "," (seg :: segs))).
    rewrite IH. reflexivity.
  - pose proof (split_comma_nonempty rest) as Hne.
    destruct (split_comma rest) as [|seg segs]; [contradiction|].
    destruct segs as [|seg' segs].
    + simpl in *. rewrite IH. reflexivity.
    + change (JS.join "," (String c seg :: seg' :: segs))
        with (String c (JS.join "," (seg :: seg' :: segs))).
      rewrite IH. reflexivity.
Qed.

End ExternalSearchFacts.

(** X25: both search routes answer 400 exactly when the query is absent or
    empty, with their respective error messages, and 200 otherwise. *)
Theorem search_requires_query
    (toLowerCase : string -> string) (query sources : option string) (limit : option Z) :
  (query = None \/ query = Some "" ->
     searchGetHandler toLowerCase query sources
     = mkResponse 400 (SearchError "Query parameter is required")
     /\ searchPostHandler toLowerCase query sources limit
        = mkResponse 400 (SearchError "Query is required"))
  /\ (query <> None -> query <> Some "" ->
        status (searchGetHandler toLowerCase query sources) = 200
        /\ status (searchPostHandler toLowerCase query sources limit) = 200).
Proof.
  split.
  - intros [->| ->]; split; reflexivity.
  - intros Hn He. destruct query as [[|c q]|]; try contradiction.
    split; reflexivity.
Qed.

Lemma search_requires_query_witness :
  status (searchGetHandler (fun s => s) (Some "react") None) = 200
  /\ searchPostHandler (fun s => s) None None (Some 1)
     = mkResponse 400 (SearchError "Query is required").
Proof.
  split.
  - apply (proj2 (search_requires_query (fun s => s) (Some "react") None None));
      discriminate.
  - apply (proj1 (search_requires_query (fun s => s) None None (Some 1))).
    left. reflexivity.
Defined.

(** X26: a search answers roadmaps of the catalogue only, in catalogue
    order, each matching the query by title or by topic; it echoes the
    query, and [total_found] is the number of roadmaps answered, at most
    2. *)
Theorem search_results_from_catalogue
    (toLowerCase : string -> string) (query : string) (sources : option string) :
  query <> "" ->
  exists data,
    body (searchGetHandler toLowerCase (Some query) sources) = SearchOk data
    /\ result_roadmaps data `sublist_of` externalCatalogue
    /\ Forall (fun r => searchMatches toLowerCase query r = true) (result_roadmaps data)
    /\ result_query data = query
    /\ total_found data = List.length (result_roadmaps data)
    /\ (total_found data <= 2)%nat.
Proof.
  intros Hq. rewrite searchGet_ok by exact Hq. eexists. split; [reflexivity|].
  cbn [result_roadmaps result_query total_found].
  split; [apply filter_sublist|]. split.
  - apply List.Forall_forall. intros r Hr. apply filter_In in Hr. tauto.
  - split; [reflexivity|]. split; [reflexivity|].
    apply (sublist_length _ externalCatalogue), filter_sublist.
Qed.

Lemma search_results_from_catalogue_witness :
  exists data,
    body (searchGetHandler (fun s => s) (Some "react") None) = SearchOk data
    /\ result_roadmaps data `sublist_of` externalCatalogue
    /\ Forall (fun r => searchMatches (fun s => s) "react" r = true) (result_roadmaps data)
    /\ result_query data = "react"
    /\ total_found data = List.length (result_roadmaps data)
    /\ (total_found data <= 2)%nat.
Proof.
  apply (search_results_from_catalogue (fun s => s) "react" None). discriminate.
Defined.

(** X27: the POST route cuts the roadmaps of the inner search to the limit
    but leaves [total_found] at the number found before the cut, so
    [total_found] can exceed the number of roadmaps answered; a limit of 0
    or no limit cuts nothing, and a negative limit drops that many roadmaps
    from the end. *)
Theorem search_post_limit
    (toLowerCase : string -> string) (query : string) (sources : option string)
    (limit : option Z) :
  query <> "" ->
  let found := List.filter (searchMatches toLowerCase query) externalCatalogue in
  exists data,
    body (searchPostHandler toLowerCase (Some query) sources limit) = SearchOk data
    /\ total_found data = List.length found
    /\ (List.length (result_roadmaps data) <= total_found data)%nat
    /\ (limit = None \/ limit = Some 0 -> result_roadmaps data = found)
    /\ (forall n, limit = Some n -> 0 < n ->
                  result_roadmaps data = firstn (Z.to_nat n) found)
    /\ (forall n, limit = Some n -> n < 0 ->
                  result_roadmaps data
                  = firstn (List.length found - Z.to_nat (- n)) found).
Proof.
  intros Hq. cbv zeta. rewrite searchPost_ok by exact Hq. cbv zeta.
  set (found := List.filter (searchMatches toLowerCase query) externalCatalogue).
  eexists. split; [reflexivity|].
  cbn [result_roadmaps total_found].
  split; [reflexivity|]. split.
  { destruct limit as [n|]; [destruct (n =? 0)|]; try lia. apply slice0_length. }
  split.
  { intros [->| ->]; reflexivity. }
  split.
  - intros n -> Hn. replace (n =? 0) with false by (symmetry; apply Z.eqb_neq; lia).
    unfold slice0. replace (n <? 0) with false by (symmetry; apply Z.ltb_ge; lia).
    reflexivity.
  - intros n -> Hn. replace (n =? 0) with false by (symmetry; apply Z.eqb_neq; lia).
    unfold slice0. replace (n <? 0) with true by (symmetry; apply Z.ltb_lt; lia).
    f_equal. lia.
Qed.

Lemma search_post_limit_witness :
  exists data,
    body (searchPostHandler (fun s => s) (Some "javascript") None (Some 1)) = SearchOk data
    /\ total_found data = 2%nat
    /\ List.length (result_roadmaps data) = 1%nat.
Proof.
  destruct (search_post_limit (fun s => s) "javascript" None (Some 1))
    as [data [Hbody [Hfound [_ [_ [Hcut _]]]]]]; [discriminate|].
  exists data. split; [exact Hbody|]. split; [exact Hfound|].
  rewrite (Hcut 1 eq_refl); [reflexivity | lia].
Defined.

(** X28: the POST route does not pass [sources] on: it always reports the
    three default sources as searched.  The GET route reports the default
    sources when [sources] is absent or empty, and otherwise the pieces of
    [sources] between commas, which joined by commas give [sources] back. *)
Theorem search_sources_reported
    (toLowerCase : string -> string) (query : string) (sources : option string)
    (limit : option Z) :
  query <> "" ->
  (exists data,
     body (searchPostHandler toLowerCase (Some query) sources limit) = SearchOk data
     /\ sources_searched data = defaultSources)
  /\ (exists data,
        body (searchGetHandler toLowerCase (Some query) sources) = SearchOk data
        /\ (sources = None \/ sources = Some "" -> sources_searched data = defaultSources)
        /\ (forall s, sources = Some s -> s <> "" ->
                      JS.join "," (sources_searched data) = s)).
Proof.
  intros Hq. split.
  - rewrite searchPost_ok by exact Hq. eexists. split; reflexivity.
  - rewrite searchGet_ok by exact Hq. eexists. split; [reflexivity|].
    cbn [sources_searched]. split.
    + intros [->| ->]; reflexivity.
    + intros s -> Hs. destruct s as [|c' s']; [contradiction|].
      apply join_split_comma.
Qed.

Lemma search_sources_reported_witness :
  exists data,
    body (searchGetHandler (fun s => s) (Some "css") (Some "roadmap_sh,freecodecamp"))
    = SearchOk data
    /\ sources_searched data = ["roadmap_sh"; "freecodecamp"].
Proof.
  destruct (proj2 (search_sources_reported (fun s => s) "css"
                     (Some "roadmap_sh,freecodecamp") None ltac:(discriminate)))
    as [data [Hbody _]].
  exists data. split; [exact Hbody|].
  injection Hbody as <-. reflexivity.
Defined.
